(** * nft_snapshot: a shallow embedding of [nft_snapshot.py]

    The script enriches a map from token identifiers to records with data
    fetched from a ledger RPC service and from HTTP endpoints, caches the
    map as JSON on disk, and derives holder counts, a trait distribution and
    a CSV snapshot from it.

    Python values are dynamically typed, so the records are modelled with a
    universal value type [pyval]; dictionaries keep their insertion order
    and are association lists.  Code that raises is modelled in a state
    monad whose result is either a value or the exception raised; the state
    survives the exception, as Python's mutations do. *)

From Stdlib Require Import List String Ascii ZArith Lia Bool Arith.
From Stdlib Require Import Permutation Sorted DecimalString.
Import ListNotations.

Set Warnings "-register-all".

Local Open Scope string_scope.
Local Open Scope list_scope.

(** ** Python values *)

(** The values the script handles: what [json.load] produces, and the
    [bytes] objects left by the metadata decoder (line 253 of the source:
    "This unfortunately leaves us with bytes").  Numbers are integers: no
    modelled operation inspects a float. *)
Inductive pyval : Type :=
| PNone : pyval
| PBool : bool -> pyval
| PInt : Z -> pyval
| PStr : string -> pyval
| PBytes : string -> pyval
| PList : list pyval -> pyval
| PDict : list (string * pyval) -> pyval.

(** Induction principle that reaches inside lists and dictionaries. *)
Section PyvalInd.
Variable P : pyval -> Prop.
Hypothesis HNone : P PNone.
Hypothesis HBool : forall b, P (PBool b).
Hypothesis HInt : forall z, P (PInt z).
Hypothesis HStr : forall s, P (PStr s).
Hypothesis HBytes : forall s, P (PBytes s).
Hypothesis HList : forall l, Forall P l -> P (PList l).
Hypothesis HDict : forall d, Forall (fun kv => P (snd kv)) d -> P (PDict d).

Fixpoint pyval_nested_ind (v : pyval) : P v :=
  match v with
  | PNone => HNone
  | PBool b => HBool b
  | PInt z => HInt z
  | PStr s => HStr s
  | PBytes s => HBytes s
  | PList l =>
      HList l ((fix go (l : list pyval) : Forall P l :=
                  match l with
                  | [] => Forall_nil _
                  | x :: t => Forall_cons x (pyval_nested_ind x) (go t)
                  end) l)
  | PDict d =>
      HDict d ((fix go (d : list (string * pyval))
                  : Forall (fun kv => P (snd kv)) d :=
                  match d with
                  | [] => Forall_nil _
                  | kv :: t =>
                      Forall_cons kv (pyval_nested_ind (snd kv)) (go t)
                  end) d)
  end.
End PyvalInd.

(** Python's truth value of an object ([if x], [not x], [x or y]). *)
Definition truthy (v : pyval) : bool :=
  match v with
  | PNone => false
  | PBool b => b
  | PInt z => negb (z =? 0)%Z
  | PStr s => negb (s =? "")
  | PBytes s => negb (s =? "")
  | PList l => match l with [] => false | _ => true end
  | PDict d => match d with [] => false | _ => true end
  end.

(** [x is None] *)
Definition is_none (v : pyval) : bool :=
  match v with PNone => true | _ => false end.

(** [x or y] *)
Definition py_or (x y : pyval) : pyval := if truthy x then x else y.

(** ** Dictionaries *)

(** A dictionary with string keys, in insertion order. *)
Definition dict (V : Type) : Type := list (string * V).

Fixpoint dict_get {V} (d : dict V) (k : string) : option V :=
  match d with
  | [] => None
  | (k', v) :: t => if k' =? k then Some v else dict_get t k
  end.

(** [d[k] = v]: an existing key keeps its position, a new one goes last. *)
Fixpoint dict_set {V} (d : dict V) (k : string) (v : V) : dict V :=
  match d with
  | [] => [(k, v)]
  | (k', v') :: t =>
      if k' =? k then (k', v) :: t else (k', v') :: dict_set t k v
  end.

Definition dict_keys {V} (d : dict V) : list string := map fst d.

(** A token record and the token map ([all_token_data]). *)
Definition record : Type := dict pyval.
Definition tokenmap : Type := dict record.

(** [r.get(k)]: the value, or [None] when the key is missing. *)
Definition get (r : record) (k : string) : pyval :=
  match dict_get r k with Some v => v | None => PNone end.

(** The token map as the Python object handed to [json.dump]. *)
Definition py_of_tokenmap (m : tokenmap) : pyval :=
  PDict (map (fun kr => (fst kr, PDict (snd kr))) m).

(** ** Exceptions and the state monad *)

Inductive exn : Type :=
| KeyError | IndexError | TypeError | AttributeError
| OSError | JSONDecodeError | ClientError | RecursionError
| ZeroDivisionError | OverflowError.

Inductive outcome (A : Type) : Type :=
| Ok : A -> outcome A
| Raise : exn -> outcome A.
Arguments Ok {A} _.
Arguments Raise {A} _.

(** A computation over a state [S] that returns or raises; the state is
    kept in both cases. *)
Definition M (S A : Type) : Type := S -> outcome A * S.

Definition ret {S A} (a : A) : M S A := fun s => (Ok a, s).

Definition bind {S A B} (c : M S A) (k : A -> M S B) : M S B :=
  fun s =>
    match c s with
    | (Ok a, s') => k a s'
    | (Raise e, s') => (Raise e, s')
    end.

Definition raise {S A} (e : exn) : M S A := fun s => (Raise e, s).

(** [try: c  except Exception as e: h e] *)
Definition try_except {S A} (c : M S A) (h : exn -> M S A) : M S A :=
  fun s =>
    match c s with
    | (Ok a, s') => (Ok a, s')
    | (Raise e, s') => h e s'
    end.

(** A pure step that may raise. *)
Definition lift {S A} (o : outcome A) : M S A := fun s => (o, s).

Definition gets {S A} (f : S -> A) : M S A := fun s => (Ok (f s), s).
Definition modify {S} (f : S -> S) : M S unit := fun s => (Ok tt, f s).

Declare Scope py_scope.
Delimit Scope py_scope with py.
Notation "x <- c ;; k" := (bind c (fun x => k))
  (at level 100, c at next level, right associativity) : py_scope.
Notation "c ;;; k" := (bind c (fun _ => k))
  (at level 100, right associativity) : py_scope.
Local Open Scope py_scope.

(** ** Subscripts and attribute access *)

(** [v[k]] for a string [k]. *)
Definition py_item (v : pyval) (k : string) : outcome pyval :=
  match v with
  | PDict d => match dict_get d k with
               | Some x => Ok x
               | None => Raise KeyError
               end
  | _ => Raise TypeError
  end.

(** [v[0]] *)
Definition py_first (v : pyval) : outcome pyval :=
  match v with
  | PList l => match l with x :: _ => Ok x | [] => Raise IndexError end
  | PStr s => match s with
              | String c _ => Ok (PStr (String c ""))
              | EmptyString => Raise IndexError
              end
  | PBytes s => match s with
                | String c _ => Ok (PInt (Z.of_nat (nat_of_ascii c)))
                | EmptyString => Raise IndexError
                end
  | PDict _ => Raise KeyError
  | _ => Raise TypeError
  end.

(** [v.get(k)]: only dictionaries have the method. *)
Definition py_get (v : pyval) (k : string) : outcome pyval :=
  match v with
  | PDict d => Ok (get d k)
  | _ => Raise AttributeError
  end.

(** ** Log, file system, program state *)

Inductive level : Type := Debug | Info | Warning | Error.

(** What the run leaves behind besides the token map: log records (with
    their format string), blocking sleeps, the requests made through the
    HTTP session, and the calls of the RPC client (the method and its
    argument). *)
Inductive event : Type :=
| Log : level -> string -> event
| Sleep : Z -> event
| HttpGet : string -> event
| Rpc : string -> pyval -> event.

(** A JSON document, as [json.dump] writes and [json.load] reads it. *)
Inductive json : Type :=
| JNull : json
| JBool : bool -> json
| JNum : Z -> json
| JStr : string -> json
| JArr : list json -> json
| JObj : list (string * json) -> json.

(** The content of a file: the JSON document its text denotes, or text
    that [json.load] rejects (an empty or truncated file). *)
Inductive file : Type :=
| Doc : json -> file
| Garbled : file.

(** The part of the file system the cache touches.  The four tests say
    whether [Path(CACHE_DIR).mkdir(exist_ok=True)], opening a path for
    writing, the writes that reach the file while [json.dump] runs (its
    buffer filled up), and writing out the rest of the buffer when the
    file is closed succeed. *)
Record fs : Type := mkFs {
  mkdir_ok : bool;
  open_w_ok : string -> bool;
  write_ok : string -> bool;
  close_ok : string -> bool;
  files : dict file
}.

Record state : Type := mkState {
  tokens : tokenmap;
  disk : fs;
  trace : list event
}.

Definition emit (e : event) : M state unit :=
  modify (fun st => mkState (tokens st) (disk st) (trace st ++ [e])).

Definition set_file (d : fs) (path : string) (f : file) : fs :=
  mkFs (mkdir_ok d) (open_w_ok d) (write_ok d) (close_ok d)
    (dict_set (files d) path f).

(** ** JSON conversion *)

(** [json.dump] converts a Python value to a document and raises
    [TypeError] on [bytes]. *)
Fixpoint to_json (v : pyval) : option json :=
  match v with
  | PNone => Some JNull
  | PBool b => Some (JBool b)
  | PInt z => Some (JNum z)
  | PStr s => Some (JStr s)
  | PBytes _ => None
  | PList l =>
      option_map JArr
        ((fix go (l : list pyval) : option (list json) :=
            match l with
            | [] => Some []
            | x :: t =>
                match to_json x, go t with
                | Some j, Some js => Some (j :: js)
                | _, _ => None
                end
            end) l)
  | PDict d =>
      option_map JObj
        ((fix go (d : list (string * pyval)) : option (list (string * json)) :=
            match d with
            | [] => Some []
            | (k, x) :: t =>
                match to_json x, go t with
                | Some j, Some js => Some ((k, j) :: js)
                | _, _ => None
                end
            end) d)
  end.

(** [json.load] turns a document into Python values. *)
Fixpoint of_json (j : json) : pyval :=
  match j with
  | JNull => PNone
  | JBool b => PBool b
  | JNum z => PInt z
  | JStr s => PStr s
  | JArr l => PList (map of_json l)
  | JObj o => PDict (map (fun kv => (fst kv, of_json (snd kv))) o)
  end.

(** A value [json.dump] accepts: no [bytes] anywhere inside. *)
Fixpoint serializable (v : pyval) : bool :=
  match v with
  | PBytes _ => false
  | PList l => forallb serializable l
  | PDict d => forallb (fun kv => serializable (snd kv)) d
  | _ => true
  end.

(** ** Request cache (lines 390-413) *)

Definition CACHE_DIR : string := "cache".

(** ["{}_cache.json".format(cache_file_key)] *)
Definition cache_filename (cache_file_key : string) : string :=
  cache_file_key ++ "_cache.json".

(** The pieces of a path string between its slashes. *)
Fixpoint split_slash (s : string) : list string :=
  match s with
  | EmptyString => [EmptyString]
  | String c t =>
      if Ascii.eqb c "/"%char then EmptyString :: split_slash t
      else match split_slash t with
           | h :: r => String c h :: r
           | [] => [String c EmptyString]
           end
  end.

(** A path as [pathlib] keeps it on a POSIX system: the root and the
    components. *)
Record posix_path : Type := mkPath {
  path_root : string;
  path_parts : list string
}.

(** The root of a path string: two leading slashes are kept, one slash
    or three and more are the root ["/"]. *)
Definition root_of (s : string) : string :=
  match s with
  | String "/" (String "/" (String "/" _)) => "/"
  | String "/" (String "/" _) => "//"
  | String "/" _ => "/"
  | _ => ""
  end.

(** [Path(s)]: empty components (doubled or trailing slashes) and ["."]
    components are dropped. *)
Definition parse_path (s : string) : posix_path :=
  mkPath (root_of s)
    (filter (fun c => negb (c =? "") && negb (c =? ".")) (split_slash s)).

(** [p / s]: a string with a root replaces [p]. *)
Definition path_join (p : posix_path) (s : string) : posix_path :=
  let q := parse_path s in
  if path_root q =? "" then mkPath (path_root p) (path_parts p ++ path_parts q)
  else q.

(** [str(p)], the name handed to the operating system. *)
Definition path_str (p : posix_path) : string :=
  match path_root p, path_parts p with
  | EmptyString, [] => "."
  | root, parts => root ++ String.concat "/" parts
  end.

(** [Path(CACHE_DIR) / filename] *)
Definition cache_path (cache_file_key : string) : string :=
  path_str (path_join (parse_path CACHE_DIR) (cache_filename cache_file_key)).

(** [path.open()]: a missing file raises. *)
Definition path_open_read (path : string) : M state file :=
  fun st =>
    match dict_get (files (disk st)) path with
    | Some f => (Ok f, st)
    | None => (Raise OSError, st)
    end.

(** [json.load(file)] *)
Definition json_load (f : file) : M state pyval :=
  match f with
  | Doc j => ret (of_json j)
  | Garbled => raise JSONDecodeError
  end.

(** [path.mkdir(exist_ok=True)] *)
Definition path_mkdir : M state unit :=
  fun st => if mkdir_ok (disk st) then (Ok tt, st) else (Raise OSError, st).

(** [path.open("w")]: truncates the file when it succeeds. *)
Definition path_open_write (path : string) : M state unit :=
  fun st =>
    if open_w_ok (disk st) path
    then (Ok tt, mkState (tokens st) (set_file (disk st) path Garbled) (trace st))
    else (Raise OSError, st).

(** [json.dump(cache_data, file)]: the document goes to the file when
    the value converts and the writes made on the way succeed.  The file
    is buffered: an error in writing out what is still in the buffer
    surfaces when the file is closed ([with_open_file]). *)
Definition json_dump (cache_data : pyval) (path : string) : M state unit :=
  match to_json cache_data with
  | None => raise TypeError
  | Some j =>
      fun st =>
        if write_ok (disk st) path
        then (Ok tt, mkState (tokens st) (set_file (disk st) path (Doc j)) (trace st))
        else (Raise OSError, st)
  end.

(** Leaving the block of [with path.open("w") as file], normally or by
    an exception: the file is closed, which writes out what is still
    buffered.  When that fails the document has not reached the file, and
    the error is raised in place of the block's result. *)
Definition with_open_file (path : string) (block : M state unit)
  : M state unit :=
  fun st =>
    let (o, st1) := block st in
    if close_ok (disk st1) path then (o, st1)
    else (Raise OSError,
          mkState (tokens st1) (set_file (disk st1) path Garbled)
            (trace st1)).

Definition load_request_cache (cache_file_key : string) : M state pyval :=
  try_except
    (f <- path_open_read (cache_path cache_file_key) ;;
     cache_data <- json_load f ;;
     emit (Log Debug "Loaded cache data from %s") ;;;
     ret cache_data)
    (fun e =>
       emit (Log Debug "Unable to load cache file %s: %s") ;;;
       ret (PDict [])).

Definition save_request_cache (cache_file_key : string) (cache_data : pyval)
  : M state unit :=
  try_except
    (path_mkdir ;;;
     path_open_write (cache_path cache_file_key) ;;;
     with_open_file (cache_path cache_file_key)
       (json_dump cache_data (cache_path cache_file_key) ;;;
        emit (Log Debug "Wrote cache data to %s")))
    (fun e => emit (Log Warning "Unable to write cache file %s: %s")).

(** [load_request_cache] takes its [except] branch. *)
Definition load_fails (cache_file_key : string) (st : state) : bool :=
  match dict_get (files (disk st)) (cache_path cache_file_key) with
  | Some (Doc _) => false
  | _ => true
  end.

(** [save_request_cache] takes its [except] branch. *)
Definition save_fails (cache_file_key : string) (cache_data : pyval)
  (st : state) : bool :=
  negb (mkdir_ok (disk st)
        && open_w_ok (disk st) (cache_path cache_file_key)
        && write_ok (disk st) (cache_path cache_file_key)
        && close_ok (disk st) (cache_path cache_file_key)
        && serializable cache_data).

(** The save fails when the file is closed and not before. *)
Definition fails_at_close (cache_file_key : string) (cache_data : pyval)
  (st : state) : bool :=
  mkdir_ok (disk st)
  && open_w_ok (disk st) (cache_path cache_file_key)
  && write_ok (disk st) (cache_path cache_file_key)
  && serializable cache_data
  && negb (close_ok (disk st) (cache_path cache_file_key)).



(** ** Remote services *)

(** An HTTP response: its status and what [await resp.json()] gives. *)
Record response : Type := mkResponse {
  status : Z;
  resp_json : outcome pyval
}.

(** Everything outside the program that a run depends on.

    - [get_token_largest_accounts], [get_account_info]: what the two RPC
      calls of the holder lookup return; either may raise.
    - [get_metadata_account]: line 248, [metadata.get_metadata_account]
      (module [utils.metadata] is outside the modelled file), which
      computes the address of the metadata account and makes no request.
    - [unpack_metadata]: lines 249-251, that is what the RPC call
      [sol_client.get_account_info] returns for the metadata account,
      the path into it, the base64 decoding and
      [metadata.unpack_metadata_account], as a function of the metadata
      account.
    - [bytes_decode]: [bytes.decode()], [None] for [UnicodeDecodeError].
    - [session_get url n]: the answer to the [n]-th request (from 0) that
      one fetch makes for [url].
    - [recursion_limit]: how deep the interpreter lets
      [async_http_request] call itself before [RecursionError].
    - [completed_first]: the position, among the pending tasks, of the one
      that [asyncio.as_completed] yields next (taken modulo their number). *)
Record remote : Type := mkRemote {
  get_token_largest_accounts : pyval -> outcome pyval;
  get_account_info : pyval -> outcome pyval;
  unpack_metadata : pyval -> outcome record;
  bytes_decode : string -> option string;
  session_get : string -> nat -> outcome response;
  recursion_limit : nat;
  completed_first : list string -> nat;
  get_metadata_account : pyval -> outcome pyval
}.

(** ** Fetch tasks *)

(** A fetch task works on the record it was given ([data_dict], shared
    with the token map) and leaves log records, sleeps and requests. *)
Record task_state : Type := mkTask {
  data_dict : record;
  events : list event
}.

(** [data_dict[k]] *)
Definition item (k : string) : M task_state pyval :=
  fun ts => (py_item (PDict (data_dict ts)) k, ts).

(** [data_dict[k] = v] *)
Definition setitem (k : string) (v : pyval) : M task_state unit :=
  modify (fun ts => mkTask (dict_set (data_dict ts) k v) (events ts)).

Definition note (e : event) : M task_state unit :=
  modify (fun ts => mkTask (data_dict ts) (events ts ++ [e])).

(** Lines 183-191. *)
Definition get_holder_info_from_solana_async (w : remote)
  : M task_state unit :=
  token <- item "token" ;;
  note (Rpc "get_token_largest_accounts" token) ;;;
  largest_account <- lift (get_token_largest_accounts w token) ;;
  result <- lift (py_item largest_account "result") ;;
  value <- lift (py_item result "value") ;;
  largest <- lift (py_first value) ;;
  address <- lift (py_item largest "address") ;;
  note (Rpc "get_account_info" address) ;;;
  account_info <- lift (get_account_info w address) ;;
  result' <- lift (py_item account_info "result") ;;
  value' <- lift (py_item result' "value") ;;
  data <- lift (py_item value' "data") ;;
  parsed <- lift (py_item data "parsed") ;;
  setitem "holders" parsed.

(** Lines 254-258: [v.decode()] replaces a [bytes] value that decodes;
    [UnicodeDecodeError] and [AttributeError] (no [decode] method) are
    passed over. *)
Definition decode_value (w : remote) (v : pyval) : pyval :=
  match v with
  | PBytes b => match bytes_decode w b with
                | Some s => PStr s
                | None => v
                end
  | _ => v
  end.

(** Lines 246-259. *)
Definition get_account_info_from_solana_async (w : remote)
  : M task_state unit :=
  token <- item "token" ;;
  metadata_account <- lift (get_metadata_account w token) ;;
  note (Rpc "get_account_info" metadata_account) ;;;
  unpacked_data <- lift (unpack_metadata w metadata_account) ;;
  let unpacked_data :=
    map (fun kv => (fst kv, decode_value w (snd kv))) unpacked_data in
  setitem "account" (PDict unpacked_data).

(** Lines 271-284.  [depth] is the number of nested calls still allowed.
    The first step yields [Some body] where the source returns from inside
    the [if], and [None] where control falls through to line 282. *)
Fixpoint async_http_request_from (w : remote) (depth : nat) (url : string)
  (attempt : nat) : M task_state pyval :=
  match depth with
  | 0 => raise RecursionError
  | S depth' =>
      note (HttpGet url) ;;;
      resp <- lift (session_get w url attempt) ;;
      returned <-
        (if negb (status resp =? 200)%Z then
           if (status resp =? 429)%Z then
             note (Log Debug
                     "Got status code %s for url %s, sleeping and retrying") ;;;
             note (Sleep 3) ;;;
             body <- async_http_request_from w depth' url (S attempt) ;;
             ret (Some body)
           else
             note (Log Error
                     "HTTP request for %s failed with status %s: %s") ;;;
             ret None
         else ret None) ;;
      match returned with
      | Some body => ret body
      | None =>
          note (Log Debug "Successful response for url %s") ;;;
          body <- lift (resp_json resp) ;;
          ret body
      end
  end.

(** [session.get(url)] wants a string. *)
Definition async_http_request (w : remote) (url : pyval)
  : M task_state pyval :=
  match url with
  | PStr u => async_http_request_from w (recursion_limit w) u 0
  | _ => raise TypeError
  end.

(** Lines 262-268. *)
Definition get_arweave_metadata (w : remote) : M task_state unit :=
  account <- item "account" ;;
  data <- lift (py_item account "data") ;;
  arweave_uri <- lift (py_get data "uri") ;;
  current <- gets (fun ts => get (data_dict ts) "arweave") ;;
  (if is_none current then setitem "arweave" (PDict []) else ret tt) ;;;
  if truthy arweave_uri then
    body <- async_http_request w arweave_uri ;;
    setitem "arweave" body
  else ret tt.

(** ** Enrichment orchestrators *)

(** The tokens for which a task is created: those whose record answers
    [None] to [.get(field)]. *)
Definition tasks_for (field : string) (token_data : tokenmap) : list string :=
  map fst (filter (fun kr => is_none (get (snd kr) field)) token_data).

(** Running one task to its end on the record of [token]. *)
Definition run_task (task : M task_state unit) (token : string)
  : M state unit :=
  fun st =>
    match dict_get (tokens st) token with
    | None => (Raise KeyError, st)
    | Some r =>
        let (o, ts) := task (mkTask r []) in
        (o, mkState (dict_set (tokens st) token (data_dict ts)) (disk st)
              (trace st ++ events ts))
    end.

Fixpoint remove_nth {A} (i : nat) (l : list A) : list A :=
  match l with
  | [] => []
  | x :: t => match i with 0 => t | S i' => x :: remove_nth i' t end
  end.

(** [[await f for f in tqdm.tqdm(asyncio.as_completed(tasks), ...)]]: the
    tasks are awaited in the order in which they complete, and the first
    exception ends the loop.  What the tasks that have not completed by
    then did to their records is not modelled: the exception ends the run,
    and those records are never saved. *)
Fixpoint await_as_completed (w : remote) (task : M task_state unit)
  (n : nat) (pending : list string) : M state unit :=
  match n with
  | 0 => ret tt
  | S n' =>
      match pending with
      | [] => ret tt
      | first :: _ =>
          let i := completed_first w pending mod List.length pending in
          run_task task (nth i pending first) ;;;
          await_as_completed w task n' (remove_nth i pending)
      end
  end.

(** One [inner] coroutine: create the tasks, await them, save the cache.
    The rate limiter, the client session and the progress bar delay and
    carry the requests without changing their results; they are left out. *)
Definition enrich (w : remote) (field : string) (task : M task_state unit)
  (cache_file_key : string) : M state tokenmap :=
  token_data <- gets tokens ;;
  let tasks := tasks_for field token_data in
  await_as_completed w task (List.length tasks) tasks ;;;
  token_data <- gets tokens ;;
  save_request_cache cache_file_key (py_of_tokenmap token_data) ;;;
  gets tokens.

(** Lines 163-174. *)
Definition populate_holders_inner (w : remote) (cache_file_key : string)
  : M state tokenmap :=
  enrich w "holders" (get_holder_info_from_solana_async w) cache_file_key.

(** Lines 158-180. *)
Definition populate_holders_details_async (w : remote)
  (cache_file_key : string) : M state tokenmap :=
  emit (Log Info "Populating holders details...") ;;;
  result <- populate_holders_inner w cache_file_key ;;
  all_token_data <- gets tokens ;;
  save_request_cache cache_file_key (py_of_tokenmap all_token_data) ;;;
  emit (Log Info "--- %s seconds ---") ;;;
  ret result.

(** Lines 195-211. *)
Definition populate_account_inner (w : remote) (cache_file_key : string)
  : M state tokenmap :=
  enrich w "account" (get_account_info_from_solana_async w) cache_file_key.

(** Lines 213-230. *)
Definition populate_account_inner2 (w : remote) (cache_file_key : string)
  : M state tokenmap :=
  enrich w "arweave" (get_arweave_metadata w) cache_file_key.

(** Lines 194-243. *)
Definition populate_account_details_async (w : remote)
  (cache_file_key : string) : M state tokenmap :=
  emit (Log Info "Populating account details...") ;;;
  populate_account_inner w cache_file_key ;;;
  emit (Log Info "--- %s seconds ---") ;;;
  emit (Log Info "Populating token metadata details...") ;;;
  result <- populate_account_inner2 w cache_file_key ;;
  all_token_data <- gets tokens ;;
  save_request_cache cache_file_key (py_of_tokenmap all_token_data) ;;;
  emit (Log Info "--- %s seconds ---") ;;;
  ret result.

(** The record a task leaves, and whether it raises, when started on [r]. *)
Definition after_task (task : M task_state unit) (r : record) : record :=
  data_dict (snd (task (mkTask r []))).

Definition task_outcome (task : M task_state unit) (r : record)
  : outcome unit :=
  fst (task (mkTask r [])).

(** A record for which the phase of [field] creates a task. *)
Definition selected (field : string) (m : tokenmap) (t : string)
  (r : record) : Prop :=
  dict_get m t = Some r /\ get r field = PNone.


(** Every record has a value other than [None] under [field]. *)
Definition populated (field : string) (m : tokenmap) : bool :=
  forallb (fun kr => negb (is_none (get (snd kr) field))) m.

(** The selection rule "a task is created exactly for the records that
    lack the field". *)
Definition selects_absent_only (field : string) (m : tokenmap) : Prop :=
  forall t r, In (t, r) m ->
    (In t (tasks_for field m) <-> dict_get r field = None).

(** What [n] rate-limited attempts on [url] leave in the log: each one is
    a request, a debug record and a sleep of three seconds. *)
Fixpoint retry_events (url : string) (n : nat) : list event :=
  match n with
  | 0 => []
  | S n' =>
      [HttpGet url;
       Log Debug "Got status code %s for url %s, sleeping and retrying";
       Sleep 3] ++ retry_events url n'
  end.

Definition is_sleep (e : event) : bool :=
  match e with Sleep _ => true | _ => false end.

Definition is_request (e : event) : bool :=
  match e with HttpGet _ => true | _ => false end.

(** [data_dict['account']['data']] is a dictionary whose ['uri'] is the
    string [url]. *)
Definition has_uri (r : record) (url : string) : Prop :=
  exists account data,
    dict_get r "account" = Some (PDict account) /\
    dict_get account "data" = Some (PDict data) /\
    dict_get data "uri" = Some (PStr url).

(** A record whose on-chain metadata points to [uri]. *)
Definition record_with_uri (token : string) (uri : pyval) : record :=
  [("token", PStr token);
   ("account", PDict [("data", PDict [("name", PStr "Token #1");
                                      ("uri", uri)])])].

(** ** Dictionaries keyed by Python values *)

(** What a value is as a dictionary key.  [True] and [1] are the same key,
    as are [False] and [0]; lists and dictionaries are not hashable. *)
Inductive key : Type :=
| KNone : key
| KInt : Z -> key
| KStr : string -> key
| KBytes : string -> key
| KUnhashable : key.

Definition key_of (v : pyval) : key :=
  match v with
  | PNone => KNone
  | PBool b => KInt (if b then 1 else 0)
  | PInt z => KInt z
  | PStr s => KStr s
  | PBytes s => KBytes s
  | PList _ | PDict _ => KUnhashable
  end.

Definition hashable (v : pyval) : bool :=
  match key_of v with KUnhashable => false | _ => true end.

Definition key_beq (a b : key) : bool :=
  match a, b with
  | KNone, KNone => true
  | KInt x, KInt y => (x =? y)%Z
  | KStr x, KStr y => (x =? y)%string
  | KBytes x, KBytes y => (x =? y)%string
  | KUnhashable, KUnhashable => true
  | _, _ => false
  end.

(** Two values that are the same dictionary key. *)
Definition key_eqb (a b : pyval) : bool := key_beq (key_of a) (key_of b).

Definition kdict (V : Type) : Type := list (pyval * V).

Fixpoint kd_get {V} (d : kdict V) (k : pyval) : option V :=
  match d with
  | [] => None
  | (k', v) :: t => if key_eqb k' k then Some v else kd_get t k
  end.

Fixpoint kd_set {V} (d : kdict V) (k : pyval) (v : V) : kdict V :=
  match d with
  | [] => [(k, v)]
  | (k', v') :: t =>
      if key_eqb k' k then (k', v) :: t else (k', v') :: kd_set t k v
  end.

(** [for x in l: body x] *)
Fixpoint for_each {S A} (l : list A) (body : A -> M S unit) : M S unit :=
  match l with
  | [] => ret tt
  | x :: t => body x ;;; for_each t body
  end.

(** ** Holder counts (lines 287-299) *)

(** [not counts.get(k)] on a dictionary of numbers: the key is missing or
    its count is zero. *)
Definition no_count (found : option Z) : bool :=
  match found with
  | None => true
  | Some n => (n =? 0)%Z
  end.

(** [if not d.get(k): d[k] = 0] followed by [d[k] += 1]; an unhashable
    key raises [TypeError]. *)
Definition increment (d : kdict Z) (k : pyval) : outcome (kdict Z) :=
  if hashable k then
    let d := if no_count (kd_get d k) then kd_set d k 0%Z else d in
    match kd_get d k with
    | Some n => Ok (kd_set d k (n + 1)%Z)
    | None => Raise KeyError
    end
  else Raise TypeError.

(** Line 293 (and 333): the owner, or the sentinel when the owner is
    missing or falsy. *)
Definition holder_address_of (data_dict : record) : outcome pyval :=
  match py_item (PDict data_dict) "holders" with
  | Raise e => Raise e
  | Ok token_holders =>
      match py_get token_holders "info" with
      | Raise e => Raise e
      | Ok info =>
          match py_get info "owner" with
          | Raise e => Raise e
          | Ok owner => Ok (py_or owner (PStr "UNKNOWN_ADDRESS"))
          end
      end
  end.

(** The body of the loop; the state is [counts]. *)
Definition holder_counts_step (data_dict : record) : M (kdict Z) unit :=
  holder_address <- lift (holder_address_of data_dict) ;;
  fun counts =>
    match increment counts holder_address with
    | Ok counts' => (Ok tt, counts')
    | Raise e => (Raise e, counts)
    end.

(** Lines 288-297 of [holder_counts]: the loop, and the [counts]
    dictionary it builds.  The function then hands it, with
    [len(all_token_data)], to [print_biggest_holders] (line 299). *)
Definition count_holders (all_token_data : tokenmap)
  : outcome (kdict Z) :=
  match for_each (map snd all_token_data) holder_counts_step [] with
  | (Ok _, counts) => Ok counts
  | (Raise e, _) => Raise e
  end.

(** The count recorded for an address, zero when there is none. *)
Definition count_of (d : kdict Z) (k : pyval) : Z :=
  match kd_get d k with Some n => n | None => 0%Z end.

Definition sum_values (d : kdict Z) : Z :=
  fold_right Z.add 0%Z (map snd d).

(** A record whose [holders] field holds an [info] dictionary; the owner
    in it, if any, is hashable. *)
Definition has_owner_info (r : record) : bool :=
  match dict_get r "holders" with
  | Some (PDict h) =>
      match dict_get h "info" with
      | Some (PDict info) => hashable (get info "owner")
      | _ => false
      end
  | _ => false
  end.

(** The address such a record is counted under. *)
Definition resolved_address (r : record) : pyval :=
  match dict_get r "holders" with
  | Some (PDict h) =>
      match dict_get h "info" with
      | Some (PDict info) => py_or (get info "owner") (PStr "UNKNOWN_ADDRESS")
      | _ => PNone
      end
  | _ => PNone
  end.

(** How many elements of [l] satisfy [p]. *)
Definition count_if {A} (p : A -> bool) (l : list A) : Z :=
  Z.of_nat (List.length (filter p l)).

(** ** Trait distribution (lines 302-322) *)

(** [for x in v]: what the loop variable takes; numbers, booleans and
    [None] are not iterable. *)
Definition py_iter (v : pyval) : outcome (list pyval) :=
  match v with
  | PList l => Ok l
  | PStr s => Ok (map (fun c => PStr (String c "")) (list_ascii_of_string s))
  | PBytes s =>
      Ok (map (fun c => PInt (Z.of_nat (nat_of_ascii c)))
            (list_ascii_of_string s))
  | PDict d => Ok (map (fun kv => PStr (fst kv)) d)
  | _ => Raise TypeError
  end.

(** The local variables of [attribute_distribution], and its log. *)
Record trait_state : Type := mkTraits {
  tokens_with_attributes_total : Z;
  attribute_counts : kdict (kdict Z);
  trait_log : list event
}.

(** [if not attribute_counts.get(trait_type): attribute_counts[trait_type] = {}] *)
Definition ensure_trait (ac : kdict (kdict Z)) (trait_type : pyval)
  : kdict (kdict Z) :=
  match kd_get ac trait_type with
  | None | Some [] => kd_set ac trait_type []
  | Some _ => ac
  end.

(** Lines 312-318, for one attribute. *)
Definition count_attribute (attribute : pyval) : M trait_state unit :=
  trait_type <- lift (py_item attribute "trait_type") ;;
  raw <- lift (py_item attribute "value") ;;
  let value := if is_none raw then PStr "" else raw in
  fun st =>
    if hashable trait_type then
      let ac := ensure_trait (attribute_counts st) trait_type in
      match kd_get ac trait_type with
      | None => (Raise KeyError, st)
      | Some inner =>
          match increment inner value with
          | Ok inner' =>
              (Ok tt,
               mkTraits (tokens_with_attributes_total st)
                 (kd_set ac trait_type inner') (trait_log st))
          | Raise e =>
              (Raise e,
               mkTraits (tokens_with_attributes_total st) ac (trait_log st))
          end
      end
    else (Raise TypeError, st).

(** Lines 307-320, for one record. *)
Definition attribute_distribution_step (item : string * record)
  : M trait_state unit :=
  arweave_data <- lift (py_item (PDict (snd item)) "arweave") ;;
  attributes <- lift (py_get arweave_data "attributes") ;;
  if truthy attributes then
    modify (fun st =>
              mkTraits (tokens_with_attributes_total st + 1)%Z
                (attribute_counts st) (trait_log st)) ;;;
    elements <- lift (py_iter attributes) ;;
    for_each elements count_attribute
  else
    modify (fun st =>
              mkTraits (tokens_with_attributes_total st) (attribute_counts st)
                (trait_log st ++ [Log Info "Token %s has no attributes"])).

(** Lines 303-320 of [attribute_distribution]: the loop, and what it
    builds, the number of tokens with attributes and the nested counters.
    The function then hands them to [print_trait_frequency] (line 322). *)
Definition count_attributes (all_token_data : tokenmap)
  : outcome (Z * kdict (kdict Z)) :=
  match for_each all_token_data attribute_distribution_step
          (mkTraits 0 [] []) with
  | (Ok _, st) => Ok (tokens_with_attributes_total st, attribute_counts st)
  | (Raise e, _) => Raise e
  end.

(** The value counters of a trait type, empty when there are none. *)
Definition values_of (ac : kdict (kdict Z)) (trait_type : pyval) : kdict Z :=
  match kd_get ac trait_type with Some d => d | None => [] end.

(** The attribute list of a record, empty when it has none. *)
Definition attributes_of (r : record) : list pyval :=
  match dict_get r "arweave" with
  | Some (PDict a) =>
      match get a "attributes" with PList l => l | _ => [] end
  | _ => []
  end.

Definition has_attributes (r : record) : bool :=
  match attributes_of r with [] => false | _ => true end.

Definition trait_of (attribute : pyval) : pyval :=
  match attribute with PDict d => get d "trait_type" | _ => PNone end.

(** [attribute['value']] as it is stored. *)
Definition raw_value_of (attribute : pyval) : pyval :=
  match attribute with PDict d => get d "value" | _ => PNone end.

(** The value an attribute is counted under: the empty string for [None]. *)
Definition value_of (attribute : pyval) : pyval :=
  match attribute with
  | PDict d => if is_none (get d "value") then PStr "" else get d "value"
  | _ => PNone
  end.

(** An attribute with a hashable trait type and a hashable value. *)
Definition wf_attribute (attribute : pyval) : bool :=
  match attribute with
  | PDict d =>
      match dict_get d "trait_type", dict_get d "value" with
      | Some t, Some v => hashable t && hashable v
      | _, _ => false
      end
  | _ => false
  end.

(** A record whose [arweave] field is a dictionary with no attributes, or
    with a list of well-formed ones. *)
Definition wf_metadata (r : record) : bool :=
  match dict_get r "arweave" with
  | Some (PDict a) =>
      match get a "attributes" with
      | PList l => forallb wf_attribute l
      | v => negb (truthy v)
      end
  | _ => false
  end.

(** All attributes of all tokens. *)
Definition all_attributes (m : tokenmap) : list pyval :=
  flat_map (fun item => attributes_of (snd item)) m.

(** No two attributes in the list have the same trait type. *)
Fixpoint distinct_traits (l : list pyval) : bool :=
  match l with
  | [] => true
  | a :: t =>
      negb (existsb (fun b => key_eqb (trait_of a) (trait_of b)) t)
      && distinct_traits t
  end.

(** The number of tokens that have an attribute of the trait type, and
    the number of those whose value for it is not [None]. *)
Definition tokens_with_trait (trait_type : pyval) (m : tokenmap) : Z :=
  count_if
    (fun r => existsb (fun a => key_eqb (trait_of a) trait_type)
                (attributes_of r))
    (map snd m).

Definition tokens_with_value (trait_type : pyval) (m : tokenmap) : Z :=
  count_if
    (fun r => existsb
                (fun a => key_eqb (trait_of a) trait_type
                          && negb (is_none (raw_value_of a)))
                (attributes_of r))
    (map snd m).

(** The counters [ac'] are the counters [ac] advanced by the attributes
    in [l]: per trait type the value counts grow, in total, by the number
    of attributes of that type, and each value count by the number of
    attributes of that type with that value. *)
Definition counted (ac ac' : kdict (kdict Z)) (l : list pyval) : Prop :=
  (forall t,
     sum_values (values_of ac' t) =
       (sum_values (values_of ac t)
        + count_if (fun a => key_eqb (trait_of a) t) l)%Z) /\
  (forall t v,
     count_of (values_of ac' t) v =
       (count_of (values_of ac t) v
        + count_if (fun a => key_eqb (trait_of a) t
                             && key_eqb (value_of a) v) l)%Z).

(** ** Reports (lines 416-442) *)

Definition MARKETPLACE_WALLETS : dict string :=
  [("GUfCR9mK6azb9vcpsxgXyj7XRPAKJd4KMHTTVvtncGgp", "MagicEden");
   ("3D49QorJyNaL4rcpiynbuS3pRH4Y7EXEM6v6ZGaqfFGK", "Solanart");
   ("4pUQS4Jo2dsfWzt3VgHXy3H6RYnEDd11oWPiaM2rdAPw", "AlphaArt");
   ("F4ghBzHFNgJxV4wEQDchU5i7n4XWWMBSaq7CuswGiVsr", "DigitalEyes")].

(** [(v, k) < (v', k')] on tuples of a number and a string. *)
Definition tuple_ltb (a b : Z * string) : bool :=
  (fst a <? fst b)%Z || ((fst a =? fst b)%Z && String.ltb (snd a) (snd b)).

(** A stable sort: an element goes in front of the first one that is not
    smaller than it. *)
Fixpoint insert_sorted (x : Z * string) (l : list (Z * string))
  : list (Z * string) :=
  match l with
  | [] => [x]
  | y :: t => if tuple_ltb y x then y :: insert_sorted x t else x :: y :: t
  end.

Definition sort_ascending (l : list (Z * string)) : list (Z * string) :=
  fold_right insert_sorted [] l.

(** [sorted(l, reverse=reverse)]: with [reverse] the list is reversed,
    sorted and reversed again. *)
Definition sorted (l : list (Z * string)) (reverse : bool)
  : list (Z * string) :=
  if reverse then rev (sort_ascending (rev l)) else sort_ascending l.

(** [dict(l)] for a list of pairs. *)
Definition dict_of_pairs {V} (l : list (string * V)) : dict V :=
  fold_left (fun d kv => dict_set d (fst kv) (snd kv)) l [].

Definition sort_dict_by_values (dictionary : dict Z) (reverse : bool)
  : dict Z :=
  let holder_list :=
    sorted (map (fun kv => (snd kv, fst kv)) dictionary) reverse in
  dict_of_pairs (map (fun vk => (snd vk, fst vk)) holder_list).

(** [str(n)] and ["{}".format(n)] for an integer. *)
Definition str_of_int (z : Z) : string :=
  NilZero.string_of_int (Z.to_int z).

Definition newline : string := String (ascii_of_nat 10) "".

(** Lines 424-425: one line of the holder report. *)
Definition holder_line (entry : string * Z) : string :=
  let marketplace_suffix :=
    match dict_get MARKETPLACE_WALLETS (fst entry) with
    | Some name => (" (" ++ name ++ ")")%string
    | None => ""
    end in
  (fst entry ++ ": " ++ str_of_int (snd entry) ++ marketplace_suffix)%string.

(** What [print_biggest_holders] prints, one string per [print]. *)
Definition print_biggest_holders (tokens_total : Z) (counts : dict Z)
  : list string :=
  let counts := sort_dict_by_values counts true in
  [newline;
   ("Total tokens: " ++ str_of_int tokens_total)%string;
   (newline ++ "Biggest holders:" ++ newline ++ "----------")%string]
  ++ map holder_line counts.

(** An entry that comes before another in descending order: a larger
    count, or the same count and a larger address. *)
Definition outranks (a b : string * Z) : Prop :=
  (snd b < snd a)%Z \/
  (snd a = snd b /\ String.ltb (fst b) (fst a) = true).

(** ** CSV snapshot (lines 325-344) *)

(** [s.find(c)] for a one-character [c]: the position of its first
    occurrence, or -1. *)
Fixpoint str_find (s : string) (c : ascii) : Z :=
  match s with
  | EmptyString => (-1)%Z
  | String a t =>
      if Ascii.eqb a c then 0%Z
      else match str_find t c with
           | Zneg _ => (-1)%Z
           | i => (i + 1)%Z
           end
  end.

Fixpoint str_drop (n : nat) (s : string) : string :=
  match n, s with
  | S n', String _ t => str_drop n' t
  | _, _ => s
  end.

(** [s[start::]]: a negative start counts from the end, and the start is
    clipped to the string. *)
Definition slice_from (s : string) (start : Z) : string :=
  let n := Z.of_nat (String.length s) in
  let k := if (start <? 0)%Z then Z.max 0 (n + start) else Z.min start n in
  str_drop (Z.to_nat k) s.

(** Line 336: [token_name[token_name.find('#') + 1::]] *)
Definition csv_number (token_name : string) : string :=
  slice_from token_name (str_find token_name "#"%char + 1).

(** Lines 329-341, for one record; the state is [token_csv_data]. *)
Definition holder_snapshot_step (item : string * record)
  : M (list (list pyval)) unit :=
  let token := fst item in
  let data_dict := snd item in
  token_holders <- lift (py_item (PDict data_dict) "holders") ;;
  account_data <- lift (py_item (PDict data_dict) "account") ;;
  info <- lift (py_get token_holders "info") ;;
  owner <- lift (py_get info "owner") ;;
  let holder_address := py_or owner (PStr "UNKNOWN_ADDRESS") in
  data <- lift (py_get account_data "data") ;;
  token_name <- lift (py_get data "name") ;;
  number <- lift (match token_name with
                  | PStr s => Ok (PStr (csv_number s))
                  | PBytes _ => Raise TypeError
                  | _ => Raise AttributeError
                  end) ;;
  info' <- lift (py_get token_holders "info") ;;
  token_amount <- lift (py_get info' "tokenAmount") ;;
  amount <- lift (py_get token_amount "amount") ;;
  modify (fun token_csv_data =>
            token_csv_data
            ++ [[number; token_name; PStr token; holder_address; amount]]).

(** The rows that [holder_snapshot] hands to [pd.DataFrame] under the
    columns Number, TokenName, Token, HolderAddress, TotalHeld. *)
Definition holder_snapshot (all_token_data : tokenmap)
  : outcome (list (list pyval)) :=
  match for_each all_token_data holder_snapshot_step [] with
  | (Ok _, token_csv_data) => Ok token_csv_data
  | (Raise e, _) => Raise e
  end.

(** The token name of a record, when its metadata has one. *)
Definition token_name_of (r : record) : option string :=
  match dict_get r "account" with
  | Some (PDict account) =>
      match dict_get account "data" with
      | Some (PDict data) =>
          match dict_get data "name" with
          | Some (PStr name) => Some name
          | _ => None
          end
      | _ => None
      end
  | _ => None
  end.

(** A record from which a snapshot row can be built: holder data with
    [info] and [tokenAmount] dictionaries, and metadata with a name. *)
Definition wf_snapshot (r : record) : bool :=
  match dict_get r "holders", token_name_of r with
  | Some (PDict h), Some _ =>
      match dict_get h "info" with
      | Some (PDict info) =>
          match dict_get info "tokenAmount" with
          | Some (PDict _) => true
          | _ => false
          end
      | _ => false
      end
  | _, _ => false
  end.

(** A row whose first three columns are the number taken from the name,
    the name and the token. *)
Definition row_of (item : string * record) (row : list pyval) : Prop :=
  exists name holder_address amount,
    token_name_of (snd item) = Some name /\
    row = [PStr (csv_number name); PStr name; PStr (fst item);
           holder_address; amount].

(** * Further definitions *)

(** ** Holder lookup *)

(** Lines 185-190 without the assignment: the two RPC calls and the path
    into their replies, as a function of [data_dict['token']]. *)
Definition holder_lookup (w : remote) (token : pyval) : outcome pyval :=
  match get_token_largest_accounts w token with
  | Raise e => Raise e
  | Ok largest_account =>
      match py_item largest_account "result" with
      | Raise e => Raise e
      | Ok result =>
          match py_item result "value" with
          | Raise e => Raise e
          | Ok value =>
              match py_first value with
              | Raise e => Raise e
              | Ok largest =>
                  match py_item largest "address" with
                  | Raise e => Raise e
                  | Ok address =>
                      match get_account_info w address with
                      | Raise e => Raise e
                      | Ok account_info =>
                          match py_item account_info "result" with
                          | Raise e => Raise e
                          | Ok result' =>
                              match py_item result' "value" with
                              | Raise e => Raise e
                              | Ok value' =>
                                  match py_item value' "data" with
                                  | Raise e => Raise e
                                  | Ok data => py_item data "parsed"
                                  end
                              end
                          end
                      end
                  end
              end
          end
      end
  end.

(** Lines 185-187: the address handed to the second call. *)
Definition largest_account_address (w : remote) (token : pyval)
  : outcome pyval :=
  match get_token_largest_accounts w token with
  | Raise e => Raise e
  | Ok largest_account =>
      match py_item largest_account "result" with
      | Raise e => Raise e
      | Ok result =>
          match py_item result "value" with
          | Raise e => Raise e
          | Ok value =>
              match py_first value with
              | Raise e => Raise e
              | Ok largest => py_item largest "address"
              end
          end
      end
  end.

(** The calls of the RPC client that the holder task makes for a token:
    the second one is made when the first reply holds an address. *)
Definition holder_calls (w : remote) (token : pyval) : list event :=
  Rpc "get_token_largest_accounts" token ::
  match largest_account_address w token with
  | Ok address => [Rpc "get_account_info" address]
  | Raise _ => []
  end.

(** The call that the account task makes for a token, when the address of
    its metadata account can be computed. *)
Definition account_calls (w : remote) (token : pyval) : list event :=
  match get_metadata_account w token with
  | Ok metadata_account => [Rpc "get_account_info" metadata_account]
  | Raise _ => []
  end.

(** Lines 248-251 as a function of [data_dict['token']]. *)
Definition metadata_lookup (w : remote) (token : pyval) : outcome record :=
  match get_metadata_account w token with
  | Ok metadata_account => unpack_metadata w metadata_account
  | Raise e => Raise e
  end.

Definition is_rpc (e : event) : bool :=
  match e with Rpc _ _ => true | _ => false end.

(** [data_dict['account']["data"].get("uri")], when the path exists. *)
Definition uri_of (r : record) : outcome pyval :=
  match py_item (PDict r) "account" with
  | Raise e => Raise e
  | Ok account =>
      match py_item account "data" with
      | Raise e => Raise e
      | Ok data => py_get data "uri"
      end
  end.

(** The record with ['arweave'] set to the empty object if it answered
    [None] to [.get('arweave')] (lines 264-265). *)
Definition with_default_arweave (r : record) : record :=
  if is_none (get r "arweave") then dict_set r "arweave" (PDict []) else r.

(** ** Completion order and holder service *)

(** A string. *)
Definition is_text (v : pyval) : bool :=
  match v with PStr _ => true | _ => false end.


(** The same services with another completion order of the tasks. *)
Definition reschedule (w : remote) (pick : list string -> nat) : remote :=
  mkRemote (get_token_largest_accounts w) (get_account_info w)
    (unpack_metadata w) (bytes_decode w) (session_get w)
    (recursion_limit w) pick (get_metadata_account w).

(** A holder service whose replies have the expected shape for every
    token: a largest account, and parsed account data with an [info]
    dictionary whose owner is a string, or is missing or a falsy
    scalar. *)
Definition holder_service_ok (w : remote) : Prop :=
  forall token, exists h info,
    holder_lookup w token = Ok (PDict h) /\
    dict_get h "info" = Some (PDict info) /\
    hashable (get info "owner") = true /\
    is_text (py_or (get info "owner") (PStr "UNKNOWN_ADDRESS")) = true.

(** A record as [main] seeds it: a token and no holder data yet. *)
Definition awaits_holders (r : record) : bool :=
  match dict_get r "token", dict_get r "holders" with
  | Some _, None => true
  | _, _ => false
  end.

(** ** Seeding the token map *)

(** Lines 85-87 of [main], the loop that adds the tokens of the token
    list to the map loaded from the cache:
    [if token not in all_token_data: all_token_data[token] = {"token": token}]. *)
Definition seed_token_data (all_token_data : tokenmap)
  (token_list : list string) : tokenmap :=
  fold_left
    (fun all_token_data token =>
       match dict_get all_token_data token with
       | Some _ => all_token_data
       | None => dict_set all_token_data token [("token", PStr token)]
       end)
    token_list all_token_data.

(** ** Counters *)

(** No two entries of the dictionary have the same key. *)
Fixpoint distinct_keys {V} (d : kdict V) : Prop :=
  match d with
  | [] => True
  | (k, _) :: t => kd_get t k = None /\ distinct_keys t
  end.

(** The counters of a trait state, without the log. *)
Definition counters (st : trait_state) : Z * kdict (kdict Z) :=
  (tokens_with_attributes_total st, attribute_counts st).

(** A record whose metadata is a dictionary without attributes: the key
    is missing, or its value is empty or otherwise falsy. *)
Definition no_attributes (r : record) : bool :=
  match dict_get r "arweave" with
  | Some (PDict a) => negb (truthy (get a "attributes"))
  | _ => false
  end.

(** [token_holders.get('info').get('tokenAmount').get('amount')], when
    the path exists. *)
Definition amount_of (r : record) : pyval :=
  match dict_get r "holders" with
  | Some (PDict h) =>
      match dict_get h "info" with
      | Some (PDict info) =>
          match dict_get info "tokenAmount" with
          | Some (PDict ta) => get ta "amount"
          | _ => PNone
          end
      | _ => PNone
      end
  | _ => PNone
  end.

(** ** Signature lookup (lines 350-384) *)

(** Python's [==] on the modelled values: [True] equals [1] and [False]
    equals [0], lists are compared element by element, and dictionaries
    (association lists with distinct keys) whatever the order of their
    keys. *)
Fixpoint py_eqb (a b : pyval) : bool :=
  match a, b with
  | PNone, PNone => true
  | PBool x, PBool y => Bool.eqb x y
  | PBool x, PInt y => ((if x then 1 else 0) =? y)%Z
  | PInt x, PBool y => (x =? (if y then 1 else 0))%Z
  | PInt x, PInt y => (x =? y)%Z
  | PStr x, PStr y => (x =? y)%string
  | PBytes x, PBytes y => (x =? y)%string
  | PList l, PList l' =>
      (fix go (l l' : list pyval) : bool :=
         match l, l' with
         | [], [] => true
         | x :: t, y :: t' => py_eqb x y && go t t'
         | _, _ => false
         end) l l'
  | PDict d, PDict d' =>
      (List.length d =? List.length d')%nat
      && (fix go (d : list (string * pyval)) : bool :=
            match d with
            | [] => true
            | (k, v) :: t =>
                match dict_get d' k with
                | Some v' => py_eqb v v'
                | None => false
                end && go t
            end) d
  | _, _ => false
  end.

(** [x in l] *)
Definition py_in (x : pyval) (l : list pyval) : bool :=
  existsb (fun y => py_eqb y x) l.

(** What the lookup leaves behind: the events of the other functions, and
    the record of [logger.warning(e)], whose message is the exception. *)
Inductive sig_event : Type :=
| Plain : event -> sig_event
| WarningOf : exn -> sig_event.

(** What the lookup depends on: the lines of the text files
    ([open(name).read().splitlines()]; a missing file raises) and the
    answer of [requests.get] to the [n]-th request of the run (from 0),
    with its [status_code] and what [response.json()] gives. *)
Record solscan : Type := mkSolscan {
  sig_files : dict (list string);
  requests_get : nat -> string -> outcome response
}.

(** The local variables of [get_token_list_from_signatures], the number of
    requests made so far, and the events. *)
Record sig_state : Type := mkSig {
  token_list : list pyval;
  transaction_data : pyval;
  sent : nat;
  sig_trace : list sig_event
}.

Definition sig_note (e : sig_event) : M sig_state unit :=
  modify (fun st =>
            mkSig (token_list st) (transaction_data st) (sent st)
              (sig_trace st ++ [e])).

(** [requests.get(url)] *)
Definition requests_get_now (w : solscan) (url : string)
  : M sig_state response :=
  fun st =>
    (requests_get w (sent st) url,
     mkSig (token_list st) (transaction_data st) (S (sent st))
       (sig_trace st ++ [Plain (HttpGet url)])).

(** A computation that may also run forever: [None] when the loop
    iterations allowed by the fuel do not suffice. *)
Definition L (S A : Type) : Type := S -> option (outcome A * S).

Definition finished {S A} (c : M S A) : L S A := fun s => Some (c s).

Definition lbind {S A B} (c : L S A) (k : A -> L S B) : L S B :=
  fun s =>
    match c s with
    | None => None
    | Some (Ok a, s') => k a s'
    | Some (Raise e, s') => Some (Raise e, s')
    end.

(** [try: c  except Exception as e: h e] *)
Definition ltry {S A} (c : L S A) (h : exn -> L S A) : L S A :=
  fun s =>
    match c s with
    | None => None
    | Some (Ok a, s') => Some (Ok a, s')
    | Some (Raise e, s') => h e s'
    end.

(** [for x in l: body x] *)
Fixpoint lfor_each {S A} (l : list A) (body : A -> L S unit) : L S unit :=
  match l with
  | [] => finished (ret tt)
  | x :: t => lbind (body x) (fun _ => lfor_each t body)
  end.

Declare Scope loop_scope.
Delimit Scope loop_scope with loop.
Notation "x <- c ;; k" := (lbind c (fun x => k))
  (at level 100, c at next level, right associativity) : loop_scope.
Notation "c ;;; k" := (lbind c (fun _ => k))
  (at level 100, right associativity) : loop_scope.

(** Lines 380-383: [while 429 == response.status_code]. *)
Fixpoint while_429 (w : solscan) (fuel : nat) (url : string)
  (resp : response) : L sig_state response :=
  if (429 =? status resp)%Z then
    match fuel with
    | 0 => fun _ => None
    | S fuel' =>
        (finished
           (sig_note (Plain (Log Debug
                               "Too many requests, sleeping then retrying"))) ;;;
         finished (sig_note (Plain (Sleep 5))) ;;;
         resp <- finished (requests_get_now w url) ;;
         while_429 w fuel' url resp)%loop
    end
  else finished (ret resp).

(** Lines 374-384. *)
Definition make_solscan_request (w : solscan) (fuel : nat)
  (endpoint : string) : L sig_state pyval :=
  let url := ("https://public-api.solscan.io/" ++ endpoint)%string in
  (resp <- finished (requests_get_now w url) ;;
   resp <-
     (if (429 =? status resp)%Z
      then while_429 w fuel url resp
      else finished (ret resp)) ;;
   finished (lift (resp_json resp)))%loop.

(** Line 360:
    [transaction_data.get('tokenBalances')[0].get('token').get('tokenAddress')]. *)
Definition token_address_of (transaction_data : pyval) : outcome pyval :=
  match py_get transaction_data "tokenBalances" with
  | Raise e => Raise e
  | Ok balances =>
      match py_first balances with
      | Raise e => Raise e
      | Ok balance =>
          match py_get balance "token" with
          | Raise e => Raise e
          | Ok token => py_get token "tokenAddress"
          end
      end
  end.

(** Lines 363-364. *)
Definition add_token (token_address : pyval) : M sig_state unit :=
  modify (fun st =>
            if negb (py_in token_address (token_list st))
            then mkSig (token_list st ++ [token_address])
                   (transaction_data st) (sent st) (sig_trace st)
            else st).

(** Lines 358-364, the body of the [try]. *)
Definition signature_body (w : solscan) (fuel : nat) (signature : string)
  : L sig_state unit :=
  (finished (sig_note (Plain (Log Debug "Signature: %s"))) ;;;
   data <- make_solscan_request w fuel ("transaction/" ++ signature)%string ;;
   finished
     (modify (fun st =>
                mkSig (token_list st) data (sent st) (sig_trace st)) ;;;
      token_address <- lift (token_address_of data) ;;
      sig_note (Plain (Log Debug "Token: %s")) ;;;
      add_token token_address)%py)%loop.

(** Lines 366-370, the handler; [transaction_data] is whatever the last
    request that returned left in it. *)
Definition signature_handler (e : exn) : M sig_state unit :=
  (transaction_data <- gets transaction_data ;;
   no_token <-
     (if truthy transaction_data then
        balances <- lift (py_get transaction_data "tokenBalances") ;;
        ret (negb (truthy balances))
      else ret false) ;;
   if no_token
   then sig_note (Plain (Log Warning "No Token in Transaction: %s"))
   else sig_note (WarningOf e))%py.

(** Lines 356-370, for one signature. *)
Definition signature_step (w : solscan) (fuel : nat) (signature : string)
  : L sig_state unit :=
  ltry (signature_body w fuel signature)
    (fun e => finished (signature_handler e)).

(** Lines 350-371.  The progress bar is left out. *)
Definition get_token_list_from_signatures (w : solscan) (fuel : nat)
  (sig_file_name : string) : L sig_state (list pyval) :=
  (signature_list <-
     finished (lift (match dict_get (sig_files w) sig_file_name with
                     | Some lines => Ok lines
                     | None => Raise OSError
                     end)) ;;
   finished
     (modify (fun st => mkSig [] PNone (sent st) (sig_trace st))) ;;;
   lfor_each signature_list (signature_step w fuel) ;;;
   finished (gets token_list))%loop.

(** The state in which a run starts. *)
Definition sig_start : sig_state := mkSig [] PNone 0 [].

(** The URL requested for a signature. *)
Definition transaction_url (signature : string) : string :=
  ("https://public-api.solscan.io/" ++ ("transaction/" ++ signature))%string.

(** What [n] rate-limited answers to [url] leave in the trace. *)
Fixpoint busy_events (url : string) (n : nat) : list sig_event :=
  match n with
  | 0 => []
  | S n' =>
      [Plain (HttpGet url);
       Plain (Log Debug "Too many requests, sleeping then retrying");
       Plain (Sleep 5)] ++ busy_events url n'
  end.

(** A body the lookup can handle: a JSON object, or a falsy value. *)
Definition object_or_falsy (v : pyval) : bool :=
  match v with
  | PDict _ => true
  | _ => negb (truthy v)
  end.

(** The token address in the answer to the [i]-th request, made for
    [signature], when no answer is rate limited. *)
Definition reply_address (w : solscan) (i : nat) (signature : string)
  : outcome pyval :=
  match requests_get w i (transaction_url signature) with
  | Raise e => Raise e
  | Ok resp =>
      match resp_json resp with
      | Raise e => Raise e
      | Ok data => token_address_of data
      end
  end.

(** No two elements of the list are equal. *)
Fixpoint pairwise_distinct (l : list pyval) : bool :=
  match l with
  | [] => true
  | x :: t => negb (existsb (fun y => py_eqb x y) t) && pairwise_distinct t
  end.

(** A rate-limited answer. *)
Definition busy (answer : outcome response) : bool :=
  match answer with
  | Ok resp => (status resp =? 429)%Z
  | Raise _ => false
  end.

(** Whenever the service is asked, it gives an answer that is not rate
    limited after at most [patience] rate-limited ones. *)
Definition settles_within (w : solscan) (patience : nat) : Prop :=
  forall i url, exists k,
    k <= patience /\ busy (requests_get w (i + k) url) = false.

(** Every body the service sends is a JSON object or a falsy value. *)
Definition bodies_are_objects (w : solscan) : Prop :=
  forall i url resp data,
    requests_get w i url = Ok resp -> resp_json resp = Ok data ->
    object_or_falsy data = true.

(** The handler's test [transaction_data and not
    transaction_data.get('tokenBalances')] on an object or a falsy
    value. *)
Definition blames_transaction (transaction_data : pyval) : bool :=
  match transaction_data with
  | PDict d => truthy (PDict d) && negb (truthy (get d "tokenBalances"))
  | _ => false
  end.

(** ** Reports over keys of any kind (lines 416-442) *)

(** [print_biggest_holders] and [sort_dict_by_values] above take a
    dictionary keyed by strings.  The counters that [holder_counts] and
    [attribute_distribution] hand over are keyed by whatever the records
    hold; the definitions below are the same functions on such keys. *)

(** [a < b] on two dictionary keys, [None] where Python raises
    [TypeError]: numbers (booleans included) are ordered among themselves,
    strings among themselves and bytes among themselves. *)
Definition key_ltb (a b : key) : option bool :=
  match a, b with
  | KInt x, KInt y => Some (x <? y)%Z
  | KStr x, KStr y => Some (String.ltb x y)
  | KBytes x, KBytes y => Some (String.ltb x y)
  | _, _ => None
  end.

(** [(v, k) < (v', k')] on tuples of a count and a key: the keys are
    compared only when the counts are equal and the keys differ. *)
Definition entry_ltb (a b : Z * pyval) : option bool :=
  if (fst a <? fst b)%Z then Some true
  else if (fst b <? fst a)%Z then Some false
  else if key_eqb (snd a) (snd b) then Some false
  else key_ltb (key_of (snd a)) (key_of (snd b)).

Definition comparable (a b : Z * pyval) : bool :=
  match entry_ltb a b with Some _ => true | None => false end.

(** Every two tuples of the list can be compared. *)
Fixpoint orderable (l : list (Z * pyval)) : bool :=
  match l with
  | [] => true
  | x :: t => forallb (comparable x) t && orderable t
  end.

Definition entry_lt (a b : Z * pyval) : bool :=
  match entry_ltb a b with Some true => true | _ => false end.

Fixpoint insert_entry (x : Z * pyval) (l : list (Z * pyval))
  : list (Z * pyval) :=
  match l with
  | [] => [x]
  | y :: t => if entry_lt y x then y :: insert_entry x t else x :: y :: t
  end.

Definition sort_entries (l : list (Z * pyval)) : list (Z * pyval) :=
  fold_right insert_entry [] l.

(** [sorted(l, reverse=reverse)] on such tuples.  [sorted] compares with
    [<] only and, being a comparison sort, compares the two members of
    every pair that ends up adjacent; tuples that cannot be compared have
    the same count, so some such pair ends up adjacent.  It raises
    [TypeError] exactly when two tuples of the list cannot be compared. *)
Definition sorted_entries (l : list (Z * pyval)) (reverse : bool)
  : outcome (list (Z * pyval)) :=
  if orderable l
  then Ok (if reverse then rev (sort_entries (rev l)) else sort_entries l)
  else Raise TypeError.

(** [dict(l)] for a list of pairs. *)
Definition kdict_of_pairs {V} (l : list (pyval * V)) : kdict V :=
  fold_left (fun d kv => kd_set d (fst kv) (snd kv)) l [].

(** Lines 439-442, on keys of any kind. *)
Definition sort_dict_by_values_any (dictionary : kdict Z) (reverse : bool)
  : outcome (kdict Z) :=
  match sorted_entries (map (fun kv => (snd kv, fst kv)) dictionary)
          reverse with
  | Ok holder_list =>
      Ok (kdict_of_pairs (map (fun vk => (snd vk, fst vk)) holder_list))
  | Raise e => Raise e
  end.

(** What [print] writes, line by line, and the records of the root
    logger. *)
Record console : Type := mkConsole {
  stdout : list string;
  logged : list event
}.

(** [print(line)] *)
Definition py_print (line : string) : M console unit :=
  modify (fun c => mkConsole (stdout c ++ [line]) (logged c)).

Definition backslash : ascii := ascii_of_nat 92.
Definition single_quote : ascii := ascii_of_nat 39.
Definition double_quote : ascii := ascii_of_nat 34.

Definition hex_digit (n : nat) : ascii :=
  nth n (list_ascii_of_string "0123456789abcdef") "0"%char.

(** One byte in the [repr] of a [bytes] object. *)
Definition repr_byte (quote c : ascii) : string :=
  let n := nat_of_ascii c in
  if Ascii.eqb c quote || Ascii.eqb c backslash
  then String backslash (String c "")
  else if Nat.eqb n 9 then String backslash "t"
  else if Nat.eqb n 10 then String backslash "n"
  else if Nat.eqb n 13 then String backslash "r"
  else if Nat.ltb n 32 || Nat.leb 127 n
  then String backslash
         (String "x" (String (hex_digit (n / 16))
                        (String (hex_digit (n mod 16)) "")))
  else String c "".

(** [repr(b)] for [bytes]: between single quotes, or double quotes when
    the bytes hold a single quote and no double quote. *)
Definition bytes_repr (b : string) : string :=
  let chars := list_ascii_of_string b in
  let quote :=
    if existsb (Ascii.eqb single_quote) chars
       && negb (existsb (Ascii.eqb double_quote) chars)
    then double_quote else single_quote in
  String "b"
    (String quote
       (String.concat "" (map (repr_byte quote) chars) ++ String quote "")).

(** ["{}".format(k)] for a dictionary key.  Lists and dictionaries are
    not hashable and are never keys. *)
Definition format_key (k : pyval) : string :=
  match k with
  | PNone => "None"
  | PBool true => "True"
  | PBool false => "False"
  | PInt z => str_of_int z
  | PStr s => s
  | PBytes b => bytes_repr b
  | PList _ | PDict _ => ""
  end.

(** Lines 424-425 for a key of any kind: only a string can be one of the
    marketplace wallets. *)
Definition holder_line_any (entry : pyval * Z) : string :=
  let marketplace_suffix :=
    match fst entry with
    | PStr holder =>
        match dict_get MARKETPLACE_WALLETS holder with
        | Some name => (" (" ++ name ++ ")")%string
        | None => ""
        end
    | _ => ""
    end in
  (format_key (fst entry) ++ ": " ++ str_of_int (snd entry)
   ++ marketplace_suffix)%string.

(** Lines 416-425. *)
Definition print_biggest_holders_any (tokens_total : Z) (counts : kdict Z)
  : M console unit :=
  py_print newline ;;;
  py_print ("Total tokens: " ++ str_of_int tokens_total)%string ;;;
  counts <- lift (sort_dict_by_values_any counts true) ;;
  py_print (newline ++ "Biggest holders:" ++ newline ++ "----------")%string ;;;
  for_each counts (fun entry => py_print (holder_line_any entry)).

(** Lines 287-299. *)
Definition holder_counts (all_token_data : tokenmap) : M console unit :=
  counts <- lift (count_holders all_token_data) ;;
  print_biggest_holders_any (Z.of_nat (List.length all_token_data)) counts.

(** [a + b] where one of the two is a string: only a string can be
    concatenated to a string. *)
Definition str_concat (a b : pyval) : outcome string :=
  match a, b with
  | PStr x, PStr y => Ok (x ++ y)%string
  | _, _ => Raise TypeError
  end.

(** The integers that convert to a float: those that round to less than
    2^1024. *)
Definition FLOAT_LIMIT : Z := (2 ^ 1024 - 2 ^ 970)%Z.

Definition to_float_ok (x : Z) : bool := (Z.abs x <? FLOAT_LIMIT)%Z.

(** Line 435: [" ({}/{}, {})".format(count, total, count * 1.0/total)].
    [float_text count total] is the text of the float [count * 1.0/total];
    the conversions to float and the division raise as Python's do. *)
Definition frequency_str (float_text : Z -> Z -> string) (count total : Z)
  : outcome string :=
  if negb (to_float_ok count) then Raise OverflowError
  else if negb (to_float_ok total) then Raise OverflowError
  else if (total =? 0)%Z then Raise ZeroDivisionError
  else Ok (" (" ++ str_of_int count ++ "/" ++ str_of_int total ++ ", "
           ++ float_text count total ++ ")")%string.

(** Lines 434-436, for one value of a trait type. *)
Definition print_value_frequency (float_text : Z -> Z -> string)
  (tokens_with_metadata_total : Z) (entry : pyval * Z) : M console unit :=
  frequency_str <-
    lift (frequency_str float_text (snd entry) tokens_with_metadata_total) ;;
  label <- lift (str_concat (fst entry) (PStr ": ")) ;;
  py_print (label ++ str_of_int (snd entry) ++ frequency_str)%string.

(** Lines 432-436, for one trait type. *)
Definition print_trait (float_text : Z -> Z -> string)
  (tokens_with_metadata_total : Z) (entry : pyval * kdict Z)
  : M console unit :=
  heading <- lift (str_concat (PStr newline) (fst entry)) ;;
  py_print heading ;;;
  values <- lift (sort_dict_by_values_any (snd entry) false) ;;
  for_each values
    (print_value_frequency float_text tokens_with_metadata_total).

(** Lines 428-436. *)
Definition print_trait_frequency (float_text : Z -> Z -> string)
  (tokens_with_metadata_total : Z) (attribute_counts : kdict (kdict Z))
  : M console unit :=
  py_print (newline ++ str_of_int tokens_with_metadata_total
            ++ " tokens with metadata")%string ;;;
  py_print (newline ++ "Attributes:" ++ newline ++ "----------")%string ;;;
  for_each attribute_counts
    (print_trait float_text tokens_with_metadata_total).

(** Lines 302-322: the loop, whose log goes to the root logger, and the
    report. *)
Definition attribute_distribution (float_text : Z -> Z -> string)
  (all_token_data : tokenmap) : M console unit :=
  fun c =>
    let (o, st) :=
      for_each all_token_data attribute_distribution_step
        (mkTraits 0 [] []) in
    let c := mkConsole (stdout c) (logged c ++ trait_log st) in
    match o with
    | Ok _ =>
        print_trait_frequency float_text (tokens_with_attributes_total st)
          (attribute_counts st) c
    | Raise e => (Raise e, c)
    end.

(** A record whose [holders] field holds an [info] dictionary in which
    the owner is a string, or is missing or a falsy scalar: the address
    it is counted under is a string. *)
Definition has_text_owner (r : record) : bool :=
  has_owner_info r && is_text (resolved_address r).

(** An attribute whose trait type is a string and whose value is a
    string or [None]. *)
Definition text_attribute (attribute : pyval) : bool :=
  match attribute with
  | PDict d =>
      match dict_get d "trait_type", dict_get d "value" with
      | Some t, Some v => is_text t && (is_text v || is_none v)
      | _, _ => false
      end
  | _ => false
  end.

(** A record whose [arweave] field is a dictionary with no attributes, or
    with a list of such attributes. *)
Definition text_metadata (r : record) : bool :=
  match dict_get r "arweave" with
  | Some (PDict a) =>
      match get a "attributes" with
      | PList l => forallb text_attribute l
      | v => negb (truthy v)
      end
  | _ => false
  end.

(** The counters a report can print: the keys are strings and every
    count lies between 1 and [bound]. *)
Definition printable_values (bound : Z) (values : kdict Z) : Prop :=
  Forall (fun vc => is_text (fst vc) = true /\ (1 <= snd vc <= bound)%Z)
    values.

Definition printable_counts (bound : Z) (attribute_counts : kdict (kdict Z))
  : Prop :=
  Forall (fun tv => is_text (fst tv) = true /\
                    printable_values bound (snd tv))
    attribute_counts.

(** Two runs of a report that end the same way and have printed the same
    lines. *)
Definition same_output {A} (r r' : outcome A * console) : Prop :=
  fst r = fst r' /\ stdout (snd r) = stdout (snd r').

(** ** Example inputs *)

(** A file system where nothing can be written and the cache file is
    truncated. *)
Definition broken_disk : fs :=
  mkFs false (fun _ => false) (fun _ => false) (fun _ => false)
    [("cache/k_cache.json", Garbled)].

Definition good_disk : fs :=
  mkFs true (fun _ => true) (fun _ => true) (fun _ => true) [].





(** An RPC answer to [get_token_largest_accounts] and one to
    [get_account_info] with its parsed owner data. *)
Definition largest_accounts_reply : pyval :=
  PDict [("result", PDict [("value", PList [PDict [("address", PStr "acct")]])])].

Definition account_info_reply (owner : pyval) : pyval :=
  PDict [("result", PDict [("value", PDict [("data", PDict [("parsed",
    PDict [("info", PDict [("owner", owner);
                           ("tokenAmount", PDict [("amount", PStr "1")])])])])])])].

(** A service whose holder lookup fails for token ["tok1"] only, and
    whose tasks complete in the order of their creation. *)
Definition flaky_remote : remote :=
  mkRemote
    (fun token => match token with
                  | PStr "tok1" => Raise ClientError
                  | _ => Ok largest_accounts_reply
                  end)
    (fun _ => Ok (account_info_reply (PStr "wallet")))
    (fun _ => Ok [("data", PDict [("name", PStr "Token #1")])])
    (fun b => Some b)
    (fun _ _ => Ok (mkResponse 200 (Ok (PDict []))))
    1000
    (fun _ => 0)
    (fun token => Ok token).

Definition two_fresh_tokens : tokenmap :=
  [("tok1", [("token", PStr "tok1")]);
   ("tok2", [("token", PStr "tok2")])].

(** A map in which every field is present, some with falsy values. *)
Definition full_map : tokenmap :=
  [("tok1", [("token", PStr "tok1"); ("holders", PDict []);
             ("account", PDict []); ("arweave", PDict [])]);
   ("tok2", [("token", PStr "tok2"); ("holders", PStr "");
             ("account", PInt 0); ("arweave", PList [])])].

(** An endpoint that answers 429 once and then 200 with a JSON body. *)
Definition attributes_body : pyval :=
  PDict [("attributes",
          PList [PDict [("trait_type", PStr "Hair"); ("value", PStr "Red")]])].

Definition busy_once_remote : remote :=
  mkRemote
    (fun _ => Ok largest_accounts_reply)
    (fun _ => Ok (account_info_reply (PStr "wallet")))
    (fun _ => Ok [("data", PDict [("uri", PStr "https://arweave.net/1")])])
    (fun b => Some b)
    (fun _ n => match n with
                | 0 => Ok (mkResponse 429 (Raise JSONDecodeError))
                | _ => Ok (mkResponse 200 (Ok attributes_body))
                end)
    1000
    (fun _ => 0)
    (fun token => Ok token).

(** An endpoint that is busy three times, under an interpreter that
    allows three nested calls. *)
Definition busy_thrice_remote : remote :=
  mkRemote
    (fun _ => Ok largest_accounts_reply)
    (fun _ => Ok (account_info_reply (PStr "wallet")))
    (fun _ => Ok [("data", PDict [("uri", PStr "https://arweave.net/1")])])
    (fun b => Some b)
    (fun _ n => if Nat.ltb n 3
                then Ok (mkResponse 429 (Raise JSONDecodeError))
                else Ok (mkResponse 200 (Ok attributes_body)))
    3
    (fun _ => 0)
    (fun token => Ok token).

(** An endpoint that answers 404 with a JSON error body. *)
Definition not_found_body : pyval := PDict [("error", PStr "Not Found")].

Definition not_found_remote : remote :=
  mkRemote
    (fun _ => Ok largest_accounts_reply)
    (fun _ => Ok (account_info_reply (PStr "wallet")))
    (fun _ => Ok [("data", PDict [("uri", PStr "https://arweave.net/1")])])
    (fun b => Some b)
    (fun _ _ => Ok (mkResponse 404 (Ok not_found_body)))
    1000
    (fun _ => 0)
    (fun token => Ok token).

(** Holder data of three shapes: an owner, an [info] without owner, and a
    [holders] object without [info]. *)
Definition record_owned_by (token : string) (owner : string) : record :=
  [("token", PStr token);
   ("holders", PDict [("info", PDict [("owner", PStr owner);
                                      ("tokenAmount",
                                       PDict [("amount", PStr "1")])])])].

Definition record_without_owner (token : string) : record :=
  [("token", PStr token);
   ("holders", PDict [("info", PDict [("owner", PNone)])])].

Definition record_without_info (token : string) : record :=
  [("token", PStr token); ("holders", PDict [])].

Definition owners_map : tokenmap :=
  [("tok1", record_owned_by "tok1" "wallet");
   ("tok2", record_without_owner "tok2");
   ("tok3", record_owned_by "tok3" "wallet")].

(** Token metadata: attributes given as (trait type, value) pairs. *)
Definition attribute (trait_type : string) (value : pyval) : pyval :=
  PDict [("trait_type", PStr trait_type); ("value", value)].

Definition record_with_attributes (token : string) (l : list pyval) : record :=
  [("token", PStr token); ("arweave", PDict [("attributes", PList l)])].

Definition traits_map : tokenmap :=
  [("tok1", record_with_attributes "tok1"
              [attribute "Hair" (PStr "Red"); attribute "Eyes" PNone]);
   ("tok2", record_with_attributes "tok2" [attribute "Hair" (PStr "Blue")]);
   ("tok3", [("token", PStr "tok3"); ("arweave", PDict [])])].

(** One token that lists the trait type ["Hair"] twice, and one whose only
    value is [None]. *)
Definition repeated_trait_map : tokenmap :=
  [("tok1", record_with_attributes "tok1"
              [attribute "Hair" (PStr "Red"); attribute "Hair" (PStr "Blue")])].

Definition null_value_map : tokenmap :=
  [("tok1", record_with_attributes "tok1" [attribute "Eyes" PNone])].

(** One token whose trait value is a number. *)
Definition numeric_value_map : tokenmap :=
  [("tok1", record_with_attributes "tok1" [attribute "Level" (PInt 5)])].

(** The text of the float [1 * 1.0/2], the one frequency of [traits_map]. *)
Definition half_text (count total : Z) : string := "0.5".

(** One unknown wallet and three marketplace wallets. *)
Definition scenario_counts : dict Z :=
  [("A", 50%Z);
   ("3D49QorJyNaL4rcpiynbuS3pRH4Y7EXEM6v6ZGaqfFGK", 1%Z);
   ("4pUQS4Jo2dsfWzt3VgHXy3H6RYnEDd11oWPiaM2rdAPw", 2%Z);
   ("F4ghBzHFNgJxV4wEQDchU5i7n4XWWMBSaq7CuswGiVsr", 4%Z)].

(** Two complete records, one named with a number sign and one without. *)
Definition complete_record (token name : string) : record :=
  [("token", PStr token);
   ("holders", PDict [("info", PDict [("owner", PStr "wallet");
                                      ("tokenAmount",
                                       PDict [("amount", PStr "1")])])]);
   ("account", PDict [("data", PDict [("name", PStr name)])])].

Definition snapshot_map : tokenmap :=
  [("tok1", complete_record "tok1" "Token #12");
   ("tok2", complete_record "tok2" "Genesis")].

(** An endpoint that answers 200 with the JSON body [null], and the record
    that the metadata task leaves after fetching it. *)
Definition null_body_remote : remote :=
  mkRemote
    (fun _ => Ok largest_accounts_reply)
    (fun _ => Ok (account_info_reply (PStr "wallet")))
    (fun _ => Ok [("data", PDict [("uri", PStr "https://arweave.net/1")])])
    (fun b => Some b)
    (fun _ _ => Ok (mkResponse 200 (Ok PNone)))
    1000
    (fun _ => 0)
    (fun token => Ok token).

Definition null_metadata_map : tokenmap :=
  [("tok1",
    after_task (get_arweave_metadata null_body_remote)
      (record_with_uri "tok1" (PStr "https://arweave.net/1")))].

(** * Further example inputs *)

(** An endpoint that cannot be reached. *)
Definition unreachable_remote : remote :=
  mkRemote
    (fun _ => Ok largest_accounts_reply)
    (fun _ => Ok (account_info_reply (PStr "wallet")))
    (fun _ => Ok [("data", PDict [("uri", PStr "https://arweave.net/1")])])
    (fun b => Some b)
    (fun _ _ => Raise ClientError)
    1000
    (fun _ => 0)
    (fun token => Ok token).

Definition cached_map : tokenmap :=
  [("old", [("token", PStr "old"); ("holders", PDict [])])].

(** A map whose second token was never fetched. *)
Definition half_fetched_map : tokenmap :=
  [("tok1", complete_record "tok1" "Token #1");
   ("tok2", [("token", PStr "tok2")])].

(** Answers of the transaction endpoint: one that names a token, one
    without token balances, and an error message instead of an object. *)
Definition transaction_reply (token_address : pyval) : pyval :=
  PDict [("tokenBalances",
          PList [PDict [("token",
                         PDict [("tokenAddress", token_address)])]])].

Definition no_balances_reply : pyval := PDict [("tokenBalances", PList [])].

Definition ok_response (body : pyval) : outcome response :=
  Ok (mkResponse 200 (Ok body)).

Definition busy_response : outcome response :=
  Ok (mkResponse 429 (Raise JSONDecodeError)).

(** A file of four signatures; the service is busy twice for the first,
    then names a token, has no balance for the second, cannot be reached
    for the third and names the first token again for the fourth. *)
Definition busy_twice_solscan : solscan :=
  mkSolscan
    [("sigs.txt", ["s1"; "s2"; "s3"; "s4"])]
    (fun n _ =>
       match n with
       | 0 | 1 => busy_response
       | 2 => ok_response (transaction_reply (PStr "mintA"))
       | 3 => ok_response no_balances_reply
       | 4 => Raise ClientError
       | _ => ok_response (transaction_reply (PStr "mintA"))
       end).

(** A service that is never busy: the answer depends on the URL. *)
Definition steady_solscan : solscan :=
  mkSolscan
    [("sigs.txt", ["s1"; "s2"; "s3"])]
    (fun _ url =>
       if (url =? transaction_url "s2")%string
       then ok_response no_balances_reply
       else ok_response (transaction_reply (PStr "mintA"))).

(** A service that is always busy. *)
Definition always_busy_solscan : solscan :=
  mkSolscan [("sigs.txt", ["s1"])] (fun _ _ => busy_response).

(** A service that answers every request with a JSON string. *)
Definition message_solscan : solscan :=
  mkSolscan [("sigs.txt", ["s1"; "s2"])]
    (fun _ _ => ok_response (PStr "Too many requests")).

(** A service whose on-chain metadata holds bytes that are not valid
    UTF-8. *)
Definition raw_bytes_remote : remote :=
  mkRemote
    (fun _ => Ok largest_accounts_reply)
    (fun _ => Ok (account_info_reply (PStr "wallet")))
    (fun _ => Ok [("update_authority", PBytes "raw");
                  ("data", PDict [("name", PStr "Token #1")])])
    (fun _ => None)
    (fun _ _ => Ok (mkResponse 200 (Ok (PDict []))))
    1000
    (fun _ => 0)
    (fun token => Ok token).

(** An endpoint that is always busy, under an interpreter that allows
    three nested calls. *)
Definition always_busy_remote : remote :=
  mkRemote
    (fun _ => Ok largest_accounts_reply)
    (fun _ => Ok (account_info_reply (PStr "wallet")))
    (fun _ => Ok [("data", PDict [("uri", PStr "https://arweave.net/1")])])
    (fun b => Some b)
    (fun _ _ => Ok (mkResponse 429 (Raise JSONDecodeError)))
    3
    (fun _ => 0)
    (fun token => Ok token).

(** * Properties *)

(** ** Dictionaries *)

Lemma dict_get_set_same {V} (d : dict V) k v :
  dict_get (dict_set d k v) k = Some v.
Proof.
  induction d as [|[k' v'] t IH]; simpl.
  - now rewrite String.eqb_refl.
  - destruct (k' =? k) eqn:E; simpl; rewrite E; auto.
Qed.

Lemma dict_get_set_other {V} (d : dict V) k k' v :
  k <> k' -> dict_get (dict_set d k v) k' = dict_get d k'.
Proof.
  intros Hne.
  induction d as [|[k0 v0] t IH]; simpl.
  - apply String.eqb_neq in Hne. now rewrite Hne.
  - destruct (k0 =? k) eqn:E; simpl.
    + apply String.eqb_eq in E; subst k0.
      apply String.eqb_neq in Hne. now rewrite Hne.
    + destruct (k0 =? k'); auto.
Qed.

Lemma dict_get_In {V} (d : dict V) k v :
  dict_get d k = Some v -> In (k, v) d.
Proof.
  induction d as [|[k0 v0] t IH]; simpl; [discriminate|].
  destruct (k0 =? k) eqn:E.
  - apply String.eqb_eq in E. intros [= ->]. left; congruence.
  - auto.
Qed.

Lemma dict_get_None {V} (d : dict V) k :
  dict_get d k = None <-> ~ In k (dict_keys d).
Proof.
  induction d as [|[k0 v0] t IH]; simpl.
  - tauto.
  - destruct (k0 =? k) eqn:E.
    + apply String.eqb_eq in E. split; [discriminate | intros H; exfalso; auto].
    + apply String.eqb_neq in E. rewrite IH. tauto.
Qed.

Lemma In_dict_get {V} (d : dict V) k v :
  NoDup (dict_keys d) -> In (k, v) d -> dict_get d k = Some v.
Proof.
  induction d as [|[k0 v0] t IH]; simpl; [tauto|].
  intros Hnd [H|H].
  - inversion H; subst. now rewrite String.eqb_refl.
  - inversion Hnd as [|? ? Hnotin Hnd']; subst.
    destruct (k0 =? k) eqn:E.
    + apply String.eqb_eq in E; subst k0. exfalso. apply Hnotin.
      change (In (fst (k, v)) (map fst t)). now apply in_map.
    + auto.
Qed.

Lemma dict_keys_set_present {V} (d : dict V) k v :
  In k (dict_keys d) -> dict_keys (dict_set d k v) = dict_keys d.
Proof.
  unfold dict_keys.
  induction d as [|[k0 v0] t IH]; simpl; [tauto|].
  intros H. destruct (k0 =? k) eqn:E; simpl; [reflexivity|].
  apply String.eqb_neq in E. f_equal. apply IH. tauto.
Qed.

(** ** JSON conversion *)

Lemma to_json_of_serializable v :
  serializable v = true -> exists j, to_json v = Some j.
Proof.
  induction v as [| | | | |l IH|d IH] using pyval_nested_ind;
    simpl; intros Hs; try (eexists; reflexivity); try discriminate.
  - enough (exists js,
      (fix go (l : list pyval) : option (list json) :=
         match l with
         | [] => Some []
         | x :: t =>
             match to_json x, go t with
             | Some j, Some js => Some (j :: js)
             | _, _ => None
             end
         end) l = Some js) as [js ->] by (eexists; reflexivity).
    induction IH as [|x t Hx _ IHt]; [eexists; reflexivity|].
    simpl in Hs. apply andb_true_iff in Hs as [Hs1 Hs2].
    destruct (Hx Hs1) as [j ->]. destruct (IHt Hs2) as [js ->].
    eexists; reflexivity.
  - enough (exists js,
      (fix go (d : list (string * pyval)) : option (list (string * json)) :=
         match d with
         | [] => Some []
         | (k, x) :: t =>
             match to_json x, go t with
             | Some j, Some js => Some ((k, j) :: js)
             | _, _ => None
             end
         end) d = Some js) as [js ->] by (eexists; reflexivity).
    induction IH as [|[k x] t Hx _ IHt]; [eexists; reflexivity|].
    simpl in Hs, Hx. apply andb_true_iff in Hs as [Hs1 Hs2].
    destruct (Hx Hs1) as [j ->]. destruct (IHt Hs2) as [js ->].
    eexists; reflexivity.
Qed.

Lemma of_json_to_json v : forall j, to_json v = Some j -> of_json j = v.
Proof.
  induction v as [| | | | |l IH|d IH] using pyval_nested_ind;
    simpl; intros j Hj; try (injection Hj as <-; reflexivity);
    try discriminate.
  - destruct ((fix go (l : list pyval) : option (list json) :=
         match l with
         | [] => Some []
         | x :: t =>
             match to_json x, go t with
             | Some j, Some js => Some (j :: js)
             | _, _ => None
             end
         end) l) as [js|] eqn:E; simpl in Hj; [|discriminate].
    injection Hj as <-. simpl. f_equal.
    revert js E. induction IH as [|x t Hx _ IHt]; intros js E.
    + injection E as <-. reflexivity.
    + destruct (to_json x) as [jx|]; [|discriminate].
      match type of E with
      | match ?g with _ => _ end = _ => destruct g as [jt|] eqn:Et
      end; [|discriminate].
      injection E as <-. simpl. f_equal; auto.
  - destruct ((fix go (d : list (string * pyval)) : option (list (string * json)) :=
         match d with
         | [] => Some []
         | (k, x) :: t =>
             match to_json x, go t with
             | Some j, Some js => Some ((k, j) :: js)
             | _, _ => None
             end
         end) d) as [js|] eqn:E; simpl in Hj; [|discriminate].
    injection Hj as <-. simpl. f_equal.
    revert js E. induction IH as [|[k x] t Hx _ IHt]; intros js E.
    + injection E as <-. reflexivity.
    + simpl in Hx. destruct (to_json x) as [jx|]; [|discriminate].
      match type of E with
      | match ?g with _ => _ end = _ => destruct g as [jt|] eqn:Et
      end; [|discriminate].
      injection E as <-. simpl. f_equal; [f_equal|]; auto.
Qed.

(** ** Request cache *)

Lemma serializable_to_json_none data :
  serializable data = false -> to_json data = None.
Proof.
  intros Hs. destruct (to_json data) as [j|] eqn:Hj; auto.
  exfalso. apply of_json_to_json in Hj.
  assert (Hser : forall j, serializable (of_json j) = true).
  { clear. fix IH 1. intros [| | | |l|o]; simpl; auto.
    - induction l as [|x t IHt]; simpl; auto. now rewrite IH, IHt.
    - induction o as [|[k x] t IHt]; simpl; auto. now rewrite IH, IHt. }
  rewrite <- Hj, Hser in Hs. discriminate.
Qed.

Lemma dict_set_twice {V} (d : dict V) k v v' :
  dict_set (dict_set d k v) k v' = dict_set d k v'.
Proof.
  induction d as [|[k0 v0] t IH]; simpl.
  - now rewrite String.eqb_refl.
  - destruct (k0 =? k)%string eqn:E; simpl; rewrite E; [reflexivity|].
    now rewrite IH.
Qed.

Lemma set_file_twice d path f f' :
  set_file (set_file d path f) path f' = set_file d path f'.
Proof. unfold set_file. simpl. now rewrite dict_set_twice. Qed.

(** What a save does, case by case. *)
Lemma save_request_cache_run key data st :
  save_request_cache key data st =
    let path := cache_path key in
    let warned d evs :=
      (Ok tt,
       mkState (tokens st) d
         (trace st ++ evs ++
          [Log Warning "Unable to write cache file %s: %s"])) in
    if mkdir_ok (disk st) && open_w_ok (disk st) path then
      match to_json data with
      | Some j =>
          if write_ok (disk st) path then
            if close_ok (disk st) path then
              (Ok tt,
               mkState (tokens st)
                 (set_file (set_file (disk st) path Garbled) path (Doc j))
                 (trace st ++ [Log Debug "Wrote cache data to %s"]))
            else
              warned (set_file (disk st) path Garbled)
                [Log Debug "Wrote cache data to %s"]
          else warned (set_file (disk st) path Garbled) []
      | None => warned (set_file (disk st) path Garbled) []
      end
    else warned (disk st) [].
Proof.
  unfold save_request_cache, try_except, bind, path_mkdir, path_open_write,
    with_open_file, json_dump, emit, modify, raise. cbv zeta.
  destruct (mkdir_ok (disk st)); [|reflexivity].
  destruct (open_w_ok (disk st) (cache_path key)); [|reflexivity].
  cbn [andb].
  destruct (to_json data) as [j|].
  - cbn [disk tokens trace set_file write_ok close_ok].
    destruct (write_ok (disk st) (cache_path key));
      cbn [disk tokens trace set_file write_ok close_ok];
      destruct (close_ok (disk st) (cache_path key));
      cbn [disk tokens trace];
      rewrite ?set_file_twice, <- ?app_assoc; reflexivity.
  - cbn [disk tokens trace set_file write_ok close_ok].
    destruct (close_ok (disk st) (cache_path key));
      cbn [disk tokens trace];
      rewrite ?set_file_twice; reflexivity.
Qed.

Lemma save_fails_false key data st :
  save_fails key data st = false ->
  mkdir_ok (disk st) = true /\
  open_w_ok (disk st) (cache_path key) = true /\
  write_ok (disk st) (cache_path key) = true /\
  close_ok (disk st) (cache_path key) = true /\
  serializable data = true.
Proof.
  unfold save_fails. intros H. apply negb_false_iff in H.
  repeat (apply andb_true_iff in H as [H ?]). auto.
Qed.

(** What a save that goes through leaves behind. *)
Lemma save_request_cache_ok key data st j :
  save_fails key data st = false ->
  to_json data = Some j ->
  save_request_cache key data st =
    (Ok tt,
     mkState (tokens st)
       (set_file (set_file (disk st) (cache_path key) Garbled)
          (cache_path key) (Doc j))
       (trace st ++ [Log Debug "Wrote cache data to %s"])).
Proof.
  intros Hf Hj. apply save_fails_false in Hf as (Hm & Ho & Hw & Hc & _).
  rewrite save_request_cache_run. cbv zeta.
  now rewrite Hm, Ho, Hj, Hw, Hc.
Qed.

(** What a save that fails leaves behind: a warning, and no exception.
    Only a failure at the closing of the file comes after the record of
    the write. *)
Lemma save_request_cache_fails key data st :
  save_fails key data st = true ->
  fst (save_request_cache key data st) = Ok tt /\
  tokens (snd (save_request_cache key data st)) = tokens st /\
  trace (snd (save_request_cache key data st)) =
    trace st ++
    (if fails_at_close key data st
     then [Log Debug "Wrote cache data to %s"] else []) ++
    [Log Warning "Unable to write cache file %s: %s"].
Proof.
  unfold save_fails, fails_at_close. intros Hf. apply negb_true_iff in Hf.
  rewrite save_request_cache_run. cbv zeta.
  destruct (mkdir_ok (disk st)); cbn [andb]; [|auto].
  destruct (open_w_ok (disk st) (cache_path key)); cbn [andb]; [|auto].
  destruct (serializable data) eqn:Hs.
  - destruct (to_json_of_serializable data Hs) as [j Hj]. rewrite Hj.
    destruct (write_ok (disk st) (cache_path key)); cbn [andb]; [|auto].
    destruct (close_ok (disk st) (cache_path key)); cbn [andb negb];
      [|auto].
    simpl in Hf. discriminate.
  - rewrite (serializable_to_json_none _ Hs).
    rewrite !andb_false_r. cbn [andb]. auto.
Qed.

Lemma save_request_cache_never_raises key data st :
  fst (save_request_cache key data st) = Ok tt.
Proof.
  destruct (save_fails key data st) eqn:Hf.
  - now apply save_request_cache_fails.
  - destruct (to_json_of_serializable data) as [j Hj].
    { now apply save_fails_false in Hf. }
    now rewrite (save_request_cache_ok _ _ _ _ Hf Hj).
Qed.

Lemma save_request_cache_tokens key data st :
  tokens (snd (save_request_cache key data st)) = tokens st.
Proof.
  destruct (save_fails key data st) eqn:Hf.
  - now apply save_request_cache_fails.
  - destruct (to_json_of_serializable data) as [j Hj].
    { now apply save_fails_false in Hf. }
    now rewrite (save_request_cache_ok _ _ _ _ Hf Hj).
Qed.

Lemma load_request_cache_run key st :
  load_request_cache key st =
    match dict_get (files (disk st)) (cache_path key) with
    | Some (Doc j) =>
        (Ok (of_json j),
         mkState (tokens st) (disk st)
           (trace st ++ [Log Debug "Loaded cache data from %s"]))
    | _ =>
        (Ok (PDict []),
         mkState (tokens st) (disk st)
           (trace st ++ [Log Debug "Unable to load cache file %s: %s"]))
    end.
Proof.
  unfold load_request_cache, try_except, bind, path_open_read.
  destruct (dict_get (files (disk st)) (cache_path key)) as [[j|]|];
    reflexivity.
Qed.

(** C7.  Neither cache operation raises, whatever the state of the file
    system.  When the file is missing or unreadable as JSON, [load] returns
    the empty map and logs the failure; when the directory cannot be made,
    the file cannot be opened, written or closed, or the data is not
    serializable, [save] returns normally and the last record of its log
    is the warning; only when it is the closing of the file that fails
    does the record of the write come before it. *)
Theorem cache_failures_never_raise :
  forall (key : string) (data : pyval) (st : state),
    (exists v, fst (load_request_cache key st) = Ok v) /\
    (load_fails key st = true ->
       load_request_cache key st =
         (Ok (PDict []),
          mkState (tokens st) (disk st)
            (trace st ++ [Log Debug "Unable to load cache file %s: %s"]))) /\
    fst (save_request_cache key data st) = Ok tt /\
    (save_fails key data st = true ->
       trace (snd (save_request_cache key data st)) =
         trace st ++
         (if fails_at_close key data st
          then [Log Debug "Wrote cache data to %s"] else []) ++
         [Log Warning "Unable to write cache file %s: %s"]).
Proof.
  intros key data st. repeat split.
  - rewrite load_request_cache_run.
    destruct (dict_get (files (disk st)) (cache_path key)) as [[j|]|];
      eexists; reflexivity.
  - unfold load_fails. rewrite load_request_cache_run.
    destruct (dict_get (files (disk st)) (cache_path key)) as [[j|]|];
      intros H; try discriminate; reflexivity.
  - apply save_request_cache_never_raises.
  - intros H. now apply save_request_cache_fails.
Qed.

Lemma cache_failures_never_raise_witness :
  let st := mkState [] broken_disk [] in
  load_request_cache "k" st =
    (Ok (PDict []),
     mkState [] broken_disk [Log Debug "Unable to load cache file %s: %s"]) /\
  trace (snd (save_request_cache "k" (PDict []) st)) =
    [Log Warning "Unable to write cache file %s: %s"].
Proof.
  intros st.
  destruct (cache_failures_never_raise "k" (PDict []) st) as (_ & Hl & _ & Hs).
  split; [apply Hl | apply Hs]; reflexivity.
Defined.




(** ** The task loop *)

Lemma remove_nth_In {A} (i : nat) (l : list A) x :
  In x (remove_nth i l) -> In x l.
Proof.
  revert i. induction l as [|y t IH]; intros [|i]; simpl; auto.
  intros [H|H]; eauto.
Qed.

Lemma remove_nth_split {A} (i : nat) (l : list A) d x :
  i < List.length l -> In x l -> x = nth i l d \/ In x (remove_nth i l).
Proof.
  revert i. induction l as [|y t IH]; intros [|i]; simpl; try lia.
  - intros _ [H|H]; auto.
  - intros Hi [H|H]; auto. destruct (IH i) as [H'|H']; auto; lia.
Qed.

Lemma remove_nth_NoDup {A} (i : nat) (l : list A) d :
  i < List.length l -> NoDup l ->
  NoDup (remove_nth i l) /\ ~ In (nth i l d) (remove_nth i l).
Proof.
  revert i. induction l as [|y t IH]; intros [|i]; simpl; try lia;
    intros Hi Hnd; inversion Hnd as [|? ? Hy Ht]; subst.
  - auto.
  - destruct (IH i) as [H1 H2]; auto; [lia|]. split.
    + constructor; auto. intros H. apply Hy. eapply remove_nth_In; eauto.
    + intros [H|H]; auto. apply Hy. rewrite H. apply nth_In. lia.
Qed.

Lemma remove_nth_length {A} (i : nat) (l : list A) :
  i < List.length l -> S (List.length (remove_nth i l)) = List.length l.
Proof.
  revert i. induction l as [|y t IH]; intros [|i]; simpl; try lia.
  intros Hi. rewrite IH; lia.
Qed.

Section TaskLoop.
Variable w : remote.
Variable task : M task_state unit.

Lemma run_task_run token st r :
  dict_get (tokens st) token = Some r ->
  run_task task token st =
    (task_outcome task r,
     mkState (dict_set (tokens st) token (after_task task r)) (disk st)
       (trace st ++ events (snd (task (mkTask r []))))).
Proof.
  intros H. unfold run_task, task_outcome, after_task. rewrite H.
  destruct (task (mkTask r [])); reflexivity.
Qed.

Lemma await_as_completed_step n first rest st :
  let pending := first :: rest in
  let i := completed_first w pending mod List.length pending in
  await_as_completed w task (S n) pending st =
    match run_task task (nth i pending first) st with
    | (Ok _, st') => await_as_completed w task n (remove_nth i pending) st'
    | (Raise e, st') => (Raise e, st')
    end.
Proof. reflexivity. Qed.

(** What the loop guarantees, whatever the completion order: the disk is
    not touched; records outside [pending] are not touched; a pending
    record is either untouched or holds what its task left; the loop
    returns exactly when every task did, and otherwise raises what some
    task raised. *)
Lemma await_as_completed_spec n : forall pending st,
  NoDup pending ->
  List.length pending <= n ->
  (forall t, In t pending -> In t (dict_keys (tokens st))) ->
  let out := await_as_completed w task n pending st in
  disk (snd out) = disk st /\
  dict_keys (tokens (snd out)) = dict_keys (tokens st) /\
  (forall t, ~ In t pending ->
     dict_get (tokens (snd out)) t = dict_get (tokens st) t) /\
  (forall t r, In t pending -> dict_get (tokens st) t = Some r ->
     dict_get (tokens (snd out)) t = Some r \/
     dict_get (tokens (snd out)) t = Some (after_task task r)) /\
  match fst out with
  | Ok _ =>
      forall t r, In t pending -> dict_get (tokens st) t = Some r ->
        task_outcome task r = Ok tt /\
        dict_get (tokens (snd out)) t = Some (after_task task r)
  | Raise e =>
      exists t r, In t pending /\ dict_get (tokens st) t = Some r /\
        task_outcome task r = Raise e
  end.
Proof.
  induction n as [|n IH]; intros pending st Hnd Hlen Hin.
  - destruct pending; simpl in *; [|lia].
    split; [reflexivity|]. split; [reflexivity|]. split; [auto|].
    split; intros t r [].
  - destruct pending as [|first rest].
    { split; [reflexivity|]. split; [reflexivity|]. split; [auto|].
      split; intros t r []. }
    rewrite await_as_completed_step.
    set (pending := first :: rest) in *.
    set (i := completed_first w pending mod List.length pending).
    assert (Hi : i < List.length pending).
    { apply Nat.mod_upper_bound. simpl. lia. }
    set (t0 := nth i pending first).
    assert (Ht0 : In t0 pending) by (apply nth_In; exact Hi).
    destruct (remove_nth_NoDup i pending first Hi Hnd) as [Hnd' Hnot].
    fold t0 in Hnot.
    destruct (dict_get (tokens st) t0) as [r0|] eqn:Hr0.
    2:{ apply dict_get_None in Hr0. exfalso. auto. }
    rewrite (run_task_run _ _ _ Hr0).
    destruct (task_outcome task r0) as [[]|e] eqn:Ho.
    + (* the task returned: go on with the others *)
      set (st1 := mkState (dict_set (tokens st) t0 (after_task task r0))
                    (disk st) _).
      assert (Hkeys1 : dict_keys (tokens st1) = dict_keys (tokens st)).
      { apply dict_keys_set_present. auto. }
      specialize (IH (remove_nth i pending) st1 Hnd').
      destruct IH as (Hd & Hk & Hout & Hin' & Hres).
      { pose proof (remove_nth_length i pending Hi). simpl in *. lia. }
      { intros t Ht. rewrite Hkeys1. apply Hin.
        eapply remove_nth_In; eauto. }
      assert (Hother : forall t, t <> t0 ->
                dict_get (tokens st1) t = dict_get (tokens st) t).
      { intros t Hne. simpl. apply dict_get_set_other. congruence. }
      cbv zeta. split; [exact Hd|]. split; [rewrite Hk; exact Hkeys1|]. split.
      { intros t Ht. rewrite Hout.
        - apply Hother. intros ->. auto.
        - intros H. apply Ht. eapply remove_nth_In; eauto. }
      split.
      { intros t r Ht Hr.
        destruct (remove_nth_split i pending first t Hi Ht) as [->|Ht'].
        - fold t0 in Hr |- *. right. rewrite Hout by exact Hnot. simpl.
          rewrite dict_get_set_same. rewrite Hr0 in Hr. congruence.
        - apply Hin'; auto. rewrite Hother; auto. intros ->. auto. }
      destruct (fst (await_as_completed w task n (remove_nth i pending) st1))
        as [[]|e] eqn:Hf.
      * intros t r Ht Hr.
        destruct (remove_nth_split i pending first t Hi Ht) as [->|Ht'].
        -- fold t0 in Hr |- *. rewrite Hr0 in Hr.
           assert (r = r0) by congruence. subst r.
           split; [exact Ho|]. rewrite Hout by exact Hnot. simpl.
           apply dict_get_set_same.
        -- apply Hres; auto. rewrite Hother; auto. intros ->. auto.
      * destruct Hres as (t & r & Ht & Hr & He).
        exists t, r. split; [eapply remove_nth_In; eauto|]. split; auto.
        rewrite <- Hother; auto. intros ->. auto.
    + (* the task raised: the loop ends here *)
      cbv zeta. simpl. split; [reflexivity|]. split.
      { apply dict_keys_set_present. auto. }
      split.
      { intros t Ht. apply dict_get_set_other. intros <-. auto. }
      split.
      { intros t r Ht Hr. destruct (string_dec t0 t) as [<-|Hne].
        - right. rewrite dict_get_set_same. congruence.
        - left. rewrite dict_get_set_other; auto. }
      exists t0, r0. auto.
Qed.

End TaskLoop.

(** ** Task selection *)

Lemma get_None_iff (r : record) field :
  get r field = PNone <->
  dict_get r field = None \/ dict_get r field = Some PNone.
Proof.
  unfold get. destruct (dict_get r field) as [v|].
  - split; [intros ->; auto | intros [H|H]; congruence].
  - split; auto.
Qed.

Lemma tasks_for_In field (m : tokenmap) t :
  In t (tasks_for field m) <->
  exists r, In (t, r) m /\ get r field = PNone.
Proof.
  unfold tasks_for. rewrite in_map_iff. split.
  - intros ([t' r] & <- & H). apply filter_In in H as [H1 H2].
    simpl in *. exists r. split; auto.
    destruct (get r field); simpl in H2; congruence.
  - intros (r & H1 & H2). exists (t, r). split; auto.
    apply filter_In. split; auto. simpl. now rewrite H2.
Qed.

Lemma tasks_for_selected field (m : tokenmap) t :
  NoDup (dict_keys m) ->
  In t (tasks_for field m) <-> exists r, selected field m t r.
Proof.
  intros Hnd. rewrite tasks_for_In. unfold selected.
  split; intros (r & H1 & H2); exists r; split; auto.
  - now apply In_dict_get.
  - now apply dict_get_In.
Qed.

Lemma tasks_for_keys field (m : tokenmap) t :
  In t (tasks_for field m) -> In t (dict_keys m).
Proof.
  rewrite tasks_for_In. intros (r & H & _).
  unfold dict_keys. change t with (fst (t, r)). now apply in_map.
Qed.

Lemma tasks_for_NoDup field (m : tokenmap) :
  NoDup (dict_keys m) -> NoDup (tasks_for field m).
Proof.
  unfold tasks_for, dict_keys.
  induction m as [|[k r] t IH]; simpl; [constructor|].
  intros Hnd. inversion Hnd as [|? ? Hk Ht]; subst.
  destruct (is_none (get r field)); simpl; auto.
  constructor; auto. intros Hin. apply Hk.
  apply in_map_iff in Hin as (x & <- & Hx).
  apply filter_In in Hx as [Hx _]. now apply in_map.
Qed.

(** ** One phase *)

Section Phase.
Variable w : remote.
Variable field : string.
Variable task : M task_state unit.
Variable key : string.

Lemma enrich_run st :
  enrich w field task key st =
    let tasks := tasks_for field (tokens st) in
    match await_as_completed w task (List.length tasks) tasks st with
    | (Ok _, st1) =>
        let st2 :=
          snd (save_request_cache key (py_of_tokenmap (tokens st1)) st1) in
        (Ok (tokens st2), st2)
    | (Raise e, st1) => (Raise e, st1)
    end.
Proof.
  unfold enrich, bind, gets. cbv zeta.
  destruct (await_as_completed w task _ _ st) as [[[]|e] st1]; auto.
  pose proof (save_request_cache_never_raises key
                (py_of_tokenmap (tokens st1)) st1) as H.
  destruct (save_request_cache key (py_of_tokenmap (tokens st1)) st1)
    as [o st2]. simpl in *. now rewrite H.
Qed.


(** When every selected task returns, each selected record holds what its
    task left, the others are as before, and the map is handed to
    [save_request_cache]. *)
Lemma enrich_success st :
  NoDup (dict_keys (tokens st)) ->
  (forall t r, selected field (tokens st) t r ->
     task_outcome task r = Ok tt) ->
  let out := enrich w field task key st in
  fst out = Ok (tokens (snd out)) /\
  (forall t r, dict_get (tokens st) t = Some r ->
     dict_get (tokens (snd out)) t =
       Some (if is_none (get r field) then after_task task r else r)) /\
  (save_fails key (py_of_tokenmap (tokens (snd out))) st = false ->
     exists j, to_json (py_of_tokenmap (tokens (snd out))) = Some j /\
       dict_get (files (disk (snd out))) (cache_path key) = Some (Doc j)).
Proof.
  intros Hnd Hall. cbv zeta.
  rewrite enrich_run. cbv zeta.
  pose proof (await_as_completed_spec w task
                (List.length (tasks_for field (tokens st)))
                (tasks_for field (tokens st)) st
                (tasks_for_NoDup _ _ Hnd) (le_n _)
                (tasks_for_keys field (tokens st))) as Hspec.
  cbv zeta in Hspec. destruct Hspec as (Hd & _ & Hout & _ & Hres).
  destruct (await_as_completed w task _ _ st) as [[[]|e'] st1]; simpl in *.
  2:{ exfalso. destruct Hres as (t & r & Ht & Hr & He).
      apply tasks_for_selected in Ht as (r' & Hs); auto.
      assert (r' = r) by (destruct Hs; congruence). subst r'.
      rewrite (Hall t r Hs) in He. discriminate. }
  rewrite save_request_cache_tokens.
  split; [reflexivity|]. split.
  - intros t r Hr. destruct (is_none (get r field)) eqn:Hn.
    + apply Hres; auto. apply tasks_for_selected; auto.
      exists r. split; auto. destruct (get r field); simpl in Hn; congruence.
    + rewrite Hout; auto. intros Hin.
      apply tasks_for_selected in Hin as (r' & Hr' & Hnone); auto.
      assert (r' = r) by congruence. subst r'.
      rewrite Hnone in Hn. discriminate.
  - intros Hsave.
    assert (Hsave1 : save_fails key (py_of_tokenmap (tokens st1)) st1 = false).
    { unfold save_fails in *. now rewrite Hd. }
    destruct (to_json_of_serializable (py_of_tokenmap (tokens st1)))
      as [j Hj].
    { now apply save_fails_false in Hsave1. }
    exists j. split; auto.
    rewrite (save_request_cache_ok _ _ _ _ Hsave1 Hj). simpl.
    apply dict_get_set_same.
Qed.

(** A phase that selects nothing changes no record. *)
Lemma enrich_nothing_to_do st :
  tasks_for field (tokens st) = [] ->
  fst (enrich w field task key st) = Ok (tokens st) /\
  tokens (snd (enrich w field task key st)) = tokens st.
Proof.
  intros H. rewrite enrich_run. rewrite H. simpl.
  rewrite save_request_cache_tokens. auto.
Qed.

End Phase.

(** ** The fetch tasks *)




(** ** C1 and C2: the phases *)

Lemma populated_no_tasks field (m : tokenmap) :
  populated field m = true -> tasks_for field m = [].
Proof.
  unfold populated, tasks_for. induction m as [|[k r] t IH]; simpl; auto.
  intros H. apply andb_true_iff in H as [H1 H2].
  apply negb_true_iff in H1. rewrite H1. auto.
Qed.

Lemma populated_spec field (m : tokenmap) :
  populated field m = true <->
  forall t r, In (t, r) m ->
    exists v, dict_get r field = Some v /\ v <> PNone.
Proof.
  unfold populated. rewrite forallb_forall. split.
  - intros H t r Hin. specialize (H _ Hin). simpl in H. unfold get in H.
    destruct (dict_get r field) as [v|]; [|discriminate].
    exists v. split; auto. intros ->. discriminate.
  - intros H [t r] Hin. destruct (H t r Hin) as (v & Hv & Hne).
    simpl. unfold get. rewrite Hv. destruct v; auto; congruence.
Qed.

Lemma emit_run e st :
  emit e st = (Ok tt, mkState (tokens st) (disk st) (trace st ++ [e])).
Proof. reflexivity. Qed.

Lemma bind_ok {S A B} (c : M S A) (k : A -> M S B) s a s' :
  c s = (Ok a, s') -> bind c k s = k a s'.
Proof. unfold bind. now intros ->. Qed.

Lemma save_request_cache_returns key data st :
  exists st', save_request_cache key data st = (Ok tt, st') /\
    tokens st' = tokens st.
Proof.
  exists (snd (save_request_cache key data st)). split.
  - rewrite <- (save_request_cache_never_raises key data st).
    apply surjective_pairing.
  - apply save_request_cache_tokens.
Qed.

Lemma enrich_nothing_returns w field task key st :
  tasks_for field (tokens st) = [] ->
  exists st', enrich w field task key st = (Ok (tokens st), st') /\
    tokens st' = tokens st.
Proof.
  intros H. destruct (enrich_nothing_to_do w field task key st H) as [H1 H2].
  exists (snd (enrich w field task key st)). split; auto.
  rewrite <- H1. apply surjective_pairing.
Qed.

Lemma populate_holders_nothing_to_do w key st :
  populated "holders" (tokens st) = true ->
  exists st', populate_holders_details_async w key st
                = (Ok (tokens st), st') /\
    tokens st' = tokens st.
Proof.
  intros Hp. apply populated_no_tasks in Hp.
  unfold populate_holders_details_async, populate_holders_inner.
  rewrite (bind_ok _ _ _ _ _ (emit_run _ st)).
  set (st1 := mkState _ _ _).
  destruct (enrich_nothing_returns w "holders"
              (get_holder_info_from_solana_async w) key st1 Hp)
    as (st2 & E2 & T2).
  rewrite (bind_ok _ _ _ _ _ E2).
  rewrite (bind_ok (gets tokens) _ st2 (tokens st2) st2 eq_refl).
  destruct (save_request_cache_returns key (py_of_tokenmap (tokens st2)) st2)
    as (st3 & E3 & T3).
  rewrite (bind_ok _ _ _ _ _ E3).
  rewrite (bind_ok _ _ _ _ _ (emit_run _ st3)).
  eexists. split; [reflexivity|]. subst st1. simpl in *. congruence.
Qed.

Lemma populate_account_nothing_to_do w key st :
  populated "account" (tokens st) = true ->
  populated "arweave" (tokens st) = true ->
  exists st', populate_account_details_async w key st
                = (Ok (tokens st), st') /\
    tokens st' = tokens st.
Proof.
  intros Hp Hq. apply populated_no_tasks in Hp, Hq.
  unfold populate_account_details_async, populate_account_inner,
    populate_account_inner2.
  rewrite (bind_ok _ _ _ _ _ (emit_run _ st)).
  set (st1 := mkState _ _ _).
  destruct (enrich_nothing_returns w "account"
              (get_account_info_from_solana_async w) key st1 Hp)
    as (st2 & E2 & T2).
  rewrite (bind_ok _ _ _ _ _ E2).
  rewrite (bind_ok _ _ _ _ _ (emit_run _ st2)).
  rewrite (bind_ok _ _ _ _ _ (emit_run _ _)).
  set (st3 := mkState _ _ _).
  assert (Hq3 : tasks_for "arweave" (tokens st3) = []).
  { simpl. rewrite T2. exact Hq. }
  destruct (enrich_nothing_returns w "arweave"
              (get_arweave_metadata w) key st3 Hq3) as (st4 & E4 & T4).
  rewrite (bind_ok _ _ _ _ _ E4).
  rewrite (bind_ok (gets tokens) _ st4 (tokens st4) st4 eq_refl).
  destruct (save_request_cache_returns key (py_of_tokenmap (tokens st4)) st4)
    as (st5 & E5 & T5).
  rewrite (bind_ok _ _ _ _ _ E5).
  rewrite (bind_ok _ _ _ _ _ (emit_run _ st5)).
  subst st3 st1. simpl in *.
  eexists. split; [unfold ret; do 2 f_equal; congruence|].
  simpl. congruence.
Qed.

(** C2, as the code has it.  A phase creates a task for a record exactly
    when the record answers [None] to [.get(field)]: the field is missing,
    or it is present and holds [None].  Any other present value, empty or
    falsy ones included, is not fetched again.  So over a map in which
    every record has a value other than [None] in the target field, a
    phase creates no task and leaves every record as it is, and so do the
    two orchestrators. *)
Theorem task_created_iff_field_is_none :
  forall (w : remote) (key field : string) (task : M task_state unit)
         (st : state),
    (forall t, In t (tasks_for field (tokens st)) <->
       exists r, In (t, r) (tokens st) /\
         (dict_get r field = None \/ dict_get r field = Some PNone)) /\
    (populated field (tokens st) = true ->
       tasks_for field (tokens st) = [] /\
       fst (enrich w field task key st) = Ok (tokens st) /\
       tokens (snd (enrich w field task key st)) = tokens st) /\
    (populated "holders" (tokens st) = true ->
       fst (populate_holders_details_async w key st) = Ok (tokens st) /\
       tokens (snd (populate_holders_details_async w key st)) = tokens st) /\
    (populated "account" (tokens st) = true ->
     populated "arweave" (tokens st) = true ->
       fst (populate_account_details_async w key st) = Ok (tokens st) /\
       tokens (snd (populate_account_details_async w key st)) = tokens st).
Proof.
  intros w key field task st. split; [|split; [|split]].
  - intros t. rewrite tasks_for_In.
    split; intros (r & H1 & H2); exists r; split; auto;
      now apply get_None_iff.
  - intros Hp. apply populated_no_tasks in Hp. split; [exact Hp|].
    now apply enrich_nothing_to_do.
  - intros Hp.
    destruct (populate_holders_nothing_to_do w key st Hp) as (st' & E & T).
    rewrite E. auto.
  - intros Hp Hq.
    destruct (populate_account_nothing_to_do w key st Hp Hq)
      as (st' & E & T).
    rewrite E. auto.
Qed.

Lemma task_created_iff_field_is_none_witness :
  let st := mkState full_map good_disk [] in
  (tasks_for "holders" full_map = [] /\
   fst (enrich flaky_remote "holders"
          (get_holder_info_from_solana_async flaky_remote) "k" st)
     = Ok full_map /\
   tokens (snd (enrich flaky_remote "holders"
                  (get_holder_info_from_solana_async flaky_remote) "k" st))
     = full_map) /\
  tokens (snd (populate_holders_details_async flaky_remote "k" st))
    = full_map /\
  tokens (snd (populate_account_details_async flaky_remote "k" st))
    = full_map.
Proof.
  intros st.
  destruct (task_created_iff_field_is_none flaky_remote "k" "holders"
              (get_holder_info_from_solana_async flaky_remote) st)
    as (_ & H1 & H2 & H3).
  split; [apply H1; reflexivity|].
  split; [apply H2; reflexivity | apply H3; reflexivity].
Defined.

(** C2 as claimed fails: a metadata document that is the JSON value
    [null] is stored under ['arweave'] as [None]; the field is present,
    and the next run creates a task for the record again. *)
Lemma present_none_field_is_fetched_again :
  (exists r, null_metadata_map = [("tok1", r)] /\
     dict_get r "arweave" = Some PNone) /\
  tasks_for "arweave" null_metadata_map = ["tok1"] /\
  ~ selects_absent_only "arweave" null_metadata_map.
Proof.
  split; [eexists; split; reflexivity|]. split; [reflexivity|].
  intros H.
  destruct (H "tok1"
              (after_task (get_arweave_metadata null_body_remote)
                 (record_with_uri "tok1" (PStr "https://arweave.net/1"))))
    as [H' _]; [left; reflexivity|].
  specialize (H' (or_introl eq_refl)). discriminate.
Qed.









(** ** C4 and C5: the HTTP request *)

Lemma retry_events_sleeps url n :
  List.length (filter is_sleep (retry_events url n)) = n.
Proof. induction n; simpl; auto. Qed.

Lemma retry_events_requests url n :
  List.length (filter is_request (retry_events url n)) = n.
Proof. induction n; simpl; auto. Qed.

Lemma retry_events_all_three_seconds url n e :
  In e (retry_events url n) -> is_sleep e = true -> e = Sleep 3.
Proof.
  induction n; simpl; [tauto|].
  intros [<-|[<-|[<-|H]]]; auto; discriminate.
Qed.

(** [n] answers 429 followed by an answer 200: the body of the latter is
    returned after exactly [n] retries, if the recursion may go that deep. *)
Lemma async_http_request_retries w url body n :
  forall depth attempt ts,
    n < depth ->
    (forall k, k < n ->
       exists resp, session_get w url (attempt + k) = Ok resp /\
         status resp = 429%Z) ->
    (exists resp, session_get w url (attempt + n) = Ok resp /\
       status resp = 200%Z /\ resp_json resp = Ok body) ->
    async_http_request_from w depth url attempt ts =
      (Ok body,
       mkTask (data_dict ts)
         (events ts ++ retry_events url n ++
            [HttpGet url; Log Debug "Successful response for url %s"])).
Proof.
  induction n as [|n IH]; intros depth attempt ts Hd Hbusy Hok.
  - destruct depth as [|depth]; [lia|].
    destruct Hok as (resp & Hr & Hs & Hb). rewrite Nat.add_0_r in Hr.
    simpl. unfold bind, note, modify, lift, ret. simpl.
    rewrite Hr, Hs, Hb. simpl. now rewrite <- app_assoc.
  - destruct depth as [|depth]; [lia|].
    destruct (Hbusy 0) as (resp & Hr & Hs); [lia|].
    rewrite Nat.add_0_r in Hr.
    assert (Hrec := IH depth (S attempt)
      (mkTask (data_dict ts)
         (events ts ++
            [HttpGet url;
             Log Debug "Got status code %s for url %s, sleeping and retrying";
             Sleep 3]))).
    simpl in Hrec.
    simpl. unfold bind, note, modify, lift, ret. simpl.
    rewrite Hr, Hs. simpl.
    repeat rewrite <- app_assoc. simpl.
    rewrite Hrec.
    + simpl. now repeat rewrite <- app_assoc.
    + lia.
    + intros k Hk. destruct (Hbusy (S k)) as (resp' & H1 & H2); [lia|].
      exists resp'. split; auto. now rewrite <- Nat.add_succ_r.
    + destruct Hok as (resp' & H1 & H2). exists resp'. split; auto.
      now rewrite <- Nat.add_succ_r.
Qed.

(** C5, as the code has it.  For a record whose metadata has a non-empty
    URI: if the endpoint answers 429 to the first [n] requests and 200
    with a JSON body to the next one, the metadata task stores that body
    under ['arweave'] after exactly [n] retries, each after a sleep of
    three seconds, for every [n] below the number of nested calls the
    interpreter allows (the code itself counts no retries).  With [n = 1]
    this is the scenario "429 once, then 200". *)
Theorem rate_limited_request_is_retried :
  forall (w : remote) (r : record) (url : string) (body : pyval) (n : nat),
    has_uri r url ->
    url <> "" ->
    n < recursion_limit w ->
    (forall k, k < n ->
       exists resp, session_get w url k = Ok resp /\ status resp = 429%Z) ->
    (exists resp, session_get w url n = Ok resp /\
       status resp = 200%Z /\ resp_json resp = Ok body) ->
    let out := get_arweave_metadata w (mkTask r []) in
    fst out = Ok tt /\
    dict_get (data_dict (snd out)) "arweave" = Some body /\
    events (snd out) =
      retry_events url n ++
        [HttpGet url; Log Debug "Successful response for url %s"] /\
    List.length (filter is_sleep (events (snd out))) = n /\
    List.length (filter is_request (events (snd out))) = S n /\
    (forall e, In e (events (snd out)) -> is_sleep e = true -> e = Sleep 3).
Proof.
  intros w r url body n (account & data & Ha & Hd & Hu) Hurl Hn Hbusy Hok out.
  assert (Hrun : exists r',
    out =
      (Ok tt,
       mkTask (dict_set r' "arweave" body)
         (retry_events url n ++
            [HttpGet url; Log Debug "Successful response for url %s"]))).
  { subst out.
    unfold get_arweave_metadata, async_http_request, bind, lift, gets, item,
      setitem, modify, ret, py_item, py_get, get.
    simpl. rewrite Ha, Hd, Hu.
    apply String.eqb_neq in Hurl.
    destruct (is_none _); simpl; rewrite Hurl; simpl;
      rewrite (async_http_request_retries w url body n); auto;
      eexists; reflexivity. }
  destruct Hrun as [r' Hrun]. rewrite Hrun. simpl.
  split; [reflexivity|]. split; [apply dict_get_set_same|].
  split; [reflexivity|]. split; [|split].
  - rewrite filter_app, length_app, retry_events_sleeps. simpl. lia.
  - rewrite filter_app, length_app, retry_events_requests. simpl. lia.
  - intros e He Hs. apply in_app_or in He as [He|He].
    + eapply retry_events_all_three_seconds; eauto.
    + destruct He as [<-|[<-|[]]]; discriminate.
Qed.

Lemma rate_limited_request_is_retried_witness :
  let out :=
    get_arweave_metadata busy_once_remote
      (mkTask (record_with_uri "tok1" (PStr "https://arweave.net/1")) []) in
  fst out = Ok tt /\
  dict_get (data_dict (snd out)) "arweave" = Some attributes_body /\
  List.length (filter is_sleep (events (snd out))) = 1.
Proof.
  intros out.
  destruct (rate_limited_request_is_retried busy_once_remote
              (record_with_uri "tok1" (PStr "https://arweave.net/1"))
              "https://arweave.net/1" attributes_body 1)
    as (H1 & H2 & _ & H3 & _).
  - eexists. eexists. repeat split; reflexivity.
  - discriminate.
  - vm_compute. lia.
  - intros k Hk. assert (k = 0) by lia. subst k.
    eexists. split; reflexivity.
  - eexists. repeat split; reflexivity.
  - repeat split; assumption.
Defined.

(** C5 as claimed fails: the retries are limited by the number of nested
    calls the interpreter allows, since every retry is a call of the
    function by itself.  With room for three nested calls, an endpoint
    that answers 429 three times and would answer 200 to the fourth
    request gets three requests; the task raises [RecursionError] and the
    body is not stored. *)
Lemma retries_stop_at_the_recursion_limit :
  let url := "https://arweave.net/1" in
  let out :=
    get_arweave_metadata busy_thrice_remote
      (mkTask (record_with_uri "tok1" (PStr url)) []) in
  (forall k, k < 3 ->
     exists resp, session_get busy_thrice_remote url k = Ok resp /\
       status resp = 429%Z) /\
  (exists resp, session_get busy_thrice_remote url 3 = Ok resp /\
     status resp = 200%Z /\ resp_json resp = Ok attributes_body) /\
  fst out = Raise RecursionError /\
  dict_get (data_dict (snd out)) "arweave" = Some (PDict []) /\
  List.length (filter is_request (events (snd out))) = 3 /\
  List.length (filter is_sleep (events (snd out))) = 3.
Proof.
  intros url out. split; [|split].
  - intros k Hk.
    destruct k as [|[|[|k]]]; try lia; eexists; split; reflexivity.
  - eexists. repeat split; reflexivity.
  - repeat split; reflexivity.
Qed.

(** A status that is neither 200 nor 429: one request, an error record,
    and then the success path of lines 282-284. *)
Lemma async_http_request_other_status w url depth attempt ts resp :
  session_get w url attempt = Ok resp ->
  status resp <> 200%Z -> status resp <> 429%Z ->
  async_http_request_from w (S depth) url attempt ts =
    (resp_json resp,
     mkTask (data_dict ts)
       (events ts ++
          [HttpGet url;
           Log Error "HTTP request for %s failed with status %s: %s";
           Log Debug "Successful response for url %s"])).
Proof.
  intros Hr H200 H429. apply Z.eqb_neq in H200, H429.
  simpl. unfold bind, note, modify, lift, ret. simpl.
  rewrite Hr, H200, H429. simpl.
  repeat rewrite <- app_assoc. simpl.
  destruct (resp_json resp); reflexivity.
Qed.

(** C4 fails on the code: after a 404 answer with a JSON body the task
    logs the error, makes no second request, and stores the error body
    under ['arweave'] instead of the empty object. *)
Theorem error_body_is_stored_as_metadata :
  let out :=
    get_arweave_metadata not_found_remote
      (mkTask (record_with_uri "tok1" (PStr "https://arweave.net/1")) []) in
  fst out = Ok tt /\
  dict_get (data_dict (snd out)) "arweave" = Some not_found_body /\
  not_found_body <> PDict [] /\
  events (snd out) =
    [HttpGet "https://arweave.net/1";
     Log Error "HTTP request for %s failed with status %s: %s";
     Log Debug "Successful response for url %s"].
Proof. vm_compute. repeat split. discriminate. Qed.

(** ** Dictionaries keyed by Python values *)

Lemma key_beq_eq a b : key_beq a b = true <-> a = b.
Proof.
  destruct a, b; simpl; split; intros H; try discriminate; try reflexivity.
  - apply Z.eqb_eq in H. congruence.
  - injection H as ->. apply Z.eqb_refl.
  - apply String.eqb_eq in H. congruence.
  - injection H as ->. apply String.eqb_refl.
  - apply String.eqb_eq in H. congruence.
  - injection H as ->. apply String.eqb_refl.
Qed.

Lemma key_eqb_eq a b : key_eqb a b = true <-> key_of a = key_of b.
Proof. apply key_beq_eq. Qed.

Lemma key_eqb_refl a : key_eqb a a = true.
Proof. now apply key_eqb_eq. Qed.

Lemma key_eqb_sym a b : key_eqb a b = key_eqb b a.
Proof.
  destruct (key_eqb a b) eqn:E1, (key_eqb b a) eqn:E2; auto.
  - apply key_eqb_eq in E1. symmetry in E1. apply key_eqb_eq in E1. congruence.
  - apply key_eqb_eq in E2. symmetry in E2. apply key_eqb_eq in E2. congruence.
Qed.

(** Two values that are the same key look up the same entries. *)
Lemma key_eqb_compat a b c :
  key_eqb a b = true -> key_eqb a c = key_eqb b c.
Proof.
  intros H. apply key_eqb_eq in H. unfold key_eqb. now rewrite H.
Qed.

Lemma kd_get_compat {V} (d : kdict V) a b :
  key_eqb a b = true -> kd_get d a = kd_get d b.
Proof.
  intros H. induction d as [|[k v] t IH]; simpl; auto.
  rewrite (key_eqb_sym k a), (key_eqb_sym k b), (key_eqb_compat a b k H).
  now rewrite IH.
Qed.

Lemma kd_get_set {V} (d : kdict V) k v k' :
  kd_get (kd_set d k v) k' = if key_eqb k k' then Some v else kd_get d k'.
Proof.
  induction d as [|[k0 v0] t IH]; simpl.
  - reflexivity.
  - destruct (key_eqb k0 k) eqn:E; simpl.
    + rewrite <- (key_eqb_compat k0 k k' E).
      destruct (key_eqb k0 k'); reflexivity.
    + destruct (key_eqb k0 k') eqn:E'; [|exact IH].
      destruct (key_eqb k k') eqn:E''; [|reflexivity].
      exfalso. apply key_eqb_eq in E', E''.
      assert (key_eqb k0 k = true) by (apply key_eqb_eq; congruence).
      congruence.
Qed.

Lemma sum_values_set (d : kdict Z) k v :
  sum_values (kd_set d k v) = (sum_values d - count_of d k + v)%Z.
Proof.
  unfold sum_values, count_of.
  induction d as [|[k0 v0] t IH]; simpl.
  - lia.
  - destruct (key_eqb k0 k); simpl; [lia|]. rewrite IH. lia.
Qed.

Lemma count_of_set (d : kdict Z) k v k' :
  count_of (kd_set d k v) k' = if key_eqb k k' then v else count_of d k'.
Proof.
  unfold count_of. rewrite kd_get_set. now destruct (key_eqb k k').
Qed.

(** One increment adds one to the count of its key and to the total. *)
Lemma increment_spec (d : kdict Z) k :
  hashable k = true ->
  exists d', increment d k = Ok d' /\
    (forall k', count_of d' k' =
       (count_of d k' + if key_eqb k k' then 1 else 0)%Z) /\
    sum_values d' = (sum_values d + 1)%Z.
Proof.
  intros Hk. unfold increment. rewrite Hk.
  set (d1 := if no_count (kd_get d k) then kd_set d k 0%Z else d).
  assert (H1 : forall k', count_of d1 k' = count_of d k').
  { intros k'. subst d1. destruct (no_count (kd_get d k)) eqn:Hn; auto.
    rewrite count_of_set. destruct (key_eqb k k') eqn:E; auto.
    unfold count_of. rewrite <- (kd_get_compat d k k' E).
    unfold no_count in Hn. destruct (kd_get d k); auto.
    apply Z.eqb_eq in Hn. auto. }
  assert (H2 : sum_values d1 = sum_values d).
  { subst d1. destruct (no_count (kd_get d k)) eqn:Hn; auto.
    rewrite sum_values_set. unfold count_of.
    unfold no_count in Hn. destruct (kd_get d k); [|lia].
    apply Z.eqb_eq in Hn. lia. }
  assert (H3 : exists n, kd_get d1 k = Some n).
  { subst d1. destruct (no_count (kd_get d k)) eqn:Hn.
    - rewrite kd_get_set, key_eqb_refl. eauto.
    - unfold no_count in Hn. destruct (kd_get d k); eauto. discriminate. }
  destruct H3 as [n Hn]. rewrite Hn. eexists. split; [reflexivity|]. split.
  - intros k'. rewrite count_of_set. rewrite <- H1.
    destruct (key_eqb k k') eqn:E; [|lia].
    unfold count_of. rewrite <- (kd_get_compat d1 k k' E), Hn. lia.
  - rewrite sum_values_set, H2. unfold count_of. rewrite Hn. lia.
Qed.

(** ** Holder counts: the loop *)

Lemma holder_address_of_owner_info r :
  has_owner_info r = true ->
  holder_address_of r = Ok (resolved_address r) /\
  hashable (resolved_address r) = true.
Proof.
  unfold has_owner_info, holder_address_of, resolved_address, py_item,
    py_get, get.
  destruct (dict_get r "holders") as [[| | | | | |h]|]; try discriminate.
  destruct (dict_get h "info") as [[| | | | | |info]|]; try discriminate.
  intros H. split; [reflexivity|].
  unfold py_or. destruct (truthy _); auto.
Qed.

Lemma count_if_cons {A} (p : A -> bool) x l :
  count_if p (x :: l) = ((if p x then 1 else 0) + count_if p l)%Z.
Proof.
  unfold count_if. simpl filter.
  destruct (p x); [simpl List.length; rewrite Nat2Z.inj_succ|]; lia.
Qed.

Lemma holder_counts_loop rs : forall counts,
  forallb has_owner_info rs = true ->
  exists counts',
    for_each rs holder_counts_step counts = (Ok tt, counts') /\
    (forall a, count_of counts' a =
       (count_of counts a
        + count_if (fun r => key_eqb (resolved_address r) a) rs)%Z) /\
    sum_values counts' = (sum_values counts + Z.of_nat (List.length rs))%Z.
Proof.
  induction rs as [|r rs IH]; intros counts Hwf.
  - exists counts. split; [reflexivity|]. split.
    + intros a. unfold count_if. simpl. lia.
    + simpl. lia.
  - simpl in Hwf. apply andb_true_iff in Hwf as [Hr Hrs].
    destruct (holder_address_of_owner_info r Hr) as [Ha Hh].
    destruct (increment_spec counts _ Hh) as (c1 & Hinc & Hc1 & Hs1).
    destruct (IH c1 Hrs) as (c2 & Hloop & Hc2 & Hs2).
    exists c2. split; [|split].
    + simpl. unfold bind, holder_counts_step, lift, bind.
      rewrite Ha, Hinc. exact Hloop.
    + intros a. rewrite Hc2, Hc1, count_if_cons. lia.
    + rewrite Hs2, Hs1. simpl List.length. rewrite Nat2Z.inj_succ. lia.
Qed.

(** What the loop of [holder_counts] builds when the [holders] field of
    every record holds an [info] dictionary. *)
Lemma count_holders_spec :
  forall (m : tokenmap),
    forallb has_owner_info (map snd m) = true ->
    exists counts,
      count_holders m = Ok counts /\
      sum_values counts = Z.of_nat (List.length m) /\
      (forall a, count_of counts a =
         count_if (fun r => key_eqb (resolved_address r) a) (map snd m)) /\
      (forall t r h info, In (t, r) m ->
         dict_get r "holders" = Some (PDict h) ->
         dict_get h "info" = Some (PDict info) ->
         truthy (get info "owner") = false ->
         resolved_address r = PStr "UNKNOWN_ADDRESS" /\
         (1 <= count_of counts (PStr "UNKNOWN_ADDRESS"))%Z).
Proof.
  intros m Hwf.
  destruct (holder_counts_loop (map snd m) [] Hwf) as (counts & Hrun & Hc & Hs).
  exists counts. unfold count_holders. rewrite Hrun.
  split; [reflexivity|]. split; [|split].
  - rewrite Hs, length_map. reflexivity.
  - intros a. rewrite Hc. reflexivity.
  - intros t r h info Hin Hh Hi Ho.
    assert (Hres : resolved_address r = PStr "UNKNOWN_ADDRESS").
    { unfold resolved_address. rewrite Hh, Hi. unfold py_or. now rewrite Ho. }
    split; [exact Hres|].
    rewrite Hc. change (count_of [] (PStr "UNKNOWN_ADDRESS")) with 0%Z.
    apply (in_map snd) in Hin. simpl in Hin.
    assert (Hf : In r (filter
                        (fun r => key_eqb (resolved_address r)
                                    (PStr "UNKNOWN_ADDRESS"))
                        (map snd m))).
    { apply filter_In. split; auto. rewrite Hres. apply key_eqb_refl. }
    unfold count_if.
    destruct (filter _ (map snd m));
      [destruct Hf | simpl List.length; rewrite Nat2Z.inj_succ; lia].
Qed.

(** ** Trait distribution: the loop *)

Lemma count_if_nil {A} (p : A -> bool) : count_if p [] = 0%Z.
Proof. reflexivity. Qed.

Lemma count_if_app {A} (p : A -> bool) l1 l2 :
  count_if p (l1 ++ l2) = (count_if p l1 + count_if p l2)%Z.
Proof.
  unfold count_if. rewrite filter_app, length_app. lia.
Qed.

Lemma counted_nil ac : counted ac ac [].
Proof. split; intros; rewrite count_if_nil; lia. Qed.

Lemma counted_app ac1 ac2 ac3 l1 l2 :
  counted ac1 ac2 l1 -> counted ac2 ac3 l2 -> counted ac1 ac3 (l1 ++ l2).
Proof.
  intros [H1 H2] [H3 H4]. split; intros.
  - rewrite H3, H1, count_if_app. lia.
  - rewrite H4, H2, count_if_app. lia.
Qed.

Lemma ensure_trait_values ac t t' :
  values_of (ensure_trait ac t) t' = values_of ac t'.
Proof.
  unfold ensure_trait, values_of.
  destruct (kd_get ac t) as [[|x l]|] eqn:E; auto;
    rewrite kd_get_set; destruct (key_eqb t t') eqn:Et; auto;
    now rewrite <- (kd_get_compat ac t t' Et), E.
Qed.

Lemma ensure_trait_get ac t :
  kd_get (ensure_trait ac t) t = Some (values_of ac t).
Proof.
  unfold ensure_trait, values_of.
  destruct (kd_get ac t) as [[|x l]|] eqn:E; auto;
    now rewrite kd_get_set, key_eqb_refl.
Qed.

Lemma values_of_set ac t d t' :
  values_of (kd_set ac t d) t' =
    if key_eqb t t' then d else values_of ac t'.
Proof.
  unfold values_of. rewrite kd_get_set. now destruct (key_eqb t t').
Qed.

Lemma values_of_compat ac t t' :
  key_eqb t t' = true -> values_of ac t = values_of ac t'.
Proof.
  intros H. unfold values_of. now rewrite (kd_get_compat ac t t' H).
Qed.

Lemma count_attribute_spec a st :
  wf_attribute a = true ->
  exists ac',
    count_attribute a st =
      (Ok tt,
       mkTraits (tokens_with_attributes_total st) ac' (trait_log st)) /\
    counted (attribute_counts st) ac' [a].
Proof.
  destruct a as [| | | | | |d]; try discriminate. simpl.
  destruct (dict_get d "trait_type") as [t0|] eqn:Ht; [|discriminate].
  destruct (dict_get d "value") as [v0|] eqn:Hv; [|discriminate].
  intros Hh. apply andb_true_iff in Hh as [Hht Hhv].
  set (value := if is_none v0 then PStr "" else v0).
  assert (Hvalue : hashable value = true).
  { subst value. destruct (is_none v0); auto. }
  destruct (increment_spec (values_of (attribute_counts st) t0) value Hvalue)
    as (inner' & Hinc & Hcount & Hsum).
  exists (kd_set (ensure_trait (attribute_counts st) t0) t0 inner').
  split.
  - unfold count_attribute, bind, lift, py_item. rewrite Ht, Hv.
    fold value. rewrite Hht, ensure_trait_get, Hinc. reflexivity.
  - assert (Htr : trait_of (PDict d) = t0).
    { simpl. unfold get. now rewrite Ht. }
    assert (Hva : value_of (PDict d) = value).
    { simpl. unfold get. now rewrite Hv. }
    split.
    + intros t. rewrite count_if_cons, count_if_nil, Htr.
      rewrite values_of_set, ensure_trait_values.
      destruct (key_eqb t0 t) eqn:E.
      * rewrite Hsum, (values_of_compat _ _ _ E). lia.
      * lia.
    + intros t v. rewrite count_if_cons, count_if_nil, Htr, Hva.
      rewrite values_of_set, ensure_trait_values.
      destruct (key_eqb t0 t) eqn:E; simpl.
      * rewrite Hcount, (values_of_compat _ _ _ E). lia.
      * lia.
Qed.

Lemma count_attributes_loop l : forall st,
  forallb wf_attribute l = true ->
  exists ac',
    for_each l count_attribute st =
      (Ok tt,
       mkTraits (tokens_with_attributes_total st) ac' (trait_log st)) /\
    counted (attribute_counts st) ac' l.
Proof.
  induction l as [|a l IH]; intros st Hwf.
  - exists (attribute_counts st). split; [|apply counted_nil].
    destruct st; reflexivity.
  - simpl in Hwf. apply andb_true_iff in Hwf as [Ha Hl].
    destruct (count_attribute_spec a st Ha) as (ac1 & Hrun1 & Hc1).
    destruct (IH (mkTraits (tokens_with_attributes_total st) ac1
                    (trait_log st)) Hl) as (ac2 & Hrun2 & Hc2).
    exists ac2. split.
    + simpl. unfold bind. rewrite Hrun1. exact Hrun2.
    + change (a :: l) with ([a] ++ l). eapply counted_app; eauto.
Qed.

Lemma attribute_distribution_step_spec item st :
  wf_metadata (snd item) = true ->
  exists ac' lg,
    attribute_distribution_step item st =
      (Ok tt,
       mkTraits
         (tokens_with_attributes_total st
          + if has_attributes (snd item) then 1 else 0)%Z
         ac' lg) /\
    counted (attribute_counts st) ac' (attributes_of (snd item)).
Proof.
  destruct item as [token r]. simpl.
  unfold wf_metadata, attribute_distribution_step, has_attributes,
    attributes_of, bind, lift, py_item, py_get. simpl.
  destruct (dict_get r "arweave") as [[| | | | | |a]|]; try discriminate.
  destruct (get a "attributes") as [|b|z|s|s|l|d] eqn:Hattr; simpl;
    intros Hwf;
    try (apply negb_true_iff in Hwf; rewrite Hwf);
    try (exists (attribute_counts st); eexists; split;
         [unfold modify; rewrite Z.add_0_r; reflexivity | apply counted_nil]).
  destruct l as [|x l].
  - exists (attribute_counts st). eexists. split;
      [unfold modify; rewrite Z.add_0_r; reflexivity | apply counted_nil].
  - destruct (count_attributes_loop (x :: l)
                (mkTraits (tokens_with_attributes_total st + 1)%Z
                   (attribute_counts st) (trait_log st)) Hwf)
      as (ac' & Hrun & Hc).
    exists ac'. eexists. split; [|exact Hc].
    unfold modify, py_iter. exact Hrun.
Qed.

Lemma attribute_distribution_loop m : forall st,
  forallb wf_metadata (map snd m) = true ->
  exists ac' lg,
    for_each m attribute_distribution_step st =
      (Ok tt,
       mkTraits
         (tokens_with_attributes_total st
          + count_if has_attributes (map snd m))%Z
         ac' lg) /\
    counted (attribute_counts st) ac' (all_attributes m).
Proof.
  induction m as [|item m IH]; intros st Hwf.
  - exists (attribute_counts st), (trait_log st). split; [|apply counted_nil].
    simpl. rewrite count_if_nil, Z.add_0_r. destruct st; reflexivity.
  - simpl in Hwf. apply andb_true_iff in Hwf as [Hi Hm].
    destruct (attribute_distribution_step_spec item st Hi)
      as (ac1 & lg1 & Hrun1 & Hc1).
    destruct (IH (mkTraits
                    (tokens_with_attributes_total st
                     + if has_attributes (snd item) then 1 else 0)%Z
                    ac1 lg1) Hm) as (ac2 & lg2 & Hrun2 & Hc2).
    exists ac2, lg2. split.
    + simpl for_each. unfold bind. rewrite Hrun1, Hrun2. simpl.
      rewrite count_if_cons. do 2 f_equal. lia.
    + simpl. eapply counted_app; eauto.
Qed.

Lemma count_if_all_attributes (p : pyval -> bool) (m : tokenmap) :
  count_if p (all_attributes m) =
    fold_right Z.add 0%Z
      (map (fun r => count_if p (attributes_of r)) (map snd m)).
Proof.
  unfold all_attributes. induction m as [|item m IH]; simpl.
  - reflexivity.
  - rewrite count_if_app, IH. reflexivity.
Qed.

Lemma count_if_indicator {A} (p : A -> bool) l :
  count_if p l = fold_right Z.add 0%Z (map (fun x => if p x then 1 else 0)%Z l).
Proof.
  induction l as [|x l IH]; simpl.
  - reflexivity.
  - rewrite count_if_cons, IH. reflexivity.
Qed.

Lemma existsb_pointwise {A} (p q : A -> bool) l :
  (forall x, p x = q x) -> existsb p l = existsb q l.
Proof.
  intros H. induction l as [|x l IH]; simpl; auto. now rewrite H, IH.
Qed.

(** In a list without repeated trait types at most one attribute has a
    given type. *)
Lemma distinct_traits_count l t :
  distinct_traits l = true ->
  count_if (fun a => key_eqb (trait_of a) t) l =
    if existsb (fun a => key_eqb (trait_of a) t) l then 1%Z else 0%Z.
Proof.
  induction l as [|a l IH]; simpl; intros Hd.
  - reflexivity.
  - apply andb_true_iff in Hd as [Ha Hl]. apply negb_true_iff in Ha.
    rewrite count_if_cons, (IH Hl).
    destruct (key_eqb (trait_of a) t) eqn:E; simpl; [|lia].
    assert (Hnone : existsb (fun a0 => key_eqb (trait_of a0) t) l = false).
    { rewrite <- Ha. apply existsb_pointwise. intros b.
      rewrite (key_eqb_sym (trait_of b) t), (key_eqb_sym (trait_of a) _).
      rewrite (key_eqb_sym (trait_of b) (trait_of a)).
      symmetry. apply key_eqb_compat. exact E. }
    rewrite Hnone. lia.
Qed.

Lemma count_if_le {A} (p q : A -> bool) l :
  (forall x, In x l -> p x = true -> q x = true) ->
  (count_if p l <= count_if q l)%Z.
Proof.
  induction l as [|x l IH]; intros H.
  - rewrite !count_if_nil. lia.
  - rewrite !count_if_cons.
    assert (count_if p l <= count_if q l)%Z.
    { apply IH. intros y Hy. apply H. now right. }
    destruct (p x) eqn:Ep.
    + rewrite (H x (or_introl eq_refl) Ep). lia.
    + destruct (q x); lia.
Qed.

Lemma distinct_traits_tokens (m : tokenmap) t :
  forallb distinct_traits (map attributes_of (map snd m)) = true ->
  count_if (fun a => key_eqb (trait_of a) t) (all_attributes m) =
    tokens_with_trait t m.
Proof.
  intros Hd. rewrite count_if_all_attributes.
  unfold tokens_with_trait. rewrite count_if_indicator.
  induction (map snd m) as [|r rs IH]; simpl in *.
  - reflexivity.
  - apply andb_true_iff in Hd as [Hr Hrs].
    rewrite (distinct_traits_count _ t Hr), (IH Hrs). reflexivity.
Qed.

(** What the loop of [attribute_distribution] builds when the [arweave]
    field of every record is a dictionary with no attributes or a list of
    attributes with hashable trait types and values. *)
Lemma count_attributes_spec :
  forall (m : tokenmap),
    forallb wf_metadata (map snd m) = true ->
    exists total counts,
      count_attributes m = Ok (total, counts) /\
      total = count_if has_attributes (map snd m) /\
      (forall t,
         sum_values (values_of counts t) =
           count_if (fun a => key_eqb (trait_of a) t) (all_attributes m)) /\
      (forall t v,
         count_of (values_of counts t) v =
           count_if (fun a => key_eqb (trait_of a) t
                              && key_eqb (value_of a) v)
             (all_attributes m)) /\
      (forall d, raw_value_of (PDict d) = PNone ->
         value_of (PDict d) = PStr "") /\
      (forallb distinct_traits (map attributes_of (map snd m)) = true ->
       forall t,
         sum_values (values_of counts t) = tokens_with_trait t m /\
         (sum_values (values_of counts t) <= total)%Z).
Proof.
  intros m Hwf.
  destruct (attribute_distribution_loop m (mkTraits 0 [] []) Hwf)
    as (ac & lg & Hrun & Hsum & Hcount).
  exists (count_if has_attributes (map snd m)), ac.
  unfold count_attributes. rewrite Hrun. simpl.
  split; [reflexivity|]. split; [reflexivity|].
  assert (Hs : forall t,
             sum_values (values_of ac t) =
               count_if (fun a => key_eqb (trait_of a) t) (all_attributes m)).
  { intros t. rewrite Hsum. reflexivity. }
  split; [exact Hs|]. split; [|split].
  - intros t v. rewrite Hcount. reflexivity.
  - intros d Hd. simpl in *. now rewrite Hd.
  - intros Hd t. rewrite Hs, (distinct_traits_tokens m t Hd).
    split; [reflexivity|].
    unfold tokens_with_trait. apply count_if_le.
    intros r _ Hex. unfold has_attributes.
    destruct (attributes_of r); [discriminate | reflexivity].
Qed.

(** ** C9: the holder report *)

(** The order on strings is a strict total order. *)
Lemma string_compare_refl s : String.compare s s = Eq.
Proof.
  induction s as [|c s IH]; simpl; auto.
  unfold Ascii.compare. now rewrite N.compare_refl.
Qed.

Lemma string_compare_lt_trans a : forall b c,
  String.compare a b = Lt -> String.compare b c = Lt ->
  String.compare a c = Lt.
Proof.
  induction a as [|x a IH]; intros [|y b] [|z c]; simpl; auto;
    try discriminate.
  destruct (Ascii.compare x y) eqn:Exy; try discriminate;
    destruct (Ascii.compare y z) eqn:Eyz; try discriminate; intros H1 H2.
  - apply Ascii.compare_eq_iff in Exy, Eyz. subst.
    unfold Ascii.compare. rewrite N.compare_refl. eauto.
  - apply Ascii.compare_eq_iff in Exy. subst. now rewrite Eyz.
  - apply Ascii.compare_eq_iff in Eyz. subst. now rewrite Exy.
  - unfold Ascii.compare in *.
    apply N.compare_lt_iff in Exy. apply N.compare_lt_iff in Eyz.
    assert (H : (N_of_ascii x ?= N_of_ascii z)%N = Lt)
      by (apply N.compare_lt_iff; eapply N.lt_trans; eauto).
    now rewrite H.
Qed.

Lemma string_ltb_irrefl s : String.ltb s s = false.
Proof. unfold String.ltb. now rewrite string_compare_refl. Qed.

Lemma string_ltb_trans a b c :
  String.ltb a b = true -> String.ltb b c = true -> String.ltb a c = true.
Proof.
  unfold String.ltb.
  destruct (String.compare a b) eqn:E1; try discriminate.
  destruct (String.compare b c) eqn:E2; try discriminate.
  now rewrite (string_compare_lt_trans a b c E1 E2).
Qed.

Lemma string_ltb_total a b :
  a <> b -> String.ltb a b = false -> String.ltb b a = true.
Proof.
  unfold String.ltb. intros Hne.
  rewrite (String.compare_antisym b a).
  destruct (String.compare a b) eqn:E; simpl; auto; try discriminate.
  apply String.compare_eq_iff in E. contradiction.
Qed.

(** So is the order on tuples. *)
Lemma tuple_ltb_spec a b :
  tuple_ltb a b = true <->
  (fst a < fst b)%Z \/ (fst a = fst b /\ String.ltb (snd a) (snd b) = true).
Proof.
  unfold tuple_ltb. rewrite orb_true_iff, andb_true_iff, Z.ltb_lt, Z.eqb_eq.
  tauto.
Qed.

Lemma tuple_ltb_irrefl a : tuple_ltb a a = false.
Proof.
  destruct (tuple_ltb a a) eqn:E; auto.
  apply tuple_ltb_spec in E as [E|[_ E]]; [lia|].
  now rewrite string_ltb_irrefl in E.
Qed.

Lemma tuple_ltb_trans a b c :
  tuple_ltb a b = true -> tuple_ltb b c = true -> tuple_ltb a c = true.
Proof.
  rewrite !tuple_ltb_spec. intros [H1|[H1 H1']] [H2|[H2 H2']].
  - left; lia.
  - left; lia.
  - left; lia.
  - right. split; [lia|]. eapply string_ltb_trans; eauto.
Qed.

Lemma tuple_ltb_total a b :
  a <> b -> tuple_ltb a b = false -> tuple_ltb b a = true.
Proof.
  intros Hne H. apply tuple_ltb_spec.
  destruct (Z.lt_trichotomy (fst a) (fst b)) as [Hlt|[Heq|Hgt]].
  - exfalso. assert (tuple_ltb a b = true) by (apply tuple_ltb_spec; auto).
    congruence.
  - right. split; [lia|]. apply string_ltb_total.
    + intros Hs. apply Hne. destruct a, b; simpl in *; congruence.
    + destruct (String.ltb (snd a) (snd b)) eqn:E; auto.
      assert (tuple_ltb a b = true) by (apply tuple_ltb_spec; auto).
      congruence.
  - left; lia.
Qed.

(** The sort returns a permutation of its input, strictly ascending when
    the input has no duplicates. *)
Lemma insert_sorted_perm x l : Permutation (insert_sorted x l) (x :: l).
Proof.
  induction l as [|y t IH]; simpl; auto.
  destruct (tuple_ltb y x); auto.
  rewrite IH. apply perm_swap.
Qed.

Lemma sort_ascending_perm l : Permutation (sort_ascending l) l.
Proof.
  induction l as [|x t IH]; simpl; auto.
  rewrite insert_sorted_perm. now constructor.
Qed.

Lemma insert_sorted_ascending x l :
  ~ In x l ->
  StronglySorted (fun a b => tuple_ltb a b = true) l ->
  StronglySorted (fun a b => tuple_ltb a b = true) (insert_sorted x l).
Proof.
  induction l as [|y t IH]; simpl; intros Hx Hs.
  - constructor; constructor.
  - inversion Hs as [|? ? Hs' Hall]; subst.
    destruct (tuple_ltb y x) eqn:E.
    + constructor; [apply IH; tauto|].
      rewrite Forall_forall. intros z Hz.
      apply (Permutation_in _ (insert_sorted_perm x t)) in Hz.
      destruct Hz as [<-|Hz]; auto.
      rewrite Forall_forall in Hall. auto.
    + assert (Hxy : tuple_ltb x y = true).
      { apply tuple_ltb_total; [|exact E]. intros ->. apply Hx. now left. }
      apply SSorted_cons; [exact Hs|].
      apply Forall_cons; [exact Hxy|].
      rewrite Forall_forall in *. intros z Hz.
      eapply tuple_ltb_trans; eauto.
Qed.

Lemma sort_ascending_sorted l :
  NoDup l ->
  StronglySorted (fun a b => tuple_ltb a b = true) (sort_ascending l).
Proof.
  induction l as [|x t IH]; simpl; intros Hnd.
  - constructor.
  - inversion Hnd as [|? ? Hx Ht]; subst.
    apply insert_sorted_ascending; auto.
    intros Hin. apply Hx.
    eapply Permutation_in; [apply sort_ascending_perm | exact Hin].
Qed.

Lemma StronglySorted_app_one {A} (R : A -> A -> Prop) l x :
  StronglySorted R l -> Forall (fun y => R y x) l ->
  StronglySorted R (l ++ [x]).
Proof.
  induction l as [|a t IH]; simpl; intros Hs Hall.
  - constructor; constructor.
  - inversion Hs as [|? ? Hs' Ha]; subst.
    inversion Hall as [|? ? Hax Ht]; subst.
    constructor; auto. apply Forall_app. split; auto.
Qed.

Lemma StronglySorted_rev {A} (R : A -> A -> Prop) l :
  StronglySorted R l -> StronglySorted (fun a b => R b a) (rev l).
Proof.
  induction l as [|a t IH]; simpl; intros Hs.
  - constructor.
  - inversion Hs as [|? ? Hs' Ha]; subst.
    apply StronglySorted_app_one; auto.
    rewrite Forall_forall in *. intros y Hy. apply Ha.
    now apply in_rev.
Qed.

Lemma sorted_reverse_spec l :
  NoDup l ->
  Permutation (sorted l true) l /\
  StronglySorted (fun a b => tuple_ltb b a = true) (sorted l true).
Proof.
  intros Hnd. unfold sorted. split.
  - rewrite <- Permutation_rev, sort_ascending_perm.
    symmetry. apply Permutation_rev.
  - apply StronglySorted_rev. apply sort_ascending_sorted.
    eapply Permutation_NoDup; [apply Permutation_rev | exact Hnd].
Qed.

(** [dict] of pairs with distinct keys keeps the pairs as they are. *)
Lemma dict_set_fresh {V} (d : dict V) k v :
  ~ In k (dict_keys d) -> dict_set d k v = d ++ [(k, v)].
Proof.
  induction d as [|[k0 v0] t IH]; simpl; intros H; auto.
  destruct (k0 =? k) eqn:E.
  - apply String.eqb_eq in E. tauto.
  - rewrite IH; tauto.
Qed.

Lemma dict_of_pairs_distinct {V} (l : list (string * V)) :
  NoDup (map fst l) -> dict_of_pairs l = l.
Proof.
  unfold dict_of_pairs.
  enough (H : forall acc, NoDup (map fst (acc ++ l)) ->
            fold_left (fun d kv => dict_set d (fst kv) (snd kv)) l acc
              = acc ++ l) by (apply (H [])).
  induction l as [|[k v] t IH]; intros acc Hnd; simpl.
  - now rewrite app_nil_r.
  - rewrite dict_set_fresh.
    + rewrite IH; rewrite <- app_assoc; auto.
    + rewrite map_app in Hnd. simpl in Hnd.
      apply NoDup_remove_2 in Hnd. intros Hin. apply Hnd.
      apply in_or_app. now left.
Qed.

Lemma swap_swap (l : list (string * Z)) :
  map (fun vk : Z * string => (snd vk, fst vk))
    (map (fun kv : string * Z => (snd kv, fst kv)) l) = l.
Proof.
  rewrite map_map. rewrite <- (map_id l) at 2.
  apply map_ext. now intros [k v].
Qed.

Lemma sort_dict_by_values_reverse_spec (counts : dict Z) :
  NoDup (dict_keys counts) ->
  Permutation (sort_dict_by_values counts true) counts /\
  StronglySorted outranks (sort_dict_by_values counts true).
Proof.
  intros Hnd. unfold sort_dict_by_values.
  set (tuples := map (fun kv : string * Z => (snd kv, fst kv)) counts).
  assert (Hkeys : map snd tuples = dict_keys counts).
  { subst tuples. unfold dict_keys. rewrite map_map. reflexivity. }
  assert (Hnd' : NoDup tuples).
  { apply (NoDup_map_inv snd). now rewrite Hkeys. }
  destruct (sorted_reverse_spec tuples Hnd') as [Hperm Hsorted].
  rewrite dict_of_pairs_distinct.
  - split.
    + apply Permutation_trans
        with (map (fun vk : Z * string => (snd vk, fst vk)) tuples).
      * now apply Permutation_map.
      * subst tuples. now rewrite swap_swap.
    + clear Hperm. induction Hsorted as [|a l Hs IH Hall]; simpl.
      * constructor.
      * constructor; auto.
        rewrite Forall_forall in *. intros b Hb.
        apply in_map_iff in Hb as (b' & <- & Hb').
        specialize (Hall b' Hb'). apply tuple_ltb_spec in Hall.
        unfold outranks. simpl. destruct Hall as [H|[H1 H2]]; auto.
  - rewrite map_map. simpl.
    eapply Permutation_NoDup; [|rewrite <- Hkeys in Hnd; exact Hnd].
    symmetry. now apply Permutation_map.
Qed.

Lemma string_app_empty_r (s : string) : (s ++ "")%string = s.
Proof. induction s as [|c s IH]; simpl; congruence. Qed.

(** C9.  For a dictionary of counts (its keys are distinct), the report
    lists every address once, in strictly descending order of the pair
    (count, address): counts descend, and equal counts are ordered by
    descending address.  A marketplace address carries its label, any
    other address none.  In the scenario the unknown wallet with 50 tokens
    comes first, unlabelled, then the marketplace wallets with 4, 2 and 1,
    each with its label. *)
Theorem holders_listed_in_descending_order :
  forall (tokens_total : Z) (counts : dict Z),
    NoDup (dict_keys counts) ->
    let listed := sort_dict_by_values counts true in
    Permutation listed counts /\
    StronglySorted outranks listed /\
    print_biggest_holders tokens_total counts =
      [newline;
       ("Total tokens: " ++ str_of_int tokens_total)%string;
       (newline ++ "Biggest holders:" ++ newline ++ "----------")%string]
      ++ map holder_line listed /\
    (forall holder count name,
       dict_get MARKETPLACE_WALLETS holder = Some name ->
       holder_line (holder, count) =
         (holder ++ ": " ++ str_of_int count ++ " (" ++ name ++ ")")%string) /\
    (forall holder count,
       dict_get MARKETPLACE_WALLETS holder = None ->
       holder_line (holder, count) =
         (holder ++ ": " ++ str_of_int count)%string) /\
    print_biggest_holders 300 scenario_counts =
      [newline;
       "Total tokens: 300";
       (newline ++ "Biggest holders:" ++ newline ++ "----------")%string;
       "A: 50";
       "F4ghBzHFNgJxV4wEQDchU5i7n4XWWMBSaq7CuswGiVsr: 4 (DigitalEyes)";
       "4pUQS4Jo2dsfWzt3VgHXy3H6RYnEDd11oWPiaM2rdAPw: 2 (AlphaArt)";
       "3D49QorJyNaL4rcpiynbuS3pRH4Y7EXEM6v6ZGaqfFGK: 1 (Solanart)"].
Proof.
  intros tokens_total counts Hnd listed.
  destruct (sort_dict_by_values_reverse_spec counts Hnd) as [Hperm Hsorted].
  split; [exact Hperm|]. split; [exact Hsorted|].
  split; [reflexivity|]. split; [|split].
  - intros holder count name H. unfold holder_line. simpl fst. now rewrite H.
  - intros holder count H. unfold holder_line. simpl fst. rewrite H.
    simpl snd. now rewrite string_app_empty_r.
  - vm_compute. reflexivity.
Qed.

Lemma holders_listed_in_descending_order_witness :
  Permutation (sort_dict_by_values scenario_counts true) scenario_counts /\
  StronglySorted outranks (sort_dict_by_values scenario_counts true).
Proof.
  destruct (holders_listed_in_descending_order 300 scenario_counts)
    as (H1 & H2 & _).
  - repeat constructor; simpl; intuition discriminate.
  - split; [exact H1 | exact H2].
Defined.

(** ** C10: the Number column *)

Lemma str_find_bounds s c :
  (str_find s c = -1 \/ 0 <= str_find s c < Z.of_nat (String.length s))%Z.
Proof.
  induction s as [|a t IH]; simpl; auto.
  destruct (Ascii.eqb a c); [right; lia|].
  destruct (str_find t c) as [|p|p]; destruct IH as [IH|IH]; lia.
Qed.

Lemma str_find_absent_cons a t c :
  str_find (String a t) c = (-1)%Z <->
  Ascii.eqb a c = false /\ str_find t c = (-1)%Z.
Proof.
  simpl. destruct (Ascii.eqb a c); [split; [discriminate | intros [? _]; discriminate]|].
  destruct (str_find_bounds t c) as [H|H].
  - rewrite H. tauto.
  - destruct (str_find t c) as [|p|p]; split; try lia; intros; try lia;
      destruct H0; lia.
Qed.

(** The position of the first number sign of [pre ++ "#" ++ post] when
    [pre] has none. *)
Lemma str_find_first pre post c :
  str_find pre c = (-1)%Z ->
  str_find (pre ++ String c post) c = Z.of_nat (String.length pre).
Proof.
  induction pre as [|a t IH]; intros H.
  - simpl. now rewrite Ascii.eqb_refl.
  - apply str_find_absent_cons in H as [Ha Ht].
    simpl String.append. simpl str_find. rewrite Ha, (IH Ht).
    simpl String.length. destruct (String.length t); simpl; lia.
Qed.

Lemma str_drop_append pre post :
  str_drop (String.length pre) (pre ++ post) = post.
Proof. induction pre as [|a t IH]; simpl; auto. Qed.

(** The number is what follows the first number sign, and the whole name
    when there is none. *)
Lemma csv_number_spec :
  (forall pre post,
     str_find pre "#"%char = (-1)%Z ->
     csv_number (pre ++ String "#"%char post) = post) /\
  (forall name,
     str_find name "#"%char = (-1)%Z -> csv_number name = name).
Proof.
  split.
  - intros pre post H. unfold csv_number, slice_from.
    rewrite (str_find_first pre post _ H).
    assert (Hlen : String.length (pre ++ String "#"%char post)
                   = S (String.length pre + String.length post)).
    { clear. induction pre as [|a t IH]; simpl; auto. }
    rewrite Hlen.
    replace (Z.of_nat (String.length pre) + 1 <? 0)%Z with false
      by (symmetry; apply Z.ltb_ge; lia).
    rewrite Z.min_l by lia.
    replace (Z.to_nat (Z.of_nat (String.length pre) + 1))
      with (String.length (pre ++ "#")).
    + replace (pre ++ String "#"%char post)%string
        with ((pre ++ "#") ++ post)%string.
      * apply str_drop_append.
      * clear. induction pre as [|a t IH]; simpl; congruence.
    + clear. induction pre as [|a t IH]; [reflexivity|].
      simpl String.append. simpl String.length. rewrite IH. lia.
  - intros name H. unfold csv_number, slice_from. rewrite H. simpl.
    rewrite Z.min_l by lia. reflexivity.
Qed.

Lemma holder_snapshot_step_spec item rows :
  wf_snapshot (snd item) = true ->
  exists row,
    holder_snapshot_step item rows = (Ok tt, rows ++ [row]) /\
    row_of item row.
Proof.
  destruct item as [token r]. unfold wf_snapshot, token_name_of. simpl.
  destruct (dict_get r "holders") as [[| | | | | |h]|] eqn:Hh;
    try discriminate.
  destruct (dict_get r "account") as [[| | | | | |account]|] eqn:Ha;
    try discriminate.
  destruct (dict_get account "data") as [[| | | | | |data]|] eqn:Hd;
    try discriminate.
  destruct (dict_get data "name") as [[| | |name| | |]|] eqn:Hn;
    try discriminate.
  destruct (dict_get h "info") as [[| | | | | |info]|] eqn:Hi;
    try discriminate.
  destruct (dict_get info "tokenAmount") as [[| | | | | |ta]|] eqn:Ht;
    try discriminate.
  intros _. eexists. split.
  - unfold holder_snapshot_step, bind, lift, modify, py_item, py_get, get.
    simpl. rewrite Hh, Ha, Hi, Hd, Hn, Ht. reflexivity.
  - unfold row_of, token_name_of. simpl. rewrite Ha, Hd, Hn.
    eexists _, _, _. split; reflexivity.
Qed.

Lemma holder_snapshot_loop m : forall rows,
  forallb wf_snapshot (map snd m) = true ->
  exists rows',
    for_each m holder_snapshot_step rows = (Ok tt, rows ++ rows') /\
    Forall2 row_of m rows'.
Proof.
  induction m as [|item m IH]; intros rows Hwf.
  - exists []. rewrite app_nil_r. split; [reflexivity | constructor].
  - simpl in Hwf. apply andb_true_iff in Hwf as [Hi Hm].
    destruct (holder_snapshot_step_spec item rows Hi) as (row & Hrun & Hrow).
    destruct (IH (rows ++ [row]) Hm) as (rows' & Hrun' & Hrows).
    exists (row :: rows'). split.
    + simpl. unfold bind. rewrite Hrun, Hrun'. now rewrite <- app_assoc.
    + now constructor.
Qed.

(** C10.  For a map whose records have holder data and a token name, the
    snapshot has one row per record, in order, and the Number column of a
    row is [csv_number] of the token name: the part of the name after its
    first number sign, or the whole name when it has none. *)
Theorem number_column_follows_first_number_sign :
  forall (m : tokenmap),
    forallb wf_snapshot (map snd m) = true ->
    (exists rows, holder_snapshot m = Ok rows /\ Forall2 row_of m rows) /\
    (forall pre post,
       str_find pre "#"%char = (-1)%Z ->
       csv_number (pre ++ String "#"%char post) = post) /\
    (forall name,
       str_find name "#"%char = (-1)%Z -> csv_number name = name).
Proof.
  intros m Hwf. split; [|exact csv_number_spec].
  destruct (holder_snapshot_loop m [] Hwf) as (rows & Hrun & Hrows).
  exists rows. unfold holder_snapshot. rewrite Hrun. auto.
Qed.

Lemma number_column_follows_first_number_sign_witness :
  exists rows,
    holder_snapshot snapshot_map = Ok rows /\
    Forall2 row_of snapshot_map rows /\
    map (fun row => nth 0 row PNone) rows = [PStr "12"; PStr "Genesis"].
Proof.
  destruct (number_column_follows_first_number_sign snapshot_map)
    as ((rows & H1 & H2) & _).
  - reflexivity.
  - exists rows. split; [exact H1|]. split; [exact H2|].
    vm_compute in H1. injection H1 as <-. reflexivity.
Defined.

(** ** The repository's own examples *)

(** The inputs and expected results of [test_sort_dict_by_values] and
    [test_sort_dict_by_values_reverse], and the order of the holders in
    [test_format_biggest_holders] (equal counts: the larger address
    first). *)
Example sort_dict_by_values_test :
  sort_dict_by_values [("a", 2); ("b", 4); ("c", 1); ("d", 3)]%Z false
    = [("c", 1); ("a", 2); ("d", 3); ("b", 4)]%Z.
Proof. reflexivity. Qed.

Example sort_dict_by_values_reverse_test :
  sort_dict_by_values [("a", 2); ("b", 4); ("c", 1); ("d", 3)]%Z true
    = [("b", 4); ("d", 3); ("a", 2); ("c", 1)]%Z.
Proof. reflexivity. Qed.

Example biggest_holders_test_order :
  map holder_line
    (sort_dict_by_values
       [("holder_1", 1); ("holder_2", 3);
        ("GUfCR9mK6azb9vcpsxgXyj7XRPAKJd4KMHTTVvtncGgp", 50);
        ("3D49QorJyNaL4rcpiynbuS3pRH4Y7EXEM6v6ZGaqfFGK", 1);
        ("4pUQS4Jo2dsfWzt3VgHXy3H6RYnEDd11oWPiaM2rdAPw", 2);
        ("F4ghBzHFNgJxV4wEQDchU5i7n4XWWMBSaq7CuswGiVsr", 4)]%Z true)
    = ["GUfCR9mK6azb9vcpsxgXyj7XRPAKJd4KMHTTVvtncGgp: 50 (MagicEden)";
       "F4ghBzHFNgJxV4wEQDchU5i7n4XWWMBSaq7CuswGiVsr: 4 (DigitalEyes)";
       "holder_2: 3";
       "4pUQS4Jo2dsfWzt3VgHXy3H6RYnEDd11oWPiaM2rdAPw: 2 (AlphaArt)";
       "holder_1: 1";
       "3D49QorJyNaL4rcpiynbuS3pRH4Y7EXEM6v6ZGaqfFGK: 1 (Solanart)"].
Proof. vm_compute. reflexivity. Qed.

(** ** Reports over keys of any kind *)

Lemma kd_set_twice {V} (d : kdict V) k a b :
  kd_set (kd_set d k a) k b = kd_set d k b.
Proof.
  induction d as [|[k0 v0] t IH]; simpl.
  - now rewrite key_eqb_refl.
  - destruct (key_eqb k0 k) eqn:E; simpl; rewrite E; [reflexivity|].
    now rewrite IH.
Qed.

Lemma increment_run (d : kdict Z) k :
  hashable k = true ->
  increment d k = Ok (kd_set d k (count_of d k + 1)%Z).
Proof.
  intros Hk. unfold increment, count_of. rewrite Hk.
  destruct (kd_get d k) as [n|] eqn:E; simpl.
  - destruct (n =? 0)%Z eqn:En.
    + apply Z.eqb_eq in En. subst n.
      rewrite kd_get_set, key_eqb_refl, kd_set_twice. reflexivity.
    + rewrite E. reflexivity.
  - rewrite kd_get_set, key_eqb_refl, kd_set_twice. reflexivity.
Qed.

Lemma py_print_run line c :
  py_print line c = (Ok tt, mkConsole (stdout c ++ [line]) (logged c)).
Proof. reflexivity. Qed.

Lemma for_each_print {A} (f : A -> string) (l : list A) : forall c,
  for_each l (fun x => py_print (f x)) c =
    (Ok tt, mkConsole (stdout c ++ map f l) (logged c)).
Proof.
  induction l as [|x t IH]; intros c.
  - simpl. rewrite app_nil_r. now destruct c.
  - simpl. unfold bind at 1. unfold py_print at 1, modify.
    rewrite IH. cbn [stdout logged]. now rewrite <- app_assoc.
Qed.

Lemma insert_entry_Forall (R : Z * pyval -> Prop) x l :
  R x -> Forall R l -> Forall R (insert_entry x l).
Proof.
  intros Hx. induction l as [|y t IH]; simpl; intros Hl.
  - auto.
  - inversion Hl; subst. destruct (entry_lt y x); auto.
Qed.

Lemma sort_entries_Forall (R : Z * pyval -> Prop) l :
  Forall R l -> Forall R (sort_entries l).
Proof.
  induction 1 as [|x t Hx Ht IH]; simpl; [constructor|].
  now apply insert_entry_Forall.
Qed.

Lemma sorted_entries_Forall (R : Z * pyval -> Prop) l reverse listed :
  sorted_entries l reverse = Ok listed -> Forall R l -> Forall R listed.
Proof.
  unfold sorted_entries. destruct (orderable l); [|discriminate].
  intros [= <-] Hl. destruct reverse.
  - apply Forall_rev, sort_entries_Forall, Forall_rev, Hl.
  - now apply sort_entries_Forall.
Qed.

Lemma kd_set_Forall {V} (P : pyval -> Prop) (Q : V -> Prop) (d : kdict V)
  k v :
  Forall (fun kv => P (fst kv) /\ Q (snd kv)) d -> P k -> Q v ->
  Forall (fun kv => P (fst kv) /\ Q (snd kv)) (kd_set d k v).
Proof.
  intros Hd Hk Hv. induction Hd as [|[k0 v0] t [H0 H1] Ht IH]; simpl.
  - repeat constructor; auto.
  - destruct (key_eqb k0 k); constructor; auto.
Qed.

Lemma kdict_of_pairs_Forall {V} (P : pyval -> Prop) (Q : V -> Prop)
  (l : list (pyval * V)) :
  Forall (fun kv => P (fst kv) /\ Q (snd kv)) l ->
  Forall (fun kv => P (fst kv) /\ Q (snd kv)) (kdict_of_pairs l).
Proof.
  unfold kdict_of_pairs.
  assert (H : forall acc,
            Forall (fun kv => P (fst kv) /\ Q (snd kv)) acc ->
            Forall (fun kv => P (fst kv) /\ Q (snd kv)) l ->
            Forall (fun kv => P (fst kv) /\ Q (snd kv))
              (fold_left (fun d kv => kd_set d (fst kv) (snd kv)) l acc)).
  { induction l as [|[k v] t IH]; intros acc Ha Hl; simpl; auto.
    inversion Hl as [|? ? [Hk Hv] Ht]; subst.
    apply IH; auto. now apply kd_set_Forall. }
  intros Hl. apply H; auto.
Qed.

Lemma sort_dict_by_values_any_Forall (P : pyval -> Prop) (Q : Z -> Prop)
  (d : kdict Z) reverse listed :
  sort_dict_by_values_any d reverse = Ok listed ->
  Forall (fun kv => P (fst kv) /\ Q (snd kv)) d ->
  Forall (fun kv => P (fst kv) /\ Q (snd kv)) listed.
Proof.
  unfold sort_dict_by_values_any.
  destruct (sorted_entries _ reverse) as [holder_list|e] eqn:E;
    [|discriminate].
  intros [= <-] Hd. apply kdict_of_pairs_Forall.
  apply Forall_map.
  apply (sorted_entries_Forall
           (fun vk => P (snd vk) /\ Q (fst vk)) _ _ _ E).
  apply Forall_map. revert Hd. apply Forall_impl. intros [k v]. tauto.
Qed.

Lemma comparable_text a b :
  is_text (snd a) = true -> is_text (snd b) = true ->
  comparable a b = true.
Proof.
  destruct a as [x [| | |s| | |]], b as [y [| | |s'| | |]];
    try discriminate.
  intros _ _. unfold comparable, entry_ltb. simpl.
  destruct (x <? y)%Z; [reflexivity|].
  destruct (y <? x)%Z; [reflexivity|].
  destruct (key_eqb (PStr s) (PStr s')); reflexivity.
Qed.

Lemma orderable_text l :
  Forall (fun e => is_text (snd e) = true) l -> orderable l = true.
Proof.
  induction 1 as [|x t Hx Ht IH]; simpl; [reflexivity|].
  rewrite IH, andb_true_r. apply forallb_forall. intros y Hy.
  rewrite Forall_forall in Ht. apply comparable_text; auto.
Qed.

(** A dictionary whose keys are strings can be sorted. *)
Lemma sort_dict_by_values_any_text (d : kdict Z) reverse :
  Forall (fun kv => is_text (fst kv) = true) d ->
  exists listed, sort_dict_by_values_any d reverse = Ok listed.
Proof.
  intros Hd. unfold sort_dict_by_values_any, sorted_entries.
  rewrite orderable_text; [eauto|].
  apply Forall_map. revert Hd. apply Forall_impl. now intros [k v].
Qed.

Lemma print_biggest_holders_any_run tokens_total counts c :
  print_biggest_holders_any tokens_total counts c =
    match sort_dict_by_values_any counts true with
    | Ok listed =>
        (Ok tt,
         mkConsole
           (stdout c ++
            [newline;
             ("Total tokens: " ++ str_of_int tokens_total)%string;
             (newline ++ "Biggest holders:" ++ newline ++ "----------")%string]
            ++ map holder_line_any listed)
           (logged c))
    | Raise e =>
        (Raise e,
         mkConsole
           (stdout c ++
            [newline; ("Total tokens: " ++ str_of_int tokens_total)%string])
           (logged c))
    end.
Proof.
  unfold print_biggest_holders_any, bind, lift.
  rewrite py_print_run. cbv beta iota.
  rewrite py_print_run. cbv beta iota.
  destruct (sort_dict_by_values_any counts true) as [listed|e].
  - rewrite py_print_run. cbv beta iota. rewrite for_each_print.
    cbn [stdout logged]. rewrite <- !app_assoc. reflexivity.
  - cbn [stdout logged]. rewrite <- !app_assoc. reflexivity.
Qed.

Lemma holder_counts_run m c :
  holder_counts m c =
    match count_holders m with
    | Ok counts =>
        print_biggest_holders_any (Z.of_nat (List.length m)) counts c
    | Raise e => (Raise e, c)
    end.
Proof.
  unfold holder_counts, bind, lift.
  destruct (count_holders m); reflexivity.
Qed.

Lemma count_holders_keys (P : pyval -> Prop) rs : forall counts counts',
  for_each rs holder_counts_step counts = (Ok tt, counts') ->
  forallb has_owner_info rs = true ->
  (forall r, In r rs -> P (resolved_address r)) ->
  Forall (fun kv => P (fst kv) /\ True) counts ->
  Forall (fun kv => P (fst kv) /\ True) counts'.
Proof.
  induction rs as [|r rs IH]; intros counts counts' Hrun Hwf HP Hc.
  - injection Hrun as <-. exact Hc.
  - simpl in Hwf. apply andb_true_iff in Hwf as [Hr Hrs].
    destruct (holder_address_of_owner_info r Hr) as [Ha Hh].
    simpl in Hrun. unfold bind at 1 in Hrun.
    unfold holder_counts_step, bind, lift in Hrun.
    rewrite Ha, (increment_run counts _ Hh) in Hrun.
    apply IH in Hrun; auto.
    + intros r' Hr'. apply HP. now right.
    + apply (kd_set_Forall P (fun _ => True)); auto. apply HP. now left.
Qed.

Lemma has_text_owner_info r :
  has_text_owner r = true ->
  has_owner_info r = true /\ is_text (resolved_address r) = true.
Proof. unfold has_text_owner. intros H. now apply andb_true_iff in H. Qed.

Lemma forallb_text_owner_info rs :
  forallb has_text_owner rs = true -> forallb has_owner_info rs = true.
Proof.
  rewrite !forallb_forall. intros H r Hr.
  now apply has_text_owner_info, H.
Qed.

(** With string addresses the report is printed. *)
Lemma holder_counts_text m c :
  forallb has_text_owner (map snd m) = true ->
  exists counts listed,
    count_holders m = Ok counts /\
    sort_dict_by_values_any counts true = Ok listed /\
    holder_counts m c =
      (Ok tt,
       mkConsole
         (stdout c ++
          [newline;
           ("Total tokens: " ++ str_of_int (Z.of_nat (List.length m)))%string;
           (newline ++ "Biggest holders:" ++ newline ++ "----------")%string]
          ++ map holder_line_any listed)
         (logged c)).
Proof.
  intros Ht. pose proof (forallb_text_owner_info _ Ht) as Hwf.
  destruct (holder_counts_loop (map snd m) [] Hwf) as (counts & Hrun & _).
  assert (Hk : Forall (fun kv => is_text (fst kv) = true /\ True) counts).
  { apply (count_holders_keys (fun k => is_text k = true)
             (map snd m) [] counts Hrun Hwf); [|constructor].
    intros r Hr. rewrite forallb_forall in Ht.
    now apply has_text_owner_info, Ht. }
  destruct (sort_dict_by_values_any_text counts true) as [listed Hl].
  { revert Hk. apply Forall_impl. tauto. }
  exists counts, listed.
  assert (Hc : count_holders m = Ok counts).
  { unfold count_holders. now rewrite Hrun. }
  split; [exact Hc|]. split; [exact Hl|].
  now rewrite holder_counts_run, Hc, print_biggest_holders_any_run, Hl.
Qed.

(** ** The trait report *)

Lemma attribute_distribution_raises float_text m c e :
  count_attributes m = Raise e ->
  fst (attribute_distribution float_text m c) = Raise e /\
  stdout (snd (attribute_distribution float_text m c)) = stdout c.
Proof.
  unfold count_attributes, attribute_distribution.
  destruct (for_each m attribute_distribution_step (mkTraits 0 [] []))
    as [[[]|e'] st]; [discriminate|].
  intros [= ->]. split; reflexivity.
Qed.

Lemma attribute_distribution_returns float_text m c total ac :
  count_attributes m = Ok (total, ac) ->
  exists lg,
    attribute_distribution float_text m c =
      print_trait_frequency float_text total ac
        (mkConsole (stdout c) (logged c ++ lg)).
Proof.
  unfold count_attributes, attribute_distribution.
  destruct (for_each m attribute_distribution_step (mkTraits 0 [] []))
    as [[[]|e'] st]; [|discriminate].
  intros [= <- <-]. exists (trait_log st). reflexivity.
Qed.

(** C6, as the code has it.  When the [holders] field of every record
    holds an [info] dictionary whose owner is a string, or is missing or a
    falsy scalar, [holder_counts] does not raise: it counts every token
    exactly once, under the owner if there is one and under
    ["UNKNOWN_ADDRESS"] when the owner is missing, [None] or empty, and
    prints the report of those counts. *)
Theorem unknown_owner_is_counted_under_sentinel :
  forall (m : tokenmap) (c : console),
    forallb has_text_owner (map snd m) = true ->
    exists counts listed,
      count_holders m = Ok counts /\
      sum_values counts = Z.of_nat (List.length m) /\
      (forall a, count_of counts a =
         count_if (fun r => key_eqb (resolved_address r) a) (map snd m)) /\
      (forall t r h info, In (t, r) m ->
         dict_get r "holders" = Some (PDict h) ->
         dict_get h "info" = Some (PDict info) ->
         truthy (get info "owner") = false ->
         resolved_address r = PStr "UNKNOWN_ADDRESS" /\
         (1 <= count_of counts (PStr "UNKNOWN_ADDRESS"))%Z) /\
      sort_dict_by_values_any counts true = Ok listed /\
      holder_counts m c =
        (Ok tt,
         mkConsole
           (stdout c ++
            [newline;
             ("Total tokens: "
              ++ str_of_int (Z.of_nat (List.length m)))%string;
             (newline ++ "Biggest holders:" ++ newline
              ++ "----------")%string]
            ++ map holder_line_any listed)
           (logged c)).
Proof.
  intros m c Ht.
  destruct (holder_counts_text m c Ht) as (counts & listed & Hc & Hl & Hrun).
  destruct (count_holders_spec m (forallb_text_owner_info _ Ht))
    as (counts' & Hc' & H1 & H2 & H3).
  assert (counts' = counts) by congruence. subst counts'.
  exists counts, listed.
  split; [exact Hc|]. split; [exact H1|]. split; [exact H2|].
  split; [exact H3|]. split; [exact Hl | exact Hrun].
Qed.

Lemma unknown_owner_is_counted_under_sentinel_witness :
  exists counts,
    count_holders owners_map = Ok counts /\
    count_of counts (PStr "UNKNOWN_ADDRESS") = 1%Z /\
    count_of counts (PStr "wallet") = 2%Z /\
    holder_counts owners_map (mkConsole [] []) =
      (Ok tt,
       mkConsole
         [newline; "Total tokens: 3";
          (newline ++ "Biggest holders:" ++ newline ++ "----------")%string;
          "wallet: 2"; "UNKNOWN_ADDRESS: 1"] []).
Proof.
  destruct (unknown_owner_is_counted_under_sentinel owners_map
              (mkConsole [] []))
    as (counts & listed & H1 & _ & H2 & _ & H3 & H4).
  - reflexivity.
  - exists counts. split; [exact H1|]. rewrite !H2.
    split; [reflexivity|]. split; [reflexivity|].
    rewrite H4. vm_compute in H1. injection H1 as <-.
    vm_compute in H3. injection H3 as <-. reflexivity.
Defined.

(** C6 as claimed fails: holder data without an [info] object makes the
    aggregator raise before it prints, an owner that is a number makes
    the report raise when the counts of the number and of a string are
    equal, and an RPC reply with no largest account makes the fetcher
    raise; none of them records the sentinel. *)
Lemma malformed_holder_data_raises :
  (forall c,
     holder_counts [("tok1", record_without_info "tok1")] c
       = (Raise AttributeError, c)) /\
  (forall c,
     holder_counts
       [("tok1", [("token", PStr "tok1");
                  ("holders", PDict [("info", PDict [("owner", PInt 5)])])]);
        ("tok2", record_without_owner "tok2")] c
       = (Raise TypeError,
          mkConsole (stdout c ++ [newline; "Total tokens: 2"]) (logged c))) /\
  fst (get_holder_info_from_solana_async
         (mkRemote
            (fun _ => Ok (PDict [("result", PDict [("value", PList [])])]))
            (fun _ => Ok (account_info_reply PNone))
            (fun _ => Ok []) (fun b => Some b)
            (fun _ _ => Ok (mkResponse 200 (Ok (PDict [])))) 1000 (fun _ => 0)
            (fun token => Ok token))
         (mkTask [("token", PStr "tok1")] []))
    = Raise IndexError.
Proof.
  split; [|split]; try reflexivity.
  intros c. rewrite holder_counts_run.
  match goal with
  | |- context [count_holders ?m] =>
      assert (E : count_holders m =
                  Ok [(PInt 5, 1%Z); (PStr "UNKNOWN_ADDRESS", 1%Z)])
        by reflexivity;
      rewrite E
  end.
  rewrite print_biggest_holders_any_run. reflexivity.
Qed.

(** ** Trait distribution: the report *)

Lemma kd_get_Forall {V} (R : pyval * V -> Prop) (d : kdict V) k v :
  Forall R d -> kd_get d k = Some v -> exists k', R (k', v).
Proof.
  induction d as [|[k0 v0] t IH]; simpl; intros Hd Hg; [discriminate|].
  inversion Hd; subst. destruct (key_eqb k0 k).
  - injection Hg as <-. eauto.
  - auto.
Qed.

Lemma kd_set_nonempty {V} (d : kdict V) k v : kd_set d k v <> [].
Proof.
  destruct d as [|[k0 v0] t]; simpl; [discriminate|].
  destruct (key_eqb k0 k); discriminate.
Qed.

Lemma is_text_hashable v : is_text v = true -> hashable v = true.
Proof. destruct v; try discriminate; reflexivity. Qed.

Lemma text_attribute_wf a : text_attribute a = true -> wf_attribute a = true.
Proof.
  destruct a as [| | | | | |d]; try discriminate. simpl.
  destruct (dict_get d "trait_type") as [t|]; [|discriminate].
  destruct (dict_get d "value") as [v|]; [|discriminate].
  intros H. apply andb_true_iff in H as [Ht Hv].
  rewrite (is_text_hashable t Ht). simpl.
  destruct v; simpl in Hv; try discriminate; reflexivity.
Qed.

Lemma text_metadata_wf r : text_metadata r = true -> wf_metadata r = true.
Proof.
  unfold text_metadata, wf_metadata.
  destruct (dict_get r "arweave") as [[| | | | | |a]|]; auto.
  destruct (get a "attributes"); auto.
  rewrite !forallb_forall. intros H x Hx. apply text_attribute_wf. auto.
Qed.

Lemma forallb_text_metadata_wf rs :
  forallb text_metadata rs = true -> forallb wf_metadata rs = true.
Proof.
  rewrite !forallb_forall. intros H r Hr. apply text_metadata_wf. auto.
Qed.

Lemma printable_values_mono n n' values :
  (n <= n')%Z -> printable_values n values -> printable_values n' values.
Proof.
  intros Hn H. unfold printable_values in *.
  eapply Forall_impl; [|exact H]. intros vc [H1 H2]. split; [exact H1|lia].
Qed.

Lemma printable_counts_mono n n' ac :
  (n <= n')%Z -> printable_counts n ac -> printable_counts n' ac.
Proof.
  intros Hn H. unfold printable_counts in *.
  eapply Forall_impl; [|exact H]. intros tv [H1 H2]. split; [exact H1|].
  now apply (printable_values_mono n).
Qed.

Lemma printable_count_of n values k :
  (0 <= n)%Z -> printable_values n values ->
  (0 <= count_of values k <= n)%Z.
Proof.
  intros Hn H. unfold count_of. destruct (kd_get values k) eqn:E; [|lia].
  destruct (kd_get_Forall _ _ _ _ H E) as [k' [_ Hr]]. simpl in Hr. lia.
Qed.

Lemma printable_values_of n ac t :
  printable_counts n ac -> printable_values n (values_of ac t).
Proof.
  intros H. unfold values_of.
  destruct (kd_get ac t) as [d|] eqn:E; [|constructor].
  destruct (kd_get_Forall _ _ _ _ H E) as [k' [_ Hd]]. exact Hd.
Qed.

Lemma increment_printable n values v :
  (0 <= n)%Z -> is_text v = true -> printable_values n values ->
  exists values',
    increment values v = Ok values' /\ printable_values (n + 1) values'.
Proof.
  intros Hn Hv H. exists (kd_set values v (count_of values v + 1)%Z).
  split; [apply increment_run, is_text_hashable, Hv|].
  apply (kd_set_Forall (fun k => is_text k = true)
           (fun c => 1 <= c <= n + 1)%Z).
  - apply (printable_values_mono n); [lia | exact H].
  - exact Hv.
  - pose proof (printable_count_of n values v Hn H). lia.
Qed.

Lemma ensure_trait_printable n ac t :
  is_text t = true -> printable_counts n ac ->
  printable_counts n (ensure_trait ac t).
Proof.
  intros Ht H. unfold ensure_trait.
  destruct (kd_get ac t) as [[|x l]|]; auto;
    apply (kd_set_Forall (fun k => is_text k = true) (printable_values n));
    auto; constructor.
Qed.

(** Counting one attribute with a string for its trait type and a string
    or [None] for its value keeps the counters printable. *)
Lemma count_attribute_printable a st n :
  text_attribute a = true -> (0 <= n)%Z ->
  printable_counts n (attribute_counts st) ->
  exists ac',
    count_attribute a st =
      (Ok tt,
       mkTraits (tokens_with_attributes_total st) ac' (trait_log st)) /\
    printable_counts (n + 1) ac' /\ ac' <> [].
Proof.
  destruct a as [| | | | | |d]; try discriminate. simpl.
  destruct (dict_get d "trait_type") as [t0|] eqn:Ht; [|discriminate].
  destruct (dict_get d "value") as [v0|] eqn:Hv; [|discriminate].
  intros Hh Hn Hp. apply andb_true_iff in Hh as [Hht Hhv].
  set (value := if is_none v0 then PStr "" else v0).
  assert (Hvalue : is_text value = true).
  { subst value. destruct v0; simpl in Hhv; try discriminate; reflexivity. }
  destruct (increment_printable n (values_of (attribute_counts st) t0) value
              Hn Hvalue (printable_values_of _ _ _ Hp))
    as (inner' & Hinc & Hin).
  exists (kd_set (ensure_trait (attribute_counts st) t0) t0 inner').
  split; [|split].
  - unfold count_attribute, bind, lift, py_item. rewrite Ht, Hv.
    fold value.
    rewrite (is_text_hashable _ Hht), ensure_trait_get, Hinc. reflexivity.
  - apply (kd_set_Forall (fun k => is_text k = true)
             (printable_values (n + 1))); auto.
    apply ensure_trait_printable; auto.
    apply (printable_counts_mono n); [lia | auto].
  - apply kd_set_nonempty.
Qed.

Lemma count_attributes_printable l : forall st n,
  forallb text_attribute l = true -> (0 <= n)%Z ->
  printable_counts n (attribute_counts st) ->
  exists ac',
    for_each l count_attribute st =
      (Ok tt,
       mkTraits (tokens_with_attributes_total st) ac' (trait_log st)) /\
    printable_counts (n + Z.of_nat (List.length l)) ac' /\
    (l <> [] \/ attribute_counts st <> [] -> ac' <> []).
Proof.
  induction l as [|a l IH]; intros st n Hwf Hn Hp.
  - exists (attribute_counts st). split; [destruct st; reflexivity|].
    split; [simpl; now rewrite Z.add_0_r|]. intros [H|H]; auto.
  - simpl in Hwf. apply andb_true_iff in Hwf as [Ha Hl].
    destruct (count_attribute_printable a st n Ha Hn Hp)
      as (ac1 & Hrun1 & Hp1 & Hne1).
    destruct (IH (mkTraits (tokens_with_attributes_total st) ac1
                    (trait_log st)) (n + 1)%Z Hl ltac:(lia) Hp1)
      as (ac2 & Hrun2 & Hp2 & Hne2).
    exists ac2. split; [|split].
    + simpl. unfold bind. rewrite Hrun1. exact Hrun2.
    + simpl List.length. rewrite Nat2Z.inj_succ.
      replace (n + Z.succ (Z.of_nat (List.length l)))%Z
        with (n + 1 + Z.of_nat (List.length l))%Z by lia.
      exact Hp2.
    + intros _. apply Hne2. right. exact Hne1.
Qed.

Lemma attribute_distribution_step_printable item st n :
  text_metadata (snd item) = true ->
  (0 <= tokens_with_attributes_total st <= n)%Z ->
  printable_counts n (attribute_counts st) ->
  (attribute_counts st = [] \/ 1 <= tokens_with_attributes_total st)%Z ->
  exists st',
    attribute_distribution_step item st = (Ok tt, st') /\
    (0 <= tokens_with_attributes_total st'
       <= n + Z.of_nat (List.length (attributes_of (snd item))))%Z /\
    printable_counts
      (n + Z.of_nat (List.length (attributes_of (snd item))))
      (attribute_counts st') /\
    (attribute_counts st' = [] \/ 1 <= tokens_with_attributes_total st')%Z.
Proof.
  destruct item as [token r]. simpl.
  unfold text_metadata, attribute_distribution_step, attributes_of, bind,
    lift, py_item, py_get. simpl.
  destruct (dict_get r "arweave") as [[| | | | | |a]|]; try discriminate.
  destruct (get a "attributes") as [|b|z|s|s|l|d] eqn:Hattr; simpl;
    intros Hwf Ht Hp Hz;
    try (apply negb_true_iff in Hwf; rewrite Hwf);
    try (eexists; split; [reflexivity|]; simpl; rewrite Z.add_0_r; auto).
  destruct l as [|x l].
  - eexists. split; [reflexivity|]. simpl. rewrite Z.add_0_r. auto.
  - destruct (count_attributes_printable (x :: l)
                (mkTraits (tokens_with_attributes_total st + 1)%Z
                   (attribute_counts st) (trait_log st)) n Hwf ltac:(lia) Hp)
      as (ac' & Hrun & Hp' & Hne).
    eexists. split; [unfold modify, py_iter; exact Hrun|].
    simpl tokens_with_attributes_total. simpl attribute_counts.
    split; [|split].
    + simpl List.length. lia.
    + exact Hp'.
    + right. lia.
Qed.

Lemma attribute_distribution_printable m : forall st n,
  forallb text_metadata (map snd m) = true ->
  (0 <= tokens_with_attributes_total st <= n)%Z ->
  printable_counts n (attribute_counts st) ->
  (attribute_counts st = [] \/ 1 <= tokens_with_attributes_total st)%Z ->
  exists st',
    for_each m attribute_distribution_step st = (Ok tt, st') /\
    (0 <= tokens_with_attributes_total st'
       <= n + Z.of_nat (List.length (all_attributes m)))%Z /\
    printable_counts (n + Z.of_nat (List.length (all_attributes m)))
      (attribute_counts st') /\
    (attribute_counts st' = [] \/ 1 <= tokens_with_attributes_total st')%Z.
Proof.
  induction m as [|item m IH]; intros st n Hwf Ht Hp Hz.
  - exists st. simpl. rewrite Z.add_0_r. auto.
  - simpl in Hwf. apply andb_true_iff in Hwf as [Hi Hm].
    destruct (attribute_distribution_step_printable item st n Hi Ht Hp Hz)
      as (st1 & Hrun1 & Ht1 & Hp1 & Hz1).
    destruct (IH st1 _ Hm Ht1 Hp1 Hz1) as (st2 & Hrun2 & Ht2 & Hp2 & Hz2).
    exists st2.
    assert (E : (n + Z.of_nat (List.length (all_attributes (item :: m))))%Z
                = (n + Z.of_nat (List.length (attributes_of (snd item)))
                   + Z.of_nat (List.length (all_attributes m)))%Z).
    { unfold all_attributes. simpl flat_map. rewrite length_app. lia. }
    rewrite E. split; [|auto].
    simpl for_each. unfold bind. rewrite Hrun1. exact Hrun2.
Qed.

Lemma frequency_str_run float_text count total bound :
  (1 <= count <= bound)%Z -> (bound < FLOAT_LIMIT)%Z ->
  (1 <= total < FLOAT_LIMIT)%Z ->
  exists text, frequency_str float_text count total = Ok text.
Proof.
  intros Hc Hb Ht. unfold frequency_str, to_float_ok.
  rewrite !Z.abs_eq by lia.
  assert (E1 : (count <? FLOAT_LIMIT)%Z = true) by (apply Z.ltb_lt; lia).
  assert (E2 : (total <? FLOAT_LIMIT)%Z = true) by (apply Z.ltb_lt; lia).
  assert (E3 : (total =? 0)%Z = false) by (apply Z.eqb_neq; lia).
  rewrite E1, E2, E3. cbn [negb]. eauto.
Qed.

Lemma print_value_frequency_run float_text total bound entry c :
  is_text (fst entry) = true -> (1 <= snd entry <= bound)%Z ->
  (bound < FLOAT_LIMIT)%Z -> (1 <= total < FLOAT_LIMIT)%Z ->
  exists line,
    print_value_frequency float_text total entry c =
      (Ok tt, mkConsole (stdout c ++ [line]) (logged c)).
Proof.
  destruct entry as [k cnt]. cbn [fst snd]. intros Hk Hc Hb Ht.
  destruct k; try discriminate.
  destruct (frequency_str_run float_text cnt total bound Hc Hb Ht)
    as [text E].
  unfold print_value_frequency, bind, lift. cbn [fst snd str_concat].
  rewrite E, py_print_run. eauto.
Qed.

Lemma for_each_value_frequency float_text total bound values : forall c,
  printable_values bound values ->
  (bound < FLOAT_LIMIT)%Z -> (1 <= total < FLOAT_LIMIT)%Z ->
  exists lines,
    for_each values (print_value_frequency float_text total) c =
      (Ok tt, mkConsole (stdout c ++ lines) (logged c)).
Proof.
  induction values as [|e values IH]; intros c Hp Hb Ht.
  - exists []. rewrite app_nil_r. destruct c; reflexivity.
  - inversion Hp as [|? ? [H1 H2] Hrest]; subst.
    destruct (print_value_frequency_run float_text total bound e c
                H1 H2 Hb Ht) as [line E].
    destruct (IH (mkConsole (stdout c ++ [line]) (logged c)) Hrest Hb Ht)
      as [lines E'].
    exists (line :: lines). simpl for_each. unfold bind. rewrite E, E'.
    cbn [stdout logged]. now rewrite <- app_assoc.
Qed.

Lemma print_trait_run float_text total bound entry c :
  is_text (fst entry) = true -> printable_values bound (snd entry) ->
  (bound < FLOAT_LIMIT)%Z -> (1 <= total < FLOAT_LIMIT)%Z ->
  exists lines,
    print_trait float_text total entry c =
      (Ok tt, mkConsole (stdout c ++ lines) (logged c)).
Proof.
  destruct entry as [t values]. cbn [fst snd]. intros Ht Hp Hb Htot.
  destruct t as [| | |s| | |]; try discriminate.
  destruct (sort_dict_by_values_any_text values false) as [listed Hs].
  { eapply Forall_impl; [|exact Hp]. intros vc [H _]. exact H. }
  assert (Hl : printable_values bound listed).
  { exact (sort_dict_by_values_any_Forall (fun k => is_text k = true)
             (fun n => 1 <= n <= bound)%Z values false listed Hs Hp). }
  destruct (for_each_value_frequency float_text total bound listed
              (mkConsole (stdout c ++ [(newline ++ s)%string]) (logged c))
              Hl Hb Htot) as [lines E].
  exists ((newline ++ s)%string :: lines).
  unfold print_trait, bind, lift. cbn [fst snd str_concat].
  rewrite py_print_run, Hs, E. cbn [stdout logged].
  now rewrite <- app_assoc.
Qed.

Lemma for_each_print_trait float_text total bound ac : forall c,
  printable_counts bound ac ->
  (bound < FLOAT_LIMIT)%Z -> (1 <= total < FLOAT_LIMIT)%Z ->
  exists lines,
    for_each ac (print_trait float_text total) c =
      (Ok tt, mkConsole (stdout c ++ lines) (logged c)).
Proof.
  induction ac as [|e ac IH]; intros c Hp Hb Ht.
  - exists []. rewrite app_nil_r. destruct c; reflexivity.
  - inversion Hp as [|? ? [H1 H2] Hrest]; subst.
    destruct (print_trait_run float_text total bound e c H1 H2 Hb Ht)
      as [lines1 E].
    destruct (IH (mkConsole (stdout c ++ lines1) (logged c)) Hrest Hb Ht)
      as [lines2 E'].
    exists (lines1 ++ lines2). simpl for_each. unfold bind. rewrite E, E'.
    cbn [stdout logged]. now rewrite <- app_assoc.
Qed.

(** The report returns when the trait types and the values are strings,
    the counts and the total convert to floats, and the total is not zero
    unless there is nothing to list. *)
Lemma print_trait_frequency_run float_text total bound ac c :
  printable_counts bound ac ->
  (bound < FLOAT_LIMIT)%Z -> (total < FLOAT_LIMIT)%Z ->
  (ac = [] \/ 1 <= total)%Z ->
  exists lines,
    print_trait_frequency float_text total ac c =
      (Ok tt,
       mkConsole
         (stdout c ++
          [(newline ++ str_of_int total ++ " tokens with metadata")%string;
           (newline ++ "Attributes:" ++ newline ++ "----------")%string]
          ++ lines)
         (logged c)).
Proof.
  intros Hp Hb Ht Hz. unfold print_trait_frequency, bind.
  rewrite !py_print_run. cbn [stdout logged].
  destruct Hz as [-> | Hz].
  - exists []. simpl for_each. unfold ret.
    now rewrite <- !app_assoc.
  - destruct (for_each_print_trait float_text total bound ac
                (mkConsole
                   ((stdout c ++
                     [(newline ++ str_of_int total
                       ++ " tokens with metadata")%string]) ++
                    [(newline ++ "Attributes:" ++ newline
                      ++ "----------")%string])
                   (logged c)) Hp Hb ltac:(lia)) as [lines E].
    exists lines. rewrite E. cbn [stdout logged].
    now rewrite <- !app_assoc.
Qed.

(** C8, as the code has it.  When the [arweave] field of every record is
    a dictionary with no attributes or with a list of attributes whose
    trait types are strings and whose values are strings or [None], and
    the number of attribute entries converts to a float, the loop of
    [attribute_distribution] completes, the report is printed and the
    function returns.  The total is the number of tokens with a
    non-empty attributes list.  For every trait type the value counts sum
    to the number of attribute entries of that type, [None] values
    included, which are counted under the empty string; the sum is the
    number of tokens with the trait, and at most the total, when no token
    lists a trait type twice. *)
Theorem trait_counts_follow_attribute_entries :
  forall (float_text : Z -> Z -> string) (m : tokenmap) (c : console),
    forallb text_metadata (map snd m) = true ->
    (Z.of_nat (List.length (all_attributes m)) < FLOAT_LIMIT)%Z ->
    exists total counts lines lg,
      count_attributes m = Ok (total, counts) /\
      total = count_if has_attributes (map snd m) /\
      (forall t,
         sum_values (values_of counts t) =
           count_if (fun a => key_eqb (trait_of a) t) (all_attributes m)) /\
      (forall t v,
         count_of (values_of counts t) v =
           count_if (fun a => key_eqb (trait_of a) t
                              && key_eqb (value_of a) v)
             (all_attributes m)) /\
      (forall d, raw_value_of (PDict d) = PNone ->
         value_of (PDict d) = PStr "") /\
      (forallb distinct_traits (map attributes_of (map snd m)) = true ->
       forall t,
         sum_values (values_of counts t) = tokens_with_trait t m /\
         (sum_values (values_of counts t) <= total)%Z) /\
      attribute_distribution float_text m c =
        print_trait_frequency float_text total counts
          (mkConsole (stdout c) (logged c ++ lg)) /\
      attribute_distribution float_text m c =
        (Ok tt,
         mkConsole
           (stdout c ++
            [(newline ++ str_of_int total ++ " tokens with metadata")%string;
             (newline ++ "Attributes:" ++ newline ++ "----------")%string]
            ++ lines)
           (logged c ++ lg)).
Proof.
  intros float_text m c Hwf Hsize.
  destruct (count_attributes_spec m (forallb_text_metadata_wf _ Hwf))
    as (total & counts & Hrun & Htotal & Hsum & Hcount & Hnone & Hd).
  destruct (attribute_distribution_printable m (mkTraits 0 [] []) 0 Hwf)
    as (st & Hloop & Ht & Hp & Hz).
  { simpl. lia. }
  { constructor. }
  { now left. }
  assert (Hst : tokens_with_attributes_total st = total /\
                attribute_counts st = counts).
  { unfold count_attributes in Hrun. rewrite Hloop in Hrun.
    injection Hrun as <- <-. auto. }
  destruct Hst as [E1 E2]. rewrite E1 in Ht, Hz. rewrite E2 in Hp, Hz.
  rewrite Z.add_0_l in Ht, Hp.
  destruct (attribute_distribution_returns float_text m c total counts Hrun)
    as [lg Hreturns].
  destruct (print_trait_frequency_run float_text total _ counts
              (mkConsole (stdout c) (logged c ++ lg)) Hp Hsize
              ltac:(lia) Hz) as [lines Hprint].
  exists total, counts, lines, lg.
  repeat (split; [assumption|]).
  rewrite Hreturns. exact Hprint.
Qed.

Lemma trait_counts_follow_attribute_entries_witness :
  exists total counts,
    count_attributes traits_map = Ok (total, counts) /\
    total = 2%Z /\
    sum_values (values_of counts (PStr "Hair")) = 2%Z /\
    count_of (values_of counts (PStr "Eyes")) (PStr "") = 1%Z /\
    attribute_distribution half_text traits_map (mkConsole [] []) =
      (Ok tt,
       mkConsole
         [(newline ++ "2 tokens with metadata")%string;
          (newline ++ "Attributes:" ++ newline ++ "----------")%string;
          (newline ++ "Hair")%string;
          "Blue: 1 (1/2, 0.5)"; "Red: 1 (1/2, 0.5)";
          (newline ++ "Eyes")%string; ": 1 (1/2, 0.5)"]
         [Log Info "Token %s has no attributes"]).
Proof.
  destruct (trait_counts_follow_attribute_entries half_text traits_map
              (mkConsole [] []))
    as (total & counts & lines & lg & H1 & H2 & H3 & H4 & _ & _ & H7 & _).
  - reflexivity.
  - vm_compute. reflexivity.
  - exists total, counts. split; [exact H1|].
    rewrite H3, H4. split; [rewrite H2; reflexivity|].
    split; [reflexivity|]. split; [reflexivity|].
    vm_compute. reflexivity.
Defined.

(** C8 as claimed fails.  A token that lists a trait type twice makes the
    value counts of that type sum to more than the number of tokens with
    attributes; a token whose only value is [None] is counted although no
    token has a value other than [None] for the trait; and a value that
    is a number makes the report raise [TypeError] after the heading of
    its trait type. *)
Lemma value_counts_can_exceed_tokens :
  (exists total counts,
     count_attributes repeated_trait_map = Ok (total, counts) /\
     (total < sum_values (values_of counts (PStr "Hair")))%Z) /\
  (exists total counts,
     count_attributes null_value_map = Ok (total, counts) /\
     sum_values (values_of counts (PStr "Eyes")) = 1%Z /\
     tokens_with_value (PStr "Eyes") null_value_map = 0%Z) /\
  (forall float_text,
     attribute_distribution float_text numeric_value_map (mkConsole [] []) =
       (Raise TypeError,
        mkConsole
          [(newline ++ "1 tokens with metadata")%string;
           (newline ++ "Attributes:" ++ newline ++ "----------")%string;
           (newline ++ "Level")%string] [])).
Proof.
  split; [|split].
  - eexists. eexists. split; [reflexivity|]. vm_compute. auto.
  - eexists. eexists. split; [reflexivity|]. vm_compute. auto.
  - intros float_text. vm_compute. reflexivity.
Qed.

(** * Further properties of the code *)

(** ** Request cache: what a failed save leaves *)

(** X1.  [save_request_cache] opens the file for writing before it
    serializes.  When the directory and the file can be opened but the data
    holds [bytes], a write fails or the closing of the file fails, the
    save ends with its warning and leaves a truncated file: whatever the
    cache held before, the next load of the key returns the empty map.
    The record of the write comes before the warning exactly when it is
    the closing that fails. *)
Theorem failed_dump_leaves_cache_unreadable :
  forall (key : string) (data : pyval) (st : state),
    mkdir_ok (disk st) = true ->
    open_w_ok (disk st) (cache_path key) = true ->
    serializable data && write_ok (disk st) (cache_path key)
      && close_ok (disk st) (cache_path key) = false ->
    let st1 := snd (save_request_cache key data st) in
    dict_get (files (disk st1)) (cache_path key) = Some Garbled /\
    trace st1 =
      trace st ++
      (if fails_at_close key data st
       then [Log Debug "Wrote cache data to %s"] else []) ++
      [Log Warning "Unable to write cache file %s: %s"] /\
    fst (load_request_cache key st1) = Ok (PDict []).
Proof.
  intros key data st Hm Ho Hf st1.
  assert (Hrun : st1 =
    mkState (tokens st) (set_file (disk st) (cache_path key) Garbled)
      (trace st ++
       (if fails_at_close key data st
        then [Log Debug "Wrote cache data to %s"] else []) ++
       [Log Warning "Unable to write cache file %s: %s"])).
  { subst st1. rewrite save_request_cache_run. cbv zeta.
    unfold fails_at_close. rewrite Hm, Ho. cbn [andb].
    destruct (serializable data) eqn:Hs.
    - destruct (to_json_of_serializable data Hs) as [j Hj]. rewrite Hj.
      cbn [andb] in Hf.
      destruct (write_ok (disk st) (cache_path key)); cbn [andb] in *;
        [|reflexivity].
      rewrite Hf. reflexivity.
    - rewrite (serializable_to_json_none _ Hs).
      rewrite andb_false_r. reflexivity. }
  rewrite Hrun. cbn [disk trace]. rewrite load_request_cache_run.
  cbn [disk files set_file]. rewrite dict_get_set_same. auto.
Qed.

Lemma failed_dump_leaves_cache_unreadable_witness :
  let st := mkState [] (mkFs true (fun _ => true) (fun _ => true)
                          (fun _ => false)
                          [("cache/k_cache.json", Doc (JObj []))]) [] in
  fst (load_request_cache "k" st) = Ok (PDict []) /\
  fst (load_request_cache "k"
         (snd (save_request_cache "k" (PDict [("x", PInt 1)]) st)))
    = Ok (PDict []) /\
  trace (snd (save_request_cache "k" (PDict [("x", PInt 1)]) st)) =
    [Log Debug "Wrote cache data to %s";
     Log Warning "Unable to write cache file %s: %s"] /\
  dict_get (files (disk (snd (save_request_cache "k"
                                (PDict [("x", PInt 1)]) st))))
    "cache/k_cache.json" = Some Garbled.
Proof.
  intros st. split; [reflexivity|].
  destruct (failed_dump_leaves_cache_unreadable "k"
              (PDict [("x", PInt 1)]) st) as (H1 & H2 & H3);
    try reflexivity.
  split; [exact H3|]. split; [exact H2 | exact H1].
Defined.

Lemma save_request_cache_disk_run key data st :
  disk (snd (save_request_cache key data st)) =
    if mkdir_ok (disk st) && open_w_ok (disk st) (cache_path key) then
      match to_json data with
      | Some j =>
          if write_ok (disk st) (cache_path key)
             && close_ok (disk st) (cache_path key)
          then set_file (set_file (disk st) (cache_path key) Garbled)
                 (cache_path key) (Doc j)
          else set_file (disk st) (cache_path key) Garbled
      | None => set_file (disk st) (cache_path key) Garbled
      end
    else disk st.
Proof.
  rewrite save_request_cache_run. cbv zeta.
  destruct (mkdir_ok (disk st) && open_w_ok (disk st) (cache_path key));
    [|reflexivity].
  destruct (to_json data) as [j|]; [|reflexivity].
  destruct (write_ok (disk st) (cache_path key)); [|reflexivity].
  destruct (close_ok (disk st) (cache_path key)); reflexivity.
Qed.

(** X2.  When the cache directory cannot be made or the file cannot be
    opened, the save changes nothing on disk: a cache written earlier is
    still what the next load returns. *)
Theorem refused_save_keeps_previous_cache :
  forall (key : string) (data : pyval) (st : state),
    mkdir_ok (disk st) && open_w_ok (disk st) (cache_path key) = false ->
    disk (snd (save_request_cache key data st)) = disk st /\
    forall key',
      fst (load_request_cache key' (snd (save_request_cache key data st)))
        = fst (load_request_cache key' st).
Proof.
  intros key data st Hf.
  assert (Hd : disk (snd (save_request_cache key data st)) = disk st).
  { now rewrite save_request_cache_disk_run, Hf. }
  split; [exact Hd|]. intros key'.
  rewrite !load_request_cache_run, Hd.
  destruct (dict_get (files (disk st)) (cache_path key')) as [[j|]|];
    reflexivity.
Qed.

Lemma refused_save_keeps_previous_cache_witness :
  let st := mkState [] (mkFs false (fun _ => true) (fun _ => true)
                          (fun _ => true)
                          [("cache/k_cache.json", Doc (JObj []))]) [] in
  disk (snd (save_request_cache "k" (PDict [("t", PDict [])]) st)) = disk st.
Proof.
  intros st.
  apply (refused_save_keeps_previous_cache "k" (PDict [("t", PDict [])]) st).
  reflexivity.
Defined.




(** ** The fetch tasks: what they write and what they leave *)

Lemma get_arweave_metadata_run w r evs :
  get_arweave_metadata w (mkTask r evs) =
    match uri_of r with
    | Raise e => (Raise e, mkTask r evs)
    | Ok uri =>
        if truthy uri then
          match async_http_request w uri
                  (mkTask (with_default_arweave r) evs) with
          | (Ok body, ts) =>
              (Ok tt, mkTask (dict_set (data_dict ts) "arweave" body)
                        (events ts))
          | (Raise e, ts) => (Raise e, ts)
          end
        else (Ok tt, mkTask (with_default_arweave r) evs)
    end.
Proof.
  unfold get_arweave_metadata, uri_of, with_default_arweave, bind, lift,
    item, gets, setitem, modify, ret. simpl.
  destruct (dict_get r "account") as [account|]; [|reflexivity].
  destruct (py_item account "data") as [data|e]; [|reflexivity].
  destruct (py_get data "uri") as [uri|e]; [|reflexivity].
  destruct (is_none (get r "arweave")); simpl;
    destruct (truthy uri); try reflexivity;
    destruct (async_http_request w uri _) as [[body|e] ts]; reflexivity.
Qed.

Lemma with_default_arweave_present r :
  is_none (get (with_default_arweave r) "arweave") = false.
Proof.
  unfold with_default_arweave.
  destruct (is_none (get r "arweave")) eqn:E; [|exact E].
  unfold get. now rewrite dict_get_set_same.
Qed.

(** X4.  When the metadata has no URI (the key is missing, or its value is
    [None], empty or otherwise falsy), the metadata task makes no request
    and logs nothing: a record without metadata gets the empty object, and
    a record that already has metadata keeps it. *)
Theorem no_uri_gives_empty_metadata :
  forall (w : remote) (r : record) (uri : pyval),
    uri_of r = Ok uri ->
    truthy uri = false ->
    get_arweave_metadata w (mkTask r []) =
      (Ok tt, mkTask (with_default_arweave r) []) /\
    (get r "arweave" = PNone ->
       dict_get (with_default_arweave r) "arweave" = Some (PDict [])) /\
    (get r "arweave" <> PNone -> with_default_arweave r = r).
Proof.
  intros w r uri Hu Ht. split; [|split].
  - rewrite get_arweave_metadata_run, Hu, Ht. reflexivity.
  - intros H. unfold with_default_arweave. rewrite H. simpl.
    apply dict_get_set_same.
  - intros H. unfold with_default_arweave.
    destruct (get r "arweave"); simpl; congruence.
Qed.

Lemma no_uri_gives_empty_metadata_witness :
  get_arweave_metadata busy_once_remote
    (mkTask (record_with_uri "tok1" (PStr "")) []) =
    (Ok tt,
     mkTask (with_default_arweave (record_with_uri "tok1" (PStr ""))) []).
Proof.
  apply (no_uri_gives_empty_metadata busy_once_remote
           (record_with_uri "tok1" (PStr "")) (PStr "")); reflexivity.
Defined.

(** X5.  How the metadata task fails.  Without the path
    [account -> data] in the record it raises before touching the record.
    When the request itself raises, the default was already stored: the
    record is left with the empty object under ['arweave'], a value that
    the selection of a later phase takes for fetched. *)
Theorem failed_metadata_fetch_leaves_default :
  forall (w : remote) (r : record),
    (forall e, uri_of r = Raise e ->
       get_arweave_metadata w (mkTask r []) = (Raise e, mkTask r [])) /\
    (forall url e,
       uri_of r = Ok (PStr url) -> url <> "" ->
       recursion_limit w <> 0 ->
       session_get w url 0 = Raise e ->
       get_arweave_metadata w (mkTask r []) =
         (Raise e, mkTask (with_default_arweave r) [HttpGet url]) /\
       is_none (get (with_default_arweave r) "arweave") = false).
Proof.
  intros w r. split.
  - intros e He. now rewrite get_arweave_metadata_run, He.
  - intros url e Hu Hne Hlim Hget. split;
      [|apply with_default_arweave_present].
    rewrite get_arweave_metadata_run, Hu. simpl.
    apply String.eqb_neq in Hne. rewrite Hne. simpl.
    destruct (recursion_limit w) as [|d]; [congruence|].
    simpl. unfold bind, note, modify, lift. simpl. rewrite Hget. reflexivity.
Qed.

Lemma failed_metadata_fetch_leaves_default_witness :
  let r := record_with_uri "tok1" (PStr "https://arweave.net/1") in
  get_arweave_metadata unreachable_remote (mkTask r []) =
    (Raise ClientError,
     mkTask (with_default_arweave r) [HttpGet "https://arweave.net/1"]) /\
  is_none (get (with_default_arweave r) "arweave") = false.
Proof.
  intros r.
  destruct (failed_metadata_fetch_leaves_default unreachable_remote r)
    as [_ H].
  apply (H "https://arweave.net/1" ClientError);
    try reflexivity; discriminate.
Defined.

(** X6.  An answer whose status is neither 200 nor 429 is treated like a
    success after the error is logged: one request is made, and the task
    stores whatever [resp.json()] gives, or raises what it raises (the
    default already stored). *)
Theorem other_status_is_read_as_success :
  forall (w : remote) (r : record) (url : string) (resp : response),
    uri_of r = Ok (PStr url) -> url <> "" ->
    recursion_limit w <> 0 ->
    session_get w url 0 = Ok resp ->
    status resp <> 200%Z -> status resp <> 429%Z ->
    get_arweave_metadata w (mkTask r []) =
      let evs :=
        [HttpGet url;
         Log Error "HTTP request for %s failed with status %s: %s";
         Log Debug "Successful response for url %s"] in
      match resp_json resp with
      | Ok body =>
          (Ok tt,
           mkTask (dict_set (with_default_arweave r) "arweave" body) evs)
      | Raise e => (Raise e, mkTask (with_default_arweave r) evs)
      end.
Proof.
  intros w r url resp Hu Hne Hlim Hget H200 H429.
  rewrite get_arweave_metadata_run, Hu. simpl.
  apply String.eqb_neq in Hne. rewrite Hne. simpl.
  destruct (recursion_limit w) as [|d]; [congruence|].
  rewrite (async_http_request_other_status w url d 0 _ resp Hget H200 H429).
  simpl. destruct (resp_json resp); reflexivity.
Qed.

Lemma other_status_is_read_as_success_witness :
  let r := record_with_uri "tok1" (PStr "https://arweave.net/1") in
  get_arweave_metadata not_found_remote (mkTask r []) =
    (Ok tt,
     mkTask (dict_set (with_default_arweave r) "arweave" not_found_body)
       [HttpGet "https://arweave.net/1";
        Log Error "HTTP request for %s failed with status %s: %s";
        Log Debug "Successful response for url %s"]).
Proof.
  intros r.
  apply (other_status_is_read_as_success not_found_remote r
           "https://arweave.net/1" (mkResponse 404 (Ok not_found_body)));
    try reflexivity; discriminate.
Defined.

Lemma get_holder_info_run w r evs :
  get_holder_info_from_solana_async w (mkTask r evs) =
    match py_item (PDict r) "token" with
    | Raise e => (Raise e, mkTask r evs)
    | Ok token =>
        match holder_lookup w token with
        | Ok parsed =>
            (Ok tt,
             mkTask (dict_set r "holders" parsed)
               (evs ++ holder_calls w token))
        | Raise e => (Raise e, mkTask r (evs ++ holder_calls w token))
        end
    end.
Proof.
  unfold get_holder_info_from_solana_async, holder_lookup, holder_calls,
    largest_account_address, bind, lift, item, setitem, note, modify.
  cbn [data_dict events fst snd].
  destruct (py_item (PDict r) "token") as [token|e]; [|reflexivity].
  destruct (get_token_largest_accounts w token) as [la|e]; [|reflexivity].
  destruct (py_item la "result") as [res|e]; [|reflexivity].
  destruct (py_item res "value") as [val|e]; [|reflexivity].
  destruct (py_first val) as [largest|e]; [|reflexivity].
  destruct (py_item largest "address") as [address|e]; [|reflexivity].
  cbn [data_dict events]. rewrite <- !app_assoc. cbn [app].
  destruct (get_account_info w address) as [ai|e]; [|reflexivity].
  destruct (py_item ai "result") as [res'|e]; [|reflexivity].
  destruct (py_item res' "value") as [val'|e]; [|reflexivity].
  destruct (py_item val' "data") as [data|e]; [|reflexivity].
  destruct (py_item data "parsed") as [parsed|e]; reflexivity.
Qed.

Lemma get_account_info_run w r evs :
  get_account_info_from_solana_async w (mkTask r evs) =
    match py_item (PDict r) "token" with
    | Raise e => (Raise e, mkTask r evs)
    | Ok token =>
        match metadata_lookup w token with
        | Ok unpacked =>
            (Ok tt,
             mkTask (dict_set r "account"
                       (PDict (map (fun kv => (fst kv, decode_value w (snd kv)))
                                 unpacked)))
               (evs ++ account_calls w token))
        | Raise e => (Raise e, mkTask r (evs ++ account_calls w token))
        end
    end.
Proof.
  unfold get_account_info_from_solana_async, metadata_lookup, account_calls,
    bind, lift, item, setitem, note, modify.
  cbn [data_dict events fst snd].
  destruct (py_item (PDict r) "token") as [token|e]; [|reflexivity].
  destruct (get_metadata_account w token) as [acct|e];
    [|now rewrite app_nil_r].
  cbn [data_dict events].
  destruct (unpack_metadata w acct); reflexivity.
Qed.

Lemma holder_calls_rpc w token :
  Forall (fun e => is_rpc e = true) (holder_calls w token).
Proof.
  unfold holder_calls.
  destruct (largest_account_address w token); repeat constructor.
Qed.

Lemma account_calls_rpc w token :
  Forall (fun e => is_rpc e = true) (account_calls w token).
Proof.
  unfold account_calls.
  destruct (get_metadata_account w token); repeat constructor.
Qed.

Lemma holder_lookup_address w token parsed :
  holder_lookup w token = Ok parsed ->
  exists address, largest_account_address w token = Ok address.
Proof.
  unfold holder_lookup, largest_account_address.
  destruct (get_token_largest_accounts w token) as [la|e]; [|discriminate].
  destruct (py_item la "result") as [res|e]; [|discriminate].
  destruct (py_item res "value") as [val|e]; [|discriminate].
  destruct (py_first val) as [largest|e]; [|discriminate].
  destruct (py_item largest "address") as [address|e]; [|discriminate].
  eauto.
Qed.

(** X7.  The holder task and the account task write one field and nothing
    else.  What each leaves besides is its calls of the RPC client, no log
    entry, sleep or HTTP request: two calls when the holder task returns,
    one when the account task returns.  Either the task returns with its
    own field set and every other field as it was, or it raises with the
    record untouched. *)
Theorem fetch_task_writes_one_field :
  forall (w : remote) (field : string) (task : M task_state unit)
         (r : record),
    In (field, task)
       [("holders", get_holder_info_from_solana_async w);
        ("account", get_account_info_from_solana_async w)] ->
    Forall (fun e => is_rpc e = true) (events (snd (task (mkTask r [])))) /\
    ((exists v, task_outcome task r = Ok tt /\
        after_task task r = dict_set r field v /\
        (forall f, f <> field ->
           dict_get (after_task task r) f = dict_get r f) /\
        List.length (events (snd (task (mkTask r [])))) =
          (if field =? "holders" then 2 else 1)) \/
     (exists e, task_outcome task r = Raise e /\ after_task task r = r)).
Proof.
  intros w field task r [H|[H|[]]]; inversion H; subst; clear H;
    unfold task_outcome, after_task.
  - rewrite get_holder_info_run.
    destruct (py_item (PDict r) "token") as [token|e];
      [|split; [constructor | right; exists e; split; reflexivity]].
    destruct (holder_lookup w token) as [parsed|e] eqn:Hl;
      cbn [snd events app].
    + split; [apply holder_calls_rpc|]. left. exists parsed.
      cbn [fst snd data_dict].
      split; [reflexivity|]. split; [reflexivity|]. split.
      * intros f Hf. apply dict_get_set_other. congruence.
      * destruct (holder_lookup_address _ _ _ Hl) as [address Ha].
        unfold holder_calls. now rewrite Ha.
    + split; [apply holder_calls_rpc|].
      right. exists e. split; reflexivity.
  - rewrite get_account_info_run.
    destruct (py_item (PDict r) "token") as [token|e];
      [|split; [constructor | right; exists e; split; reflexivity]].
    destruct (metadata_lookup w token) as [unpacked|e] eqn:Hl;
      cbn [snd events app].
    + split; [apply account_calls_rpc|]. left. eexists.
      cbn [fst snd data_dict].
      split; [reflexivity|]. split; [reflexivity|]. split.
      * intros f Hf. apply dict_get_set_other. congruence.
      * unfold metadata_lookup in Hl. unfold account_calls.
        destruct (get_metadata_account w token); [reflexivity|discriminate].
    + split; [apply account_calls_rpc|].
      right. exists e. split; reflexivity.
Qed.

Lemma fetch_task_writes_one_field_witness :
  let r := [("token", PStr "tok2")] in
  let out := get_holder_info_from_solana_async flaky_remote (mkTask r []) in
  Forall (fun e => is_rpc e = true) (events (snd out)) /\
  events (snd out) =
    [Rpc "get_token_largest_accounts" (PStr "tok2");
     Rpc "get_account_info" (PStr "acct")].
Proof.
  intros r out.
  destruct (fetch_task_writes_one_field flaky_remote "holders"
              (get_holder_info_from_solana_async flaky_remote) r) as [H _].
  - left. reflexivity.
  - split; [exact H | reflexivity].
Defined.

(** ** The phases: what they keep *)

Lemma enrich_frame w field task key st :
  NoDup (dict_keys (tokens st)) ->
  dict_keys (tokens (snd (enrich w field task key st)))
    = dict_keys (tokens st) /\
  forall t r, dict_get (tokens st) t = Some r ->
    is_none (get r field) = false ->
    dict_get (tokens (snd (enrich w field task key st))) t = Some r.
Proof.
  intros Hnd. rewrite enrich_run. cbv zeta.
  pose proof (await_as_completed_spec w task
                (List.length (tasks_for field (tokens st)))
                (tasks_for field (tokens st)) st
                (tasks_for_NoDup _ _ Hnd) (le_n _)
                (tasks_for_keys field (tokens st))) as Hspec.
  cbv zeta in Hspec. destruct Hspec as (_ & Hk & Hout & _ & _).
  assert (Hunsel : forall t r, dict_get (tokens st) t = Some r ->
            is_none (get r field) = false ->
            ~ In t (tasks_for field (tokens st))).
  { intros t r Hr Hn Hin.
    apply tasks_for_selected in Hin as (r' & Hr' & Hnone); auto.
    assert (r' = r) by congruence. subst r'.
    rewrite Hnone in Hn. discriminate. }
  destruct (await_as_completed w task _ _ st) as [[[]|e] st1]; simpl in *.
  - rewrite save_request_cache_tokens. split; [exact Hk|].
    intros t r Hr Hn. rewrite Hout; eauto.
  - split; [exact Hk|]. intros t r Hr Hn. rewrite Hout; eauto.
Qed.

(** X8.  A phase never adds, removes or reorders tokens, and never touches
    a record whose field is already there, whether the phase returns or
    ends with an exception. *)
Theorem phase_keeps_tokens_and_fetched_records :
  forall (w : remote) (key field : string) (task : M task_state unit)
         (st : state),
    NoDup (dict_keys (tokens st)) ->
    let out := enrich w field task key st in
    dict_keys (tokens (snd out)) = dict_keys (tokens st) /\
    (forall t r v, dict_get (tokens st) t = Some r ->
       dict_get r field = Some v -> v <> PNone ->
       dict_get (tokens (snd out)) t = Some r).
Proof.
  intros w key field task st Hnd out. subst out.
  destruct (enrich_frame w field task key st Hnd) as [Hk Hrec].
  split; [exact Hk|]. intros t r v Hr Hv Hne. apply (Hrec t r Hr).
  unfold get. rewrite Hv. destruct v; auto. congruence.
Qed.

Lemma phase_keeps_tokens_and_fetched_records_witness :
  let st := mkState owners_map good_disk [] in
  let out :=
    enrich flaky_remote "holders"
      (get_holder_info_from_solana_async flaky_remote) "k" st in
  dict_keys (tokens (snd out)) = ["tok1"; "tok2"; "tok3"].
Proof.
  intros st out.
  destruct (phase_keeps_tokens_and_fetched_records flaky_remote "k" "holders"
              (get_holder_info_from_solana_async flaky_remote) st) as [H _].
  - repeat constructor; simpl; intuition discriminate.
  - exact H.
Defined.

(** Two dictionaries with the same distinct keys, in the same order, and
    the same lookups are equal. *)
Lemma dict_ext {V} (d1 : dict V) : forall d2,
  NoDup (dict_keys d1) ->
  dict_keys d1 = dict_keys d2 ->
  (forall k, dict_get d1 k = dict_get d2 k) ->
  d1 = d2.
Proof.
  induction d1 as [|[k v] t IH]; intros [|[k' v'] t'] Hnd Hk Hg;
    simpl in Hk; try discriminate; [reflexivity|].
  injection Hk as <- Hk. inversion Hnd as [|? ? Hnot Hnd']; subst.
  pose proof (Hg k) as Hgk. simpl in Hgk. rewrite String.eqb_refl in Hgk.
  injection Hgk as <-. f_equal. apply IH; auto.
  intros k0. specialize (Hg k0). simpl in Hg.
  destruct (k =? k0) eqn:E; [|exact Hg].
  apply String.eqb_eq in E. subst k0.
  assert (H1 : dict_get t k = None) by (now apply dict_get_None).
  assert (H2 : dict_get t' k = None).
  { apply dict_get_None. unfold dict_keys in *. now rewrite <- Hk. }
  congruence.
Qed.

Lemma save_request_cache_disk key data st st' :
  disk st = disk st' ->
  disk (snd (save_request_cache key data st))
    = disk (snd (save_request_cache key data st')).
Proof.
  intros Hd. rewrite !save_request_cache_disk_run. now rewrite Hd.
Qed.

Lemma async_http_request_from_reschedule w pick url : forall depth attempt ts,
  async_http_request_from (reschedule w pick) depth url attempt ts
    = async_http_request_from w depth url attempt ts.
Proof.
  induction depth as [|d IH]; intros attempt ts; [reflexivity|].
  simpl. unfold bind. simpl.
  destruct (session_get w url attempt) as [resp|e]; [|reflexivity].
  simpl. destruct (negb (status resp =? 200)%Z); [|reflexivity].
  destruct (status resp =? 429)%Z; [|reflexivity].
  simpl. now rewrite IH.
Qed.

Lemma get_arweave_metadata_reschedule w pick ts :
  get_arweave_metadata (reschedule w pick) ts = get_arweave_metadata w ts.
Proof.
  destruct ts as [r evs]. rewrite !get_arweave_metadata_run.
  destruct (uri_of r) as [uri|e]; [|reflexivity].
  destruct (truthy uri); [|reflexivity].
  destruct uri; try reflexivity.
  simpl. now rewrite async_http_request_from_reschedule.
Qed.

Lemma run_task_ext task task' token st :
  (forall ts, task ts = task' ts) ->
  run_task task token st = run_task task' token st.
Proof.
  intros H. unfold run_task.
  destruct (dict_get (tokens st) token) as [r|]; [|reflexivity].
  now rewrite H.
Qed.

Lemma enrich_task_ext w field task task' key st :
  (forall ts, task ts = task' ts) ->
  enrich w field task key st = enrich w field task' key st.
Proof.
  intros H. rewrite !enrich_run. cbv zeta.
  enough (Hloop : forall n pending s,
            await_as_completed w task n pending s
              = await_as_completed w task' n pending s)
    by (now rewrite Hloop).
  induction n as [|n IH]; intros pending s; [reflexivity|].
  destruct pending as [|first rest]; [reflexivity|].
  rewrite !await_as_completed_step. cbv zeta.
  rewrite (run_task_ext task task' _ s H).
  destruct (run_task task' _ s) as [[[]|e] s']; auto.
Qed.

Lemma enrich_ok_disk w field task key st m :
  NoDup (dict_keys (tokens st)) ->
  fst (enrich w field task key st) = Ok m ->
  disk (snd (enrich w field task key st)) =
    disk (snd (save_request_cache key
                 (py_of_tokenmap (tokens (snd (enrich w field task key st))))
                 st)).
Proof.
  intros Hnd.
  pose proof (await_as_completed_spec w task
                (List.length (tasks_for field (tokens st)))
                (tasks_for field (tokens st)) st
                (tasks_for_NoDup _ _ Hnd) (le_n _)
                (tasks_for_keys field (tokens st))) as Hs.
  cbv zeta in Hs. destruct Hs as (Hd & _).
  pose proof (enrich_run w field task key st) as Hrun. cbv zeta in Hrun.
  destruct (await_as_completed w task _ _ st) as [[[]|e] st1];
    rewrite Hrun; simpl; [|discriminate].
  intros _. rewrite save_request_cache_tokens.
  apply save_request_cache_disk. exact Hd.
Qed.

(** X9.  When every launched task returns, the order in which the tasks
    complete does not matter: the phase returns the same token map and
    leaves the same files, whatever the completion order.  This holds
    for the three inner coroutines, whose tasks do not depend on the
    order. *)
Theorem completion_order_does_not_matter :
  forall (w : remote) (pick : list string -> nat) (key field : string)
         (task : M task_state unit) (st : state),
    NoDup (dict_keys (tokens st)) ->
    (forall t r, selected field (tokens st) t r ->
       task_outcome task r = Ok tt) ->
    let out := enrich w field task key st in
    let out' := enrich (reschedule w pick) field task key st in
    fst out' = fst out /\
    tokens (snd out') = tokens (snd out) /\
    disk (snd out') = disk (snd out) /\
    populate_holders_inner (reschedule w pick) key st =
      enrich (reschedule w pick) "holders"
        (get_holder_info_from_solana_async w) key st /\
    populate_account_inner (reschedule w pick) key st =
      enrich (reschedule w pick) "account"
        (get_account_info_from_solana_async w) key st /\
    populate_account_inner2 (reschedule w pick) key st =
      enrich (reschedule w pick) "arweave" (get_arweave_metadata w) key st.
Proof.
  intros w pick key field task st Hnd Hall out out'.
  destruct (enrich_success w field task key st Hnd Hall) as (H1 & H2 & _).
  destruct (enrich_success (reschedule w pick) field task key st Hnd Hall)
    as (H1' & H2' & _).
  destruct (enrich_frame w field task key st Hnd) as [Hk _].
  destruct (enrich_frame (reschedule w pick) field task key st Hnd)
    as [Hk' _].
  fold out in H1, H2, Hk. fold out' in H1', H2', Hk'.
  assert (Ht : tokens (snd out') = tokens (snd out)).
  { apply dict_ext.
    - rewrite Hk'. exact Hnd.
    - now rewrite Hk, Hk'.
    - intros k. destruct (dict_get (tokens st) k) as [r|] eqn:Hr.
      + now rewrite (H2 k r Hr), (H2' k r Hr).
      + apply dict_get_None in Hr.
        assert (Ha : dict_get (tokens (snd out)) k = None)
          by (apply dict_get_None; now rewrite Hk).
        assert (Hb : dict_get (tokens (snd out')) k = None)
          by (apply dict_get_None; now rewrite Hk').
        congruence. }
  split; [rewrite H1, H1', Ht; reflexivity|]. split; [exact Ht|].
  split.
  2:{ split; [reflexivity|]. split; [reflexivity|].
      apply enrich_task_ext. intros ts.
      apply get_arweave_metadata_reschedule. }
  subst out out'.
  rewrite (enrich_ok_disk _ _ _ _ _ _ Hnd H1).
  rewrite (enrich_ok_disk _ _ _ _ _ _ Hnd H1').
  now rewrite Ht.
Qed.

Lemma completion_order_does_not_matter_witness :
  let st := mkState two_fresh_tokens good_disk [] in
  let task := get_holder_info_from_solana_async busy_once_remote in
  tokens (snd (enrich (reschedule busy_once_remote (fun _ => 1)) "holders"
                 task "k" st))
    = tokens (snd (enrich busy_once_remote "holders" task "k" st)).
Proof.
  intros st task.
  destruct (completion_order_does_not_matter busy_once_remote (fun _ => 1)
              "k" "holders" task st) as (_ & H & _).
  - repeat constructor; simpl; intuition discriminate.
  - intros t r [Hget _].
    change (tokens st) with two_fresh_tokens in Hget.
    unfold two_fresh_tokens in Hget. cbn [dict_get] in Hget.
    destruct ("tok1" =? t)%string; [injection Hget as <-; reflexivity|].
    destruct ("tok2" =? t)%string; [injection Hget as <-; reflexivity|].
    discriminate.
  - exact H.
Defined.

(** ** From the holder phase to the holder counts *)

Lemma holder_task_ok w r :
  holder_service_ok w ->
  awaits_holders r = true ->
  task_outcome (get_holder_info_from_solana_async w) r = Ok tt /\
  has_text_owner (after_task (get_holder_info_from_solana_async w) r) = true.
Proof.
  intros Hw Hr. unfold awaits_holders in Hr.
  destruct (dict_get r "token") as [token|] eqn:Ht; [|discriminate].
  destruct (Hw token) as (h & info & Hl & Hi & Hh & Htext).
  unfold task_outcome, after_task. rewrite get_holder_info_run.
  unfold py_item. rewrite Ht, Hl. simpl. split; [reflexivity|].
  unfold has_text_owner, has_owner_info, resolved_address.
  now rewrite dict_get_set_same, Hi, Hh, Htext.
Qed.

Lemma dict_get_Some_key {V} (d : dict V) k :
  In k (dict_keys d) -> exists v, dict_get d k = Some v.
Proof.
  intros H. destruct (dict_get d k) as [v|] eqn:E; eauto.
  apply dict_get_None in E. contradiction.
Qed.

(** X10.  From a freshly seeded map to the report: when the holder service
    answers every lookup with well-shaped data (the owner a string, or
    missing or falsy), the holder orchestrator returns with every record
    filled, and [holder_counts] on its result returns after counting every
    token exactly once. *)
Theorem fetched_holders_are_all_counted :
  forall (w : remote) (key : string) (st : state),
    holder_service_ok w ->
    NoDup (dict_keys (tokens st)) ->
    forallb awaits_holders (map snd (tokens st)) = true ->
    exists m counts,
      fst (populate_holders_details_async w key st) = Ok m /\
      tokens (snd (populate_holders_details_async w key st)) = m /\
      dict_keys m = dict_keys (tokens st) /\
      forallb has_text_owner (map snd m) = true /\
      count_holders m = Ok counts /\
      sum_values counts = Z.of_nat (List.length (tokens st)) /\
      forall c, fst (holder_counts m c) = Ok tt.
Proof.
  intros w key st Hw Hnd Hfresh.
  set (task := get_holder_info_from_solana_async w).
  set (st1 := mkState (tokens st) (disk st)
                (trace st ++ [Log Info "Populating holders details..."])).
  assert (Hawait : forall t r, dict_get (tokens st) t = Some r ->
            awaits_holders r = true).
  { intros t r Hr. rewrite forallb_forall in Hfresh. apply Hfresh.
    apply dict_get_In in Hr. now apply (in_map snd) in Hr. }
  assert (Hall : forall t r, selected "holders" (tokens st1) t r ->
            task_outcome task r = Ok tt).
  { intros t r [Hr _]. apply (holder_task_ok w r Hw). eauto. }
  destruct (enrich_success w "holders" task key st1 Hnd Hall)
    as (H1 & H2 & _).
  destruct (enrich_frame w "holders" task key st1 Hnd) as [Hk _].
  destruct (enrich w "holders" task key st1) as [o st2] eqn:E.
  simpl in H1, H2, Hk. subst o.
  destruct (save_request_cache_returns key (py_of_tokenmap (tokens st2)) st2)
    as (st3 & E3 & T3).
  assert (Hrun : populate_holders_details_async w key st =
            (Ok (tokens st2),
             mkState (tokens st3) (disk st3)
               (trace st3 ++ [Log Info "--- %s seconds ---"]))).
  { unfold populate_holders_details_async, populate_holders_inner.
    rewrite (bind_ok _ _ _ _ _ (emit_run _ st)). fold st1. fold task.
    rewrite (bind_ok _ _ _ _ _ E).
    rewrite (bind_ok (gets tokens) _ st2 (tokens st2) st2 eq_refl).
    rewrite (bind_ok _ _ _ _ _ E3).
    rewrite (bind_ok _ _ _ _ _ (emit_run _ st3)). reflexivity. }
  assert (Htext : forallb has_text_owner (map snd (tokens st2)) = true).
  { apply forallb_forall. intros r' Hin.
    apply in_map_iff in Hin as ([t r''] & <- & Hin). simpl.
    assert (Hg : dict_get (tokens st2) t = Some r'').
    { apply In_dict_get; auto. rewrite Hk. exact Hnd. }
    destruct (dict_get_Some_key (tokens st) t) as [r Hr].
    { apply (in_map fst) in Hin. simpl in Hin.
      unfold dict_keys in *. rewrite Hk in Hin. exact Hin. }
    rewrite (H2 t r Hr) in Hg. injection Hg as <-.
    pose proof (Hawait t r Hr) as Ha.
    assert (Hn : is_none (get r "holders") = true).
    { unfold awaits_holders in Ha. unfold get.
      destruct (dict_get r "token"); [|discriminate].
      destruct (dict_get r "holders"); [discriminate | reflexivity]. }
    rewrite Hn. apply (holder_task_ok w r Hw Ha). }
  pose proof (forallb_text_owner_info _ Htext) as Hwf.
  destruct (holder_counts_loop (map snd (tokens st2)) [] Hwf)
    as (counts & Hc & _ & Hs).
  assert (Hcount : count_holders (tokens st2) = Ok counts).
  { unfold count_holders. now rewrite Hc. }
  exists (tokens st2), counts. rewrite Hrun. simpl.
  split; [reflexivity|]. split; [exact T3|]. split; [exact Hk|].
  split; [exact Htext|]. split; [exact Hcount|]. split.
  - rewrite Hs, length_map. simpl.
    rewrite <- (length_map fst (tokens st2)), <- (length_map fst (tokens st)).
    unfold dict_keys in Hk. simpl in Hk. now rewrite Hk.
  - intros c.
    destruct (holder_counts_text (tokens st2) c Htext)
      as (counts' & listed & _ & _ & Hprint).
    now rewrite Hprint.
Qed.

Lemma fetched_holders_are_all_counted_witness :
  exists m counts,
    fst (populate_holders_details_async busy_once_remote "k"
           (mkState two_fresh_tokens good_disk [])) = Ok m /\
    count_holders m = Ok counts /\
    sum_values counts = 2%Z /\
    fst (holder_counts m (mkConsole [] [])) = Ok tt.
Proof.
  destruct (fetched_holders_are_all_counted busy_once_remote "k"
              (mkState two_fresh_tokens good_disk []))
    as (m & counts & H1 & _ & _ & _ & H2 & H3 & H4).
  - intros token. eexists. eexists. repeat split; reflexivity.
  - repeat constructor; simpl; intuition discriminate.
  - reflexivity.
  - exists m, counts. auto.
Defined.

(** ** Seeding *)

Lemma seed_step_get (m : tokenmap) token t :
  dict_get
    (match dict_get m token with
     | Some _ => m
     | None => dict_set m token [("token", PStr token)]
     end) t =
  match dict_get m t with
  | Some r => Some r
  | None => if token =? t then Some [("token", PStr t)] else None
  end.
Proof.
  destruct (dict_get m token) as [r0|] eqn:E.
  - destruct (dict_get m t) as [r|] eqn:Et; auto.
    destruct (String.eqb_spec token t); auto. congruence.
  - destruct (String.eqb_spec token t) as [->|Hne].
    + now rewrite dict_get_set_same, E.
    + rewrite dict_get_set_other by exact Hne. now destruct (dict_get m t).
Qed.

Lemma seed_step_keys (m : tokenmap) token :
  dict_keys
    (match dict_get m token with
     | Some _ => m
     | None => dict_set m token [("token", PStr token)]
     end) =
  match dict_get m token with
  | Some _ => dict_keys m
  | None => dict_keys m ++ [token]
  end.
Proof.
  destruct (dict_get m token) eqn:E; [reflexivity|].
  apply dict_get_None in E. rewrite dict_set_fresh by exact E.
  unfold dict_keys. now rewrite map_app.
Qed.

Lemma seed_token_data_get l : forall (m : tokenmap) t,
  dict_get (seed_token_data m l) t =
    match dict_get m t with
    | Some r => Some r
    | None => if existsb (fun token => token =? t) l
              then Some [("token", PStr t)] else None
    end.
Proof.
  unfold seed_token_data.
  induction l as [|token l IH]; intros m t; simpl.
  - now destruct (dict_get m t).
  - rewrite IH, seed_step_get.
    destruct (dict_get m t); auto.
    destruct (token =? t); auto.
Qed.

Lemma seed_token_data_keys l : forall (m : tokenmap),
  NoDup (dict_keys m) ->
  NoDup (dict_keys (seed_token_data m l)) /\
  (forall t, In t (dict_keys (seed_token_data m l)) <->
             In t (dict_keys m) \/ In t l).
Proof.
  unfold seed_token_data.
  induction l as [|token l IH]; intros m Hnd; simpl.
  - split; [exact Hnd | intros; tauto].
  - set (m1 := match dict_get m token with
               | Some _ => m
               | None => dict_set m token [("token", PStr token)]
               end).
    assert (Hk : dict_keys m1 =
                 match dict_get m token with
                 | Some _ => dict_keys m
                 | None => dict_keys m ++ [token]
                 end) by apply seed_step_keys.
    assert (Hnd1 : NoDup (dict_keys m1)).
    { rewrite Hk. destruct (dict_get m token) eqn:E; auto.
      apply dict_get_None in E.
      apply NoDup_app; [exact Hnd | repeat constructor; simpl; tauto |].
      intros x Hx [<-|[]]. exact (E Hx). }
    destruct (IH m1 Hnd1) as [H1 H2]. split; [exact H1|].
    intros t. etransitivity; [apply H2|]. rewrite Hk.
    destruct (dict_get m token) eqn:E.
    + split; [tauto|]. intros [H|[<-|H]]; auto.
      left. apply dict_get_In in E. now apply (in_map fst) in E.
    + rewrite in_app_iff. simpl. tauto.
Qed.

(** X11.  Seeding keeps what the cache holds and only adds: every cached
    record is kept as it is (also one whose token is not in the list), a
    listed token that is not cached gets the record [{"token": token}],
    the keys stay distinct, and seeding a second time with the same list
    changes nothing. *)
Theorem seeding_keeps_cache_and_adds_new_tokens :
  forall (cache : tokenmap) (token_list : list string),
    NoDup (dict_keys cache) ->
    let m := seed_token_data cache token_list in
    (forall t r, dict_get cache t = Some r -> dict_get m t = Some r) /\
    (forall t, In t token_list -> dict_get cache t = None ->
       dict_get m t = Some [("token", PStr t)]) /\
    (forall t, In t (dict_keys m) <->
               In t (dict_keys cache) \/ In t token_list) /\
    NoDup (dict_keys m) /\
    seed_token_data m token_list = m.
Proof.
  intros cache token_list Hnd m.
  destruct (seed_token_data_keys token_list cache Hnd) as [Hnd' Hkeys].
  fold m in Hnd', Hkeys.
  split; [|split; [|split; [exact Hkeys|split; [exact Hnd'|]]]].
  - intros t r Hr. subst m. now rewrite seed_token_data_get, Hr.
  - intros t Hin Hc. subst m. rewrite seed_token_data_get, Hc.
    assert (He : existsb (fun token => token =? t) token_list = true).
    { apply existsb_exists. exists t. split; auto. apply String.eqb_refl. }
    now rewrite He.
  - enough (H : forall l m0,
              (forall t, In t l -> dict_get m0 t <> None) ->
              seed_token_data m0 l = m0).
    { apply H. intros t Hin. subst m. rewrite seed_token_data_get.
      destruct (dict_get cache t); [discriminate|].
      assert (He : existsb (fun token => token =? t) token_list = true).
      { apply existsb_exists. exists t. split; auto. apply String.eqb_refl. }
      rewrite He. discriminate. }
    clear. unfold seed_token_data.
    induction l as [|token l IH]; intros m0 H; simpl; [reflexivity|].
    match goal with
    | |- context [match ?x with _ => _ end] => destruct x eqn:E
    end.
    + apply IH. intros t Ht. apply H. now right.
    + exfalso. apply (H token); auto. now left.
Qed.

Lemma seeding_keeps_cache_and_adds_new_tokens_witness :
  seed_token_data cached_map ["new"; "old"; "new"] =
    [("old", [("token", PStr "old"); ("holders", PDict [])]);
     ("new", [("token", PStr "new")])] /\
  NoDup (dict_keys (seed_token_data cached_map ["new"; "old"; "new"])).
Proof.
  destruct (seeding_keeps_cache_and_adds_new_tokens cached_map
              ["new"; "old"; "new"]) as (_ & _ & _ & H & _).
  - repeat constructor; simpl; intuition discriminate.
  - split; [reflexivity | exact H].
Defined.

(** ** Aggregators: records that were not fetched *)

Lemma for_each_app {S A} (l1 l2 : list A) (body : A -> M S unit) s :
  for_each (l1 ++ l2) body s =
    match for_each l1 body s with
    | (Ok _, s') => for_each l2 body s'
    | (Raise e, s') => (Raise e, s')
    end.
Proof.
  revert s. induction l1 as [|x l1 IH]; intros s; simpl; [reflexivity|].
  unfold bind. destruct (body x s) as [[[]|e] s']; auto.
Qed.

(** X12.  The aggregators do not skip a record that was never fetched:
    the first record without ['holders'] makes the loop of
    [holder_counts], and so the function, raise [KeyError] before anything
    is printed, and it makes [holder_snapshot] raise [KeyError], as a
    record without ['account'] does for the snapshot and one without
    ['arweave'] for [attribute_distribution] and its loop. *)
Theorem unfetched_record_raises_key_error :
  forall (m1 m2 : tokenmap) (t : string) (r : record),
    (forallb has_owner_info (map snd m1) = true ->
     dict_get r "holders" = None ->
     count_holders (m1 ++ (t, r) :: m2) = Raise KeyError /\
     forall c, holder_counts (m1 ++ (t, r) :: m2) c = (Raise KeyError, c)) /\
    (forallb wf_metadata (map snd m1) = true ->
     dict_get r "arweave" = None ->
     count_attributes (m1 ++ (t, r) :: m2) = Raise KeyError /\
     forall float_text c,
       fst (attribute_distribution float_text (m1 ++ (t, r) :: m2) c)
         = Raise KeyError /\
       stdout (snd (attribute_distribution float_text
                      (m1 ++ (t, r) :: m2) c)) = stdout c) /\
    (forallb wf_snapshot (map snd m1) = true ->
     dict_get r "holders" = None \/ dict_get r "account" = None ->
     holder_snapshot (m1 ++ (t, r) :: m2) = Raise KeyError).
Proof.
  intros m1 m2 t r. split; [|split].
  - intros Hwf Hr.
    assert (H : count_holders (m1 ++ (t, r) :: m2) = Raise KeyError).
    { destruct (holder_counts_loop (map snd m1) [] Hwf) as (c & Hrun & _).
      unfold count_holders. rewrite map_app, for_each_app, Hrun. simpl.
      unfold bind, holder_counts_step, lift, holder_address_of, py_item.
      now rewrite Hr. }
    split; [exact H|]. intros c. now rewrite holder_counts_run, H.
  - intros Hwf Hr.
    destruct (attribute_distribution_loop m1 (mkTraits 0 [] []) Hwf)
      as (ac & lg & Hrun & _).
    assert (H : count_attributes (m1 ++ (t, r) :: m2) = Raise KeyError).
    { unfold count_attributes. rewrite for_each_app, Hrun. simpl.
      unfold bind, attribute_distribution_step, lift, py_item. simpl.
      now rewrite Hr. }
    split; [exact H|].
    intros float_text c. now apply attribute_distribution_raises.
  - intros Hwf Hr.
    destruct (holder_snapshot_loop m1 [] Hwf) as (rows & Hrun & _).
    unfold holder_snapshot. rewrite for_each_app, Hrun. simpl.
    unfold bind, holder_snapshot_step, lift, py_item. simpl.
    destruct Hr as [Hr|Hr].
    + now rewrite Hr.
    + destruct (dict_get r "holders"); simpl; [now rewrite Hr | reflexivity].
Qed.

Lemma unfetched_record_raises_key_error_witness :
  holder_counts half_fetched_map (mkConsole [] [])
    = (Raise KeyError, mkConsole [] []) /\
  holder_snapshot half_fetched_map = Raise KeyError.
Proof.
  destruct (unfetched_record_raises_key_error
              [("tok1", complete_record "tok1" "Token #1")] []
              "tok2" [("token", PStr "tok2")]) as (H1 & _ & H3).
  split; [apply H1 | apply H3]; try reflexivity. left. reflexivity.
Defined.

(** ** Holder counts: what the dictionary looks like *)

Lemma kd_set_distinct {V} (d : kdict V) k v :
  distinct_keys d -> distinct_keys (kd_set d k v).
Proof.
  induction d as [|[k0 v0] t IH]; simpl.
  - auto.
  - intros [H0 Ht]. destruct (key_eqb k0 k) eqn:E; simpl.
    + auto.
    + split; auto. rewrite kd_get_set, key_eqb_sym, E. exact H0.
Qed.

Lemma kd_set_positive (d : kdict Z) k v :
  (1 <= v)%Z ->
  Forall (fun kv => 1 <= snd kv)%Z d ->
  Forall (fun kv => 1 <= snd kv)%Z (kd_set d k v).
Proof.
  intros Hv. induction d as [|[k0 v0] t IH]; simpl; intros Hd.
  - repeat constructor. exact Hv.
  - inversion Hd; subst. destruct (key_eqb k0 k); constructor; auto.
Qed.

Lemma kd_set_length {V} (d : kdict V) k v :
  List.length (kd_set d k v) <= S (List.length d).
Proof.
  induction d as [|[k0 v0] t IH]; simpl; [lia|].
  destruct (key_eqb k0 k); simpl; lia.
Qed.

Lemma count_of_nonneg (d : kdict Z) k :
  Forall (fun kv => 1 <= snd kv)%Z d -> (0 <= count_of d k)%Z.
Proof.
  unfold count_of. induction d as [|[k0 v0] t IH]; simpl; intros Hd; [lia|].
  inversion Hd; subst. destruct (key_eqb k0 k); simpl in *; auto. lia.
Qed.

Lemma holder_counts_invariant rs : forall counts counts',
  for_each rs holder_counts_step counts = (Ok tt, counts') ->
  distinct_keys counts ->
  Forall (fun kv => 1 <= snd kv)%Z counts ->
  distinct_keys counts' /\
  Forall (fun kv => 1 <= snd kv)%Z counts' /\
  List.length counts' <= List.length counts + List.length rs.
Proof.
  induction rs as [|r rs IH]; intros counts counts' Hrun Hd Hp.
  - injection Hrun as <-. simpl. repeat split; auto. lia.
  - simpl in Hrun. unfold bind at 1 in Hrun.
    unfold holder_counts_step, bind, lift in Hrun.
    destruct (holder_address_of r) as [a|e]; [|discriminate].
    unfold increment in Hrun.
    destruct (hashable a) eqn:Hh; [|discriminate].
    pose proof (increment_run counts a Hh) as Hinc.
    unfold increment in Hinc. rewrite Hh in Hinc. rewrite Hinc in Hrun.
    apply IH in Hrun.
    + destruct Hrun as (H1 & H2 & H3). repeat split; auto.
      pose proof (kd_set_length counts a (count_of counts a + 1)%Z).
      simpl. lia.
    + now apply kd_set_distinct.
    + apply kd_set_positive; auto.
      pose proof (count_of_nonneg counts a Hp). lia.
Qed.

(** X13.  Whenever the loop of [holder_counts] completes, the dictionary
    that the function hands to the report lists no address twice, gives
    every listed address a count of at least one, and has at most as many
    entries as there are tokens. *)
Theorem holder_counts_lists_each_holder_once :
  forall (m : tokenmap) (counts : kdict Z),
    count_holders m = Ok counts ->
    distinct_keys counts /\
    Forall (fun kv => 1 <= snd kv)%Z counts /\
    List.length counts <= List.length m /\
    forall c,
      holder_counts m c =
        print_biggest_holders_any (Z.of_nat (List.length m)) counts c.
Proof.
  intros m counts H.
  assert (Hprint : forall c,
            holder_counts m c =
              print_biggest_holders_any (Z.of_nat (List.length m)) counts c).
  { intros c. now rewrite holder_counts_run, H. }
  unfold count_holders in H.
  destruct (for_each (map snd m) holder_counts_step [])
    as [[[]|e] c] eqn:E; [|discriminate].
  injection H as <-.
  destruct (holder_counts_invariant _ _ _ E) as (H1 & H2 & H3);
    simpl; auto.
  rewrite length_map in H3. auto.
Qed.

Lemma holder_counts_lists_each_holder_once_witness :
  exists counts,
    count_holders owners_map = Ok counts /\
    distinct_keys counts /\
    List.length counts <= 3.
Proof.
  eexists. split; [reflexivity|].
  destruct (holder_counts_lists_each_holder_once owners_map _ eq_refl)
    as (H1 & _ & H3 & _).
  split; [exact H1 | exact H3].
Defined.

(** ** Snapshot and holder counts agree *)

Lemma holder_snapshot_step_row item rows :
  wf_snapshot (snd item) = true ->
  exists name,
    token_name_of (snd item) = Some name /\
    holder_snapshot_step item rows =
      (Ok tt,
       rows ++ [[PStr (csv_number name); PStr name; PStr (fst item);
                 resolved_address (snd item); amount_of (snd item)]]).
Proof.
  destruct item as [token r].
  unfold wf_snapshot, token_name_of, resolved_address, amount_of. simpl.
  destruct (dict_get r "holders") as [[| | | | | |h]|] eqn:Hh;
    try discriminate.
  destruct (dict_get r "account") as [[| | | | | |account]|] eqn:Ha;
    try discriminate.
  destruct (dict_get account "data") as [[| | | | | |data]|] eqn:Hd;
    try discriminate.
  destruct (dict_get data "name") as [[| | |name| | |]|] eqn:Hn;
    try discriminate.
  destruct (dict_get h "info") as [[| | | | | |info]|] eqn:Hi;
    try discriminate.
  destruct (dict_get info "tokenAmount") as [[| | | | | |ta]|] eqn:Ht;
    try discriminate.
  intros _. exists name. split; [reflexivity|].
  unfold holder_snapshot_step, bind, lift, modify, py_item, py_get, get.
  simpl. rewrite Hh, Ha, Hi, Hd, Hn, Ht. reflexivity.
Qed.

Lemma holder_snapshot_rows m : forall rows,
  forallb wf_snapshot (map snd m) = true ->
  exists rows',
    for_each m holder_snapshot_step rows = (Ok tt, rows ++ rows') /\
    map (fun row => nth 3 row PNone) rows'
      = map resolved_address (map snd m) /\
    map (fun row => nth 4 row PNone) rows' = map amount_of (map snd m).
Proof.
  induction m as [|item m IH]; intros rows Hwf.
  - exists []. rewrite app_nil_r. repeat split.
  - simpl in Hwf. apply andb_true_iff in Hwf as [Hi Hm].
    destruct (holder_snapshot_step_row item rows Hi) as (name & _ & Hrun).
    destruct (IH (rows ++ [[PStr (csv_number name); PStr name;
                            PStr (fst item); resolved_address (snd item);
                            amount_of (snd item)]]) Hm)
      as (rows' & Hrun' & H3 & H4).
    eexists (_ :: rows'). split; [|split].
    + simpl. unfold bind. rewrite Hrun, Hrun'. now rewrite <- app_assoc.
    + simpl. now rewrite H3.
    + simpl. now rewrite H4.
Qed.

Lemma count_if_map {A B} (f : A -> B) (p : B -> bool) l :
  count_if p (map f l) = count_if (fun x => p (f x)) l.
Proof.
  induction l as [|x l IH]; [reflexivity|].
  simpl map. now rewrite !count_if_cons, IH.
Qed.

(** X14.  The snapshot and the holder counts resolve the holder the same
    way.  For a map with complete holder data and token names, the loop
    of [holder_counts] completes, and the HolderAddress column of the
    snapshot holds, row by row, the address under which the loop counts
    the token, so the count of an address is the number of rows that
    carry it; the TotalHeld column holds the stored amount.  When the
    addresses are strings, [holder_counts] goes on to print its report
    and returns. *)
Theorem snapshot_addresses_match_holder_counts :
  forall (m : tokenmap),
    forallb wf_snapshot (map snd m) = true ->
    forallb has_owner_info (map snd m) = true ->
    exists rows counts,
      holder_snapshot m = Ok rows /\
      count_holders m = Ok counts /\
      map (fun row => nth 3 row PNone) rows
        = map resolved_address (map snd m) /\
      map (fun row => nth 4 row PNone) rows = map amount_of (map snd m) /\
      (forall a, count_of counts a =
         count_if (fun row => key_eqb (nth 3 row PNone) a) rows) /\
      (forallb has_text_owner (map snd m) = true ->
       forall c, fst (holder_counts m c) = Ok tt).
Proof.
  intros m Hs Ho.
  destruct (holder_snapshot_rows m [] Hs) as (rows & Hrun & H3 & H4).
  destruct (holder_counts_loop (map snd m) [] Ho) as (counts & Hc & Hcount & _).
  exists rows, counts. unfold holder_snapshot, count_holders.
  rewrite Hrun, Hc. simpl.
  split; [reflexivity|]. split; [reflexivity|].
  split; [exact H3|]. split; [exact H4|]. split.
  - intros a. rewrite Hcount.
    change (count_of [] a) with 0%Z. rewrite Z.add_0_l.
    rewrite <- (count_if_map (fun row => nth 3 row PNone)
                  (fun v => key_eqb v a) rows), H3.
    symmetry. apply (count_if_map resolved_address (fun v => key_eqb v a)).
  - intros Ht c.
    destruct (holder_counts_text m c Ht) as (counts' & listed & _ & _ & Hp).
    now rewrite Hp.
Qed.

Lemma snapshot_addresses_match_holder_counts_witness :
  exists rows counts,
    holder_snapshot snapshot_map = Ok rows /\
    count_holders snapshot_map = Ok counts /\
    count_of counts (PStr "wallet") = 2%Z /\
    fst (holder_counts snapshot_map (mkConsole [] [])) = Ok tt.
Proof.
  destruct (snapshot_addresses_match_holder_counts snapshot_map)
    as (rows & counts & H1 & H2 & _ & _ & _ & H6); try reflexivity.
  exists rows, counts. split; [exact H1|]. split; [exact H2|].
  split; [|apply H6; reflexivity].
  vm_compute in H2. injection H2 as <-. reflexivity.
Defined.

(** ** Trait distribution: tokens without attributes *)

Lemma count_attribute_log_blind a st st2 :
  counters st = counters st2 ->
  fst (count_attribute a st) = fst (count_attribute a st2) /\
  counters (snd (count_attribute a st))
    = counters (snd (count_attribute a st2)).
Proof.
  destruct st as [t ac lg], st2 as [t2 ac2 lg2]. unfold counters. simpl.
  intros [= <- <-].
  unfold count_attribute, bind, lift.
  destruct (py_item a "trait_type") as [tt|e]; [|auto].
  destruct (py_item a "value") as [v|e]; [|auto].
  simpl. destruct (hashable tt); [|auto].
  destruct (kd_get (ensure_trait ac tt) tt); [|auto].
  destruct (increment _ _); auto.
Qed.

Lemma for_each_log_blind {A} (body : A -> M trait_state unit) l :
  (forall x st st2, counters st = counters st2 ->
     fst (body x st) = fst (body x st2) /\
     counters (snd (body x st)) = counters (snd (body x st2))) ->
  forall st st2, counters st = counters st2 ->
    fst (for_each l body st) = fst (for_each l body st2) /\
    counters (snd (for_each l body st))
      = counters (snd (for_each l body st2)).
Proof.
  intros Hb. induction l as [|x l IH]; intros st st2 Hc; simpl; auto.
  unfold bind. destruct (Hb x st st2 Hc) as [H1 H2].
  destruct (body x st) as [[[]|e] s]; destruct (body x st2) as [[[]|e'] s2];
    simpl in *; try discriminate; auto.
Qed.

Lemma attribute_distribution_step_log_blind item st st2 :
  counters st = counters st2 ->
  fst (attribute_distribution_step item st)
    = fst (attribute_distribution_step item st2) /\
  counters (snd (attribute_distribution_step item st))
    = counters (snd (attribute_distribution_step item st2)).
Proof.
  intros Hc. unfold attribute_distribution_step, bind, lift.
  destruct (py_item (PDict (snd item)) "arweave") as [a|e]; [|auto].
  destruct (py_get a "attributes") as [attrs|e]; [|auto].
  destruct (truthy attrs).
  - unfold modify. destruct (py_iter attrs) as [l|e].
    + apply for_each_log_blind; [apply count_attribute_log_blind|].
      unfold counters in *. simpl. congruence.
    + simpl. unfold counters in *. simpl. split; congruence.
  - unfold modify. simpl. split; auto.
Qed.

Lemma no_attributes_step item st :
  no_attributes (snd item) = true ->
  fst (attribute_distribution_step item st) = Ok tt /\
  counters (snd (attribute_distribution_step item st)) = counters st.
Proof.
  unfold no_attributes, attribute_distribution_step, bind, lift, py_item,
    py_get. simpl.
  destruct (dict_get (snd item) "arweave") as [[| | | | | |a]|];
    try discriminate.
  intros H. apply negb_true_iff in H. rewrite H. auto.
Qed.

Lemma skip_tokens_without_attributes m : forall st st2,
  counters st = counters st2 ->
  fst (for_each m attribute_distribution_step st) =
  fst (for_each (filter (fun item => negb (no_attributes (snd item))) m)
         attribute_distribution_step st2) /\
  counters (snd (for_each m attribute_distribution_step st)) =
  counters (snd (for_each
                   (filter (fun item => negb (no_attributes (snd item))) m)
                   attribute_distribution_step st2)).
Proof.
  induction m as [|item m IH]; intros st st2 Hc; simpl; auto.
  destruct (no_attributes (snd item)) eqn:Hn; simpl.
  - unfold bind. destruct (no_attributes_step item st Hn) as [H1 H2].
    destruct (attribute_distribution_step item st) as [o s].
    simpl in H1, H2. subst o. apply IH. congruence.
  - unfold bind.
    destruct (attribute_distribution_step_log_blind item st st2 Hc)
      as [H1 H2].
    destruct (attribute_distribution_step item st) as [[[]|e] s];
      destruct (attribute_distribution_step item st2) as [[[]|e'] s2];
      simpl in *; try discriminate; auto.
Qed.

(** What a report prints and how it ends do not depend on what was
    logged before. *)
Lemma for_each_same_output {A} (body : A -> M console unit) l :
  (forall x out lg lg',
     same_output (body x (mkConsole out lg)) (body x (mkConsole out lg'))) ->
  forall out lg lg',
    same_output (for_each l body (mkConsole out lg))
      (for_each l body (mkConsole out lg')).
Proof.
  intros Hbody. induction l as [|x l IH]; intros out lg lg'.
  - split; reflexivity.
  - simpl for_each. unfold bind.
    destruct (Hbody x out lg lg') as [H1 H2].
    destruct (body x (mkConsole out lg)) as [[[]|e] [out1 lg1]];
      destruct (body x (mkConsole out lg')) as [[[]|e'] [out2 lg2]];
      simpl in H1, H2; try discriminate; subst.
    + apply IH.
    + split; [exact H1 | reflexivity].
Qed.

Lemma print_value_frequency_same_output float_text total entry out lg lg' :
  same_output
    (print_value_frequency float_text total entry (mkConsole out lg))
    (print_value_frequency float_text total entry (mkConsole out lg')).
Proof.
  unfold print_value_frequency, bind, lift.
  destruct (frequency_str float_text (snd entry) total);
    [|split; reflexivity].
  destruct (str_concat (fst entry) (PStr ": ")); split; reflexivity.
Qed.

Lemma print_trait_same_output float_text total entry out lg lg' :
  same_output (print_trait float_text total entry (mkConsole out lg))
    (print_trait float_text total entry (mkConsole out lg')).
Proof.
  unfold print_trait, bind, lift.
  destruct (str_concat (PStr newline) (fst entry)); [|split; reflexivity].
  rewrite !py_print_run. cbn [stdout logged].
  destruct (sort_dict_by_values_any (snd entry) false);
    [|split; reflexivity].
  apply for_each_same_output. intros.
  apply print_value_frequency_same_output.
Qed.

Lemma print_trait_frequency_same_output float_text total ac out lg lg' :
  same_output (print_trait_frequency float_text total ac (mkConsole out lg))
    (print_trait_frequency float_text total ac (mkConsole out lg')).
Proof.
  unfold print_trait_frequency, bind.
  rewrite !py_print_run. cbn [stdout logged].
  apply for_each_same_output. intros. apply print_trait_same_output.
Qed.

(** X15.  Tokens whose metadata has no attributes are skipped: leaving
    them out of the map gives the same result, the same counters or the
    same exception from the loop of [attribute_distribution], and the
    same printed lines and the same return or exception from the
    function. *)
Theorem tokens_without_attributes_are_skipped :
  forall (m : tokenmap),
    count_attributes m =
    count_attributes
      (filter (fun item => negb (no_attributes (snd item))) m) /\
    forall float_text c,
      same_output (attribute_distribution float_text m c)
        (attribute_distribution float_text
           (filter (fun item => negb (no_attributes (snd item))) m) c).
Proof.
  intros m.
  destruct (skip_tokens_without_attributes m (mkTraits 0 [] [])
              (mkTraits 0 [] []) eq_refl) as [H1 H2].
  split.
  - unfold count_attributes.
    destruct (for_each m _ _) as [[[]|e] s];
      destruct (for_each (filter _ m) _ _) as [[[]|e'] s2];
      simpl in *; try discriminate; [|congruence].
    unfold counters in H2. congruence.
  - intros float_text c. unfold attribute_distribution.
    destruct (for_each m _ _) as [[[]|e] s];
      destruct (for_each (filter _ m) _ _) as [[[]|e'] s2];
      simpl in H1, H2; try discriminate.
    + unfold counters in H2. injection H2 as -> ->.
      apply print_trait_frequency_same_output.
    + split; [exact H1 | reflexivity].
Qed.

(** ** Sorting a dictionary by its values *)

(** A strictly sorted list is determined by its elements. *)
Lemma strictly_sorted_unique (l1 : list (Z * string)) : forall l2,
  StronglySorted (fun a b => tuple_ltb a b = true) l1 ->
  StronglySorted (fun a b => tuple_ltb a b = true) l2 ->
  Permutation l1 l2 -> l1 = l2.
Proof.
  induction l1 as [|a t IH]; intros l2 H1 H2 Hp.
  - apply Permutation_nil in Hp. now subst.
  - destruct l2 as [|b u].
    { symmetry in Hp. apply Permutation_nil in Hp. discriminate. }
    inversion H1 as [|? ? Ht Ha]; subst.
    inversion H2 as [|? ? Hu Hb]; subst.
    assert (Hab : a = b).
    { assert (Hin : In a (b :: u))
        by (eapply Permutation_in; [exact Hp | now left]).
      destruct Hin as [<-|Hin]; [reflexivity|].
      assert (Hin' : In b (a :: t))
        by (eapply Permutation_in;
            [symmetry; exact Hp | now left]).
      destruct Hin' as [->|Hin']; [reflexivity|].
      rewrite Forall_forall in Ha, Hb.
      pose proof (tuple_ltb_trans a b a (Ha _ Hin') (Hb _ Hin)) as Hc.
      rewrite tuple_ltb_irrefl in Hc. discriminate. }
    subst b. f_equal. apply IH; auto.
    eapply Permutation_cons_inv; eauto.
Qed.

Lemma sort_ascending_rev l :
  NoDup l -> sort_ascending (rev l) = sort_ascending l.
Proof.
  intros Hnd. apply strictly_sorted_unique.
  - apply sort_ascending_sorted.
    eapply Permutation_NoDup; [apply Permutation_rev | exact Hnd].
  - now apply sort_ascending_sorted.
  - rewrite !sort_ascending_perm. symmetry. apply Permutation_rev.
Qed.

Lemma swapped_keys (counts : dict Z) :
  map snd (map (fun kv : string * Z => (snd kv, fst kv)) counts)
    = dict_keys counts.
Proof. unfold dict_keys. rewrite map_map. reflexivity. Qed.

Lemma swapped_NoDup (counts : dict Z) :
  NoDup (dict_keys counts) ->
  NoDup (map (fun kv : string * Z => (snd kv, fst kv)) counts).
Proof.
  intros Hnd. apply (NoDup_map_inv snd). now rewrite swapped_keys.
Qed.

Lemma sort_dict_by_values_run (counts : dict Z) reverse :
  NoDup (dict_keys counts) ->
  sort_dict_by_values counts reverse =
    map (fun vk : Z * string => (snd vk, fst vk))
      (sorted (map (fun kv : string * Z => (snd kv, fst kv)) counts) reverse).
Proof.
  intros Hnd. unfold sort_dict_by_values.
  apply dict_of_pairs_distinct. rewrite map_map. simpl.
  set (tuples := map (fun kv : string * Z => (snd kv, fst kv)) counts).
  assert (Hp : Permutation (sorted tuples reverse) tuples).
  { unfold sorted. destruct reverse.
    - rewrite <- Permutation_rev, sort_ascending_perm.
      symmetry. apply Permutation_rev.
    - apply sort_ascending_perm. }
  eapply Permutation_NoDup.
  - symmetry. apply (Permutation_map snd). exact Hp.
  - subst tuples. now rewrite swapped_keys.
Qed.

Lemma sort_dict_by_values_perm (counts : dict Z) reverse :
  NoDup (dict_keys counts) ->
  Permutation (sort_dict_by_values counts reverse) counts.
Proof.
  intros Hnd. rewrite sort_dict_by_values_run by exact Hnd.
  set (tuples := map (fun kv : string * Z => (snd kv, fst kv)) counts).
  apply Permutation_trans
    with (map (fun vk : Z * string => (snd vk, fst vk)) tuples).
  - apply Permutation_map. unfold sorted. destruct reverse.
    + rewrite <- Permutation_rev, sort_ascending_perm.
      symmetry. apply Permutation_rev.
    + apply sort_ascending_perm.
  - subst tuples. now rewrite swap_swap.
Qed.

(** X16.  Without [reverse] the dictionary comes back as a permutation of
    its entries in strictly ascending order of (value, key), and with
    [reverse] it is exactly the same list reversed. *)
Theorem sort_dict_by_values_ascending_and_reverse :
  forall (counts : dict Z),
    NoDup (dict_keys counts) ->
    Permutation (sort_dict_by_values counts false) counts /\
    StronglySorted (fun a b => outranks b a)
      (sort_dict_by_values counts false) /\
    sort_dict_by_values counts true = rev (sort_dict_by_values counts false).
Proof.
  intros counts Hnd.
  split; [now apply sort_dict_by_values_perm|].
  pose proof (swapped_NoDup counts Hnd) as Hnd'.
  rewrite !sort_dict_by_values_run by exact Hnd.
  set (tuples := map (fun kv : string * Z => (snd kv, fst kv)) counts) in *.
  unfold sorted. split.
  - pose proof (sort_ascending_sorted tuples Hnd') as Hs.
    induction Hs as [|a l Hs IH Hall]; simpl; constructor; auto.
    rewrite Forall_forall in *. intros b Hb.
    apply in_map_iff in Hb as (b' & <- & Hb').
    specialize (Hall b' Hb'). apply tuple_ltb_spec in Hall.
    unfold outranks. simpl. destruct Hall as [H|[H1 H2]]; auto.
  - rewrite sort_ascending_rev by exact Hnd'. now rewrite map_rev.
Qed.

Lemma sort_dict_by_values_ascending_and_reverse_witness :
  sort_dict_by_values scenario_counts true
    = rev (sort_dict_by_values scenario_counts false).
Proof.
  destruct (sort_dict_by_values_ascending_and_reverse scenario_counts)
    as (_ & _ & H).
  - repeat constructor; simpl; intuition discriminate.
  - exact H.
Defined.

Lemma dict_get_perm {V} (d1 d2 : dict V) k :
  NoDup (dict_keys d1) -> Permutation d1 d2 ->
  dict_get d1 k = dict_get d2 k.
Proof.
  intros Hnd Hp.
  assert (Hnd2 : NoDup (dict_keys d2)).
  { eapply Permutation_NoDup; [|exact Hnd]. now apply Permutation_map. }
  destruct (dict_get d1 k) as [v|] eqn:E.
  - symmetry. apply In_dict_get; auto.
    eapply Permutation_in; [exact Hp|]. now apply dict_get_In.
  - symmetry. apply dict_get_None. apply dict_get_None in E.
    intros Hin. apply E.
    eapply Permutation_in; [|exact Hin].
    symmetry. now apply Permutation_map.
Qed.

(** X17.  Sorting changes no entry: in either direction every key keeps
    its value, no key is lost or added, and the keys stay distinct. *)
Theorem sort_dict_by_values_keeps_entries :
  forall (counts : dict Z) (reverse : bool),
    NoDup (dict_keys counts) ->
    let sorted_counts := sort_dict_by_values counts reverse in
    (forall k, dict_get sorted_counts k = dict_get counts k) /\
    NoDup (dict_keys sorted_counts) /\
    List.length sorted_counts = List.length counts.
Proof.
  intros counts reverse Hnd sorted_counts.
  assert (Hp : Permutation counts sorted_counts).
  { subst sorted_counts. symmetry.
    now apply sort_dict_by_values_perm. }
  split; [|split].
  - intros k. symmetry. now apply dict_get_perm.
  - eapply Permutation_NoDup; [|exact Hnd]. now apply Permutation_map.
  - symmetry. now apply Permutation_length.
Qed.

Lemma sort_dict_by_values_keeps_entries_witness :
  dict_get (sort_dict_by_values scenario_counts true) "A" = Some 50%Z.
Proof.
  destruct (sort_dict_by_values_keeps_entries scenario_counts true)
    as (H & _).
  - repeat constructor; simpl; intuition discriminate.
  - rewrite H. reflexivity.
Defined.

(** ** Signature lookup *)

Lemma while_429_done (w : solscan) fuel url resp :
  status resp <> 429%Z ->
  while_429 w fuel url resp = finished (ret resp).
Proof.
  intros H. assert (E : (429 =? status resp)%Z = false).
  { apply Z.eqb_neq. congruence. }
  destruct fuel; simpl; fold (429 =? status resp)%Z; now rewrite E.
Qed.

Lemma while_429_again (w : solscan) fuel url resp st :
  status resp = 429%Z ->
  while_429 w (S fuel) url resp st =
    let st' :=
      mkSig (token_list st) (transaction_data st) (S (sent st))
        (sig_trace st ++
         [Plain (Log Debug "Too many requests, sleeping then retrying");
          Plain (Sleep 5); Plain (HttpGet url)]) in
    match requests_get w (sent st) url with
    | Ok r => while_429 w fuel url r st'
    | Raise e => Some (Raise e, st')
    end.
Proof.
  intros H. simpl. rewrite H. simpl.
  unfold lbind, finished, sig_note, modify, requests_get_now. simpl.
  rewrite <- !app_assoc. simpl.
  destruct (requests_get w (sent st) url); reflexivity.
Qed.

Lemma while_429_run (w : solscan) (url : string) :
  forall k fuel resp tl td c t final,
    status resp = 429%Z -> k < fuel ->
    (forall i, i < k ->
       exists r, requests_get w (c + i) url = Ok r /\ status r = 429%Z) ->
    requests_get w (c + k) url = final ->
    (forall r, final = Ok r -> status r <> 429%Z) ->
    while_429 w fuel url resp (mkSig tl td c (t ++ [Plain (HttpGet url)]))
      = Some (final,
              mkSig tl td (c + k + 1)
                (t ++ busy_events url (S k) ++ [Plain (HttpGet url)])).
Proof.
  induction k as [|k IH]; intros fuel resp tl td c t final Hs Hf Hbusy Hfin Hst;
    (destruct fuel as [|fuel]; [lia|]);
    rewrite while_429_again by exact Hs; cbv zeta; simpl sent;
    simpl token_list; simpl transaction_data; simpl sig_trace.
  - rewrite Nat.add_0_r in Hfin. rewrite Hfin.
    replace (c + 0 + 1) with (S c) by lia.
    rewrite <- !app_assoc. simpl.
    destruct final as [r|e]; [|reflexivity].
    rewrite while_429_done by now apply Hst. reflexivity.
  - destruct (Hbusy 0) as (r & Hr & Hrs); [lia|].
    rewrite Nat.add_0_r in Hr. rewrite Hr.
    rewrite <- !app_assoc. simpl.
    specialize (IH fuel r tl td (S c)
                  (t ++ [Plain (HttpGet url);
                         Plain (Log Debug
                                  "Too many requests, sleeping then retrying");
                         Plain (Sleep 5)]) final Hrs).
    rewrite <- !app_assoc in IH. simpl in IH.
    replace (c + S k + 1) with (S c + k + 1) by lia.
    apply IH.
    + lia.
    + intros i Hi. destruct (Hbusy (S i)) as (r' & Hr' & Hrs'); [lia|].
      exists r'. split; [|exact Hrs'].
      rewrite <- Hr'. f_equal. lia.
    + rewrite <- Hfin. f_equal. lia.
    + exact Hst.
Qed.

Lemma make_solscan_request_eq (w : solscan) fuel endpoint st :
  make_solscan_request w fuel endpoint st =
    let url := ("https://public-api.solscan.io/" ++ endpoint)%string in
    let st1 :=
      mkSig (token_list st) (transaction_data st) (S (sent st))
        (sig_trace st ++ [Plain (HttpGet url)]) in
    match requests_get w (sent st) url with
    | Raise e => Some (Raise e, st1)
    | Ok r =>
        match (if (status r =? 429)%Z
               then while_429 w fuel url r st1
               else Some (Ok r, st1)) with
        | None => None
        | Some (Ok r', st2) => Some (resp_json r', st2)
        | Some (Raise e, st2) => Some (Raise e, st2)
        end
    end.
Proof.
  unfold make_solscan_request, lbind, finished, requests_get_now. cbv zeta.
  destruct (requests_get w (sent st) _) as [r|e]; [|reflexivity].
  rewrite (Z.eqb_sym 429 (status r)).
  destruct (status r =? 429)%Z; reflexivity.
Qed.

Lemma make_solscan_request_run (w : solscan) (endpoint : string) :
  forall n fuel st final,
    let url := ("https://public-api.solscan.io/" ++ endpoint)%string in
    (forall i, i < n ->
       exists r, requests_get w (sent st + i) url = Ok r /\
                 status r = 429%Z) ->
    requests_get w (sent st + n) url = final ->
    (forall r, final = Ok r -> status r <> 429%Z) ->
    n <= fuel ->
    make_solscan_request w fuel endpoint st =
      Some (match final with
            | Ok r => resp_json r
            | Raise e => Raise e
            end,
            mkSig (token_list st) (transaction_data st) (sent st + n + 1)
              (sig_trace st ++ busy_events url n ++ [Plain (HttpGet url)])).
Proof.
  intros n fuel st final url Hbusy Hfin Hst Hfuel.
  rewrite make_solscan_request_eq. cbv zeta. fold url.
  destruct n as [|n].
  - rewrite Nat.add_0_r in Hfin. rewrite Hfin.
    replace (sent st + 0 + 1) with (S (sent st)) by lia.
    destruct final as [r|e]; [|reflexivity].
    destruct (status r =? 429)%Z eqn:E.
    { apply Z.eqb_eq in E. now apply Hst in E. }
    reflexivity.
  - destruct (Hbusy 0) as (r & Hr & Hrs); [lia|].
    rewrite Nat.add_0_r in Hr. rewrite Hr, Hrs, Z.eqb_refl.
    rewrite (while_429_run w url n fuel r (token_list st)
               (transaction_data st) (S (sent st)) (sig_trace st) final).
    + replace (S (sent st) + n + 1) with (sent st + S n + 1) by lia.
      destruct final; reflexivity.
    + exact Hrs.
    + lia.
    + intros i Hi. destruct (Hbusy (S i)) as (r' & Hr' & Hrs'); [lia|].
      exists r'. split; [|exact Hrs'].
      rewrite <- Hr'. f_equal. lia.
    + rewrite <- Hfin. f_equal. lia.
    + exact Hst.
Qed.

Lemma signature_handler_eq (e : exn) (st : sig_state) :
  signature_handler e st =
    let warn ev :=
      (Ok tt,
       mkSig (token_list st) (transaction_data st) (sent st)
         (sig_trace st ++ [ev])) in
    if truthy (transaction_data st) then
      match py_get (transaction_data st) "tokenBalances" with
      | Raise e' => (Raise e', st)
      | Ok balances =>
          if truthy balances then warn (WarningOf e)
          else warn (Plain (Log Warning "No Token in Transaction: %s"))
      end
    else warn (WarningOf e).
Proof.
  unfold signature_handler, bind, gets, lift, ret, sig_note, modify.
  cbv zeta.
  destruct (truthy (transaction_data st)); [|reflexivity].
  destruct (py_get (transaction_data st) "tokenBalances") as [b|e'];
    [|reflexivity].
  destruct (truthy b); reflexivity.
Qed.

Lemma signature_step_eq (w : solscan) fuel signature st :
  signature_step w fuel signature st =
    match make_solscan_request w fuel ("transaction/" ++ signature)
            (mkSig (token_list st) (transaction_data st) (sent st)
               (sig_trace st ++ [Plain (Log Debug "Signature: %s")])) with
    | None => None
    | Some (Raise e, st1) => Some (signature_handler e st1)
    | Some (Ok data, st1) =>
        match token_address_of data with
        | Raise e =>
            Some (signature_handler e
                    (mkSig (token_list st1) data (sent st1) (sig_trace st1)))
        | Ok token_address =>
            Some (add_token token_address
                    (mkSig (token_list st1) data (sent st1)
                       (sig_trace st1 ++ [Plain (Log Debug "Token: %s")])))
        end
    end.
Proof.
  unfold signature_step, ltry, signature_body.
  unfold lbind at 1. unfold finished at 1. unfold sig_note at 1.
  unfold modify at 1. unfold lbind.
  destruct (make_solscan_request w fuel _ _) as [[[data|e] st1]|];
    [|reflexivity|reflexivity].
  unfold finished, bind, modify, lift, sig_note.
  destruct (token_address_of data); reflexivity.
Qed.

Lemma while_429_frame (w : solscan) url :
  forall fuel resp st o st',
    while_429 w fuel url resp st = Some (o, st') ->
    token_list st' = token_list st /\
    transaction_data st' = transaction_data st /\
    forall r, o = Ok r ->
      r = resp \/ exists i, requests_get w i url = Ok r.
Proof.
  induction fuel as [|fuel IH]; intros resp st o st' H.
  - destruct (Z.eq_dec (status resp) 429) as [E|E].
    + simpl in H. rewrite E in H. simpl in H. discriminate.
    + rewrite while_429_done in H by exact E.
      unfold finished, ret in H. inversion H; subst.
      repeat split; auto. intros r Hr. inversion Hr. now left.
  - destruct (Z.eq_dec (status resp) 429) as [E|E].
    + rewrite while_429_again in H by exact E. cbv zeta in H.
      destruct (requests_get w (sent st) url) as [r|e] eqn:Hreq.
      * apply IH in H. simpl in H. destruct H as (H1 & H2 & H3).
        repeat split; auto. intros r' Hr'.
        destruct (H3 r' Hr') as [->|Hex]; [|now right].
        right. now exists (sent st).
      * inversion H; subst. simpl. repeat split; auto. discriminate.
    + rewrite while_429_done in H by exact E.
      unfold finished, ret in H. inversion H; subst.
      repeat split; auto. intros r Hr. inversion Hr. now left.
Qed.

Lemma make_solscan_request_frame (w : solscan) fuel endpoint st o st' :
  make_solscan_request w fuel endpoint st = Some (o, st') ->
  token_list st' = token_list st /\
  transaction_data st' = transaction_data st /\
  forall data, o = Ok data ->
    exists i url r, requests_get w i url = Ok r /\ resp_json r = Ok data.
Proof.
  rewrite make_solscan_request_eq. cbv zeta.
  set (url := ("https://public-api.solscan.io/" ++ endpoint)%string).
  destruct (requests_get w (sent st) url) as [r|e] eqn:Hreq.
  - destruct (status r =? 429)%Z.
    + destruct (while_429 w fuel url r _) as [[[r'|e] st2]|] eqn:Hw;
        [| |discriminate]; intros H; inversion H; subst;
        apply while_429_frame in Hw; simpl in Hw;
        destruct Hw as (H1 & H2 & H3).
      * repeat split; auto. intros data Hd.
        destruct (H3 r' eq_refl) as [->|[i Hi]].
        -- now exists (sent st), url, r.
        -- now exists i, url, r'.
      * repeat split; auto. discriminate.
    + intros H. inversion H; subst. simpl. repeat split; auto.
      intros data Hd. now exists (sent st), url, r.
  - intros H. inversion H; subst. simpl. repeat split; auto. discriminate.
Qed.

Lemma while_429_finishes (w : solscan) url :
  forall fuel k resp st,
    k < fuel ->
    busy (requests_get w (sent st + k) url) = false ->
    exists o st', while_429 w fuel url resp st = Some (o, st').
Proof.
  induction fuel as [|fuel IH]; intros k resp st Hk Hb; [lia|].
  destruct (Z.eq_dec (status resp) 429) as [E|E].
  - rewrite while_429_again by exact E. cbv zeta.
    destruct (requests_get w (sent st) url) as [r|e] eqn:Hreq;
      [|eauto].
    destruct k as [|k].
    + rewrite Nat.add_0_r, Hreq in Hb. simpl in Hb.
      apply Z.eqb_neq in Hb.
      rewrite while_429_done by exact Hb. unfold finished, ret. eauto.
    + apply (IH k); [lia|]. simpl.
      now replace (S (sent st + k)) with (sent st + S k) by lia.
  - rewrite while_429_done by exact E. unfold finished, ret. eauto.
Qed.

Lemma make_solscan_request_finishes (w : solscan) patience fuel endpoint st :
  settles_within w patience -> patience <= fuel ->
  exists o st', make_solscan_request w fuel endpoint st = Some (o, st').
Proof.
  intros Hs Hf. rewrite make_solscan_request_eq. cbv zeta.
  set (url := ("https://public-api.solscan.io/" ++ endpoint)%string).
  destruct (Hs (sent st) url) as (k & Hk & Hb).
  destruct (requests_get w (sent st) url) as [r|e] eqn:Hreq; [|eauto].
  destruct (status r =? 429)%Z eqn:E; [|eauto].
  destruct k as [|k].
  { rewrite Nat.add_0_r, Hreq in Hb. simpl in Hb. congruence. }
  destruct (while_429_finishes w url fuel k r
              (mkSig (token_list st) (transaction_data st) (S (sent st))
                 (sig_trace st ++ [Plain (HttpGet url)])))
    as ([r'|e] & st2 & Hw).
  - lia.
  - simpl. now replace (S (sent st + k)) with (sent st + S k) by lia.
  - rewrite Hw. eauto.
  - rewrite Hw. eauto.
Qed.

Lemma signature_handler_safe (e : exn) (st : sig_state) :
  object_or_falsy (transaction_data st) = true ->
  exists ev,
    signature_handler e st =
      (Ok tt,
       mkSig (token_list st) (transaction_data st) (sent st)
         (sig_trace st ++ [ev])).
Proof.
  intros H. rewrite signature_handler_eq. cbv zeta.
  destruct (truthy (transaction_data st)) eqn:Ht; [|eauto].
  destruct (transaction_data st) as [| | | | | |d] eqn:Htd;
    unfold object_or_falsy in H;
    try (rewrite Ht in H; discriminate).
  simpl. destruct (truthy (get d "tokenBalances")); eauto.
Qed.

Lemma signature_handler_unsafe (e : exn) (st : sig_state) :
  object_or_falsy (transaction_data st) = false ->
  signature_handler e st = (Raise AttributeError, st).
Proof.
  intros H. rewrite signature_handler_eq. cbv zeta.
  destruct (transaction_data st) as [| | | | | |d];
    unfold object_or_falsy in H; try discriminate;
    apply negb_false_iff in H; rewrite H; reflexivity.
Qed.

Lemma add_token_run (a : pyval) (st : sig_state) :
  add_token a st =
    (Ok tt,
     mkSig (if py_in a (token_list st) then token_list st
            else token_list st ++ [a])
       (transaction_data st) (sent st) (sig_trace st)).
Proof.
  unfold add_token, modify.
  destruct (py_in a (token_list st)); simpl; [now destruct st | reflexivity].
Qed.

Lemma pairwise_distinct_snoc (l : list pyval) (a : pyval) :
  pairwise_distinct l = true -> py_in a l = false ->
  pairwise_distinct (l ++ [a]) = true.
Proof.
  unfold py_in. induction l as [|x t IH]; simpl; intros Hd Hin.
  - reflexivity.
  - apply andb_true_iff in Hd as [Hx Ht].
    apply orb_false_iff in Hin as [Hxa Hta].
    rewrite existsb_app. simpl. rewrite Hxa.
    apply negb_true_iff in Hx. rewrite Hx. simpl.
    now apply IH.
Qed.

Lemma signature_step_safe (w : solscan) fuel signature st o st' :
  bodies_are_objects w ->
  object_or_falsy (transaction_data st) = true ->
  pairwise_distinct (token_list st) = true ->
  signature_step w fuel signature st = Some (o, st') ->
  o = Ok tt /\
  object_or_falsy (transaction_data st') = true /\
  pairwise_distinct (token_list st') = true /\
  List.length (token_list st') <= S (List.length (token_list st)).
Proof.
  intros Hb Htd Hdist. rewrite signature_step_eq.
  destruct (make_solscan_request w fuel _ _) as [[[data|e] st1]|] eqn:Hreq;
    [| |discriminate];
    apply make_solscan_request_frame in Hreq; simpl in Hreq;
    destruct Hreq as (Htl & Htd1 & Hbody).
  - destruct (Hbody data eq_refl) as (i & url & r & Hr & Hj).
    pose proof (Hb i url r data Hr Hj) as Hobj.
    destruct (token_address_of data) as [a|e].
    + rewrite add_token_run. simpl. intros H. inversion H; subst.
      simpl. rewrite Htl. repeat split; auto.
      * destruct (py_in a (token_list st)) eqn:Hin; [exact Hdist|].
        now apply pairwise_distinct_snoc.
      * destruct (py_in a (token_list st)); [lia|].
        rewrite length_app. simpl. lia.
    + destruct (signature_handler_safe e
                  (mkSig (token_list st1) data (sent st1) (sig_trace st1)))
        as (ev & Hh); [exact Hobj|].
      rewrite Hh. intros H. inversion H; subst. simpl.
      rewrite Htl. repeat split; auto.
  - destruct (signature_handler_safe e st1) as (ev & Hh).
    { now rewrite Htd1. }
    rewrite Hh. intros H. inversion H; subst. simpl.
    rewrite Htl, Htd1. repeat split; auto.
Qed.

Lemma signature_step_finishes (w : solscan) patience fuel signature st :
  settles_within w patience -> patience <= fuel ->
  exists o st', signature_step w fuel signature st = Some (o, st').
Proof.
  intros Hs Hf. rewrite signature_step_eq.
  destruct (make_solscan_request_finishes w patience fuel
              ("transaction/" ++ signature)
              (mkSig (token_list st) (transaction_data st) (sent st)
                 (sig_trace st ++ [Plain (Log Debug "Signature: %s")]))
              Hs Hf) as ([data|e] & st1 & Hreq); rewrite Hreq.
  - destruct (token_address_of data).
    + rewrite add_token_run. eauto.
    + destruct (signature_handler _ _). eauto.
  - destruct (signature_handler _ _). eauto.
Qed.

Lemma signature_loop_safe (w : solscan) fuel :
  bodies_are_objects w ->
  forall signature_list st o st',
    object_or_falsy (transaction_data st) = true ->
    pairwise_distinct (token_list st) = true ->
    lfor_each signature_list (signature_step w fuel) st = Some (o, st') ->
    o = Ok tt /\
    pairwise_distinct (token_list st') = true /\
    List.length (token_list st')
      <= List.length (token_list st) + List.length signature_list.
Proof.
  intros Hb. induction signature_list as [|s t IH]; intros st o st' Htd Hd H.
  - simpl in H. unfold finished, ret in H. inversion H; subst.
    repeat split; auto. lia.
  - simpl in H. unfold lbind in H.
    destruct (signature_step w fuel s st) as [[[[]|e] st1]|] eqn:Hstep;
      [| |discriminate];
      apply signature_step_safe in Hstep; auto;
      destruct Hstep as (Ho & Htd1 & Hd1 & Hlen); [|discriminate].
    apply IH in H; auto. destruct H as (-> & Hd' & Hlen').
    repeat split; auto. simpl. lia.
Qed.

Lemma signature_loop_finishes (w : solscan) patience fuel :
  settles_within w patience -> patience <= fuel ->
  forall signature_list st,
    exists o st',
      lfor_each signature_list (signature_step w fuel) st = Some (o, st').
Proof.
  intros Hs Hf. induction signature_list as [|s t IH]; intros st.
  - simpl. unfold finished, ret. eauto.
  - simpl. unfold lbind.
    destruct (signature_step_finishes w patience fuel s st Hs Hf)
      as ([[]|e] & st1 & Hstep); rewrite Hstep; eauto.
Qed.

Lemma get_token_list_from_signatures_run (w : solscan) fuel file lines st :
  dict_get (sig_files w) file = Some lines ->
  get_token_list_from_signatures w fuel file st =
    match lfor_each lines (signature_step w fuel)
            (mkSig [] PNone (sent st) (sig_trace st)) with
    | None => None
    | Some (Ok _, st') => Some (Ok (token_list st'), st')
    | Some (Raise e, st') => Some (Raise e, st')
    end.
Proof.
  intros Hf. unfold get_token_list_from_signatures. rewrite Hf.
  unfold lbind, finished, lift, modify, gets.
  destruct (lfor_each lines _ _) as [[[[]|e] st']|]; reflexivity.
Qed.

Lemma get_token_list_from_signatures_no_file (w : solscan) fuel file st :
  dict_get (sig_files w) file = None ->
  get_token_list_from_signatures w fuel file st = Some (Raise OSError, st).
Proof.
  intros Hf. unfold get_token_list_from_signatures. rewrite Hf.
  reflexivity.
Qed.

(** X18.  [make_solscan_request] waits out a rate limit: after [n]
    answers with status 429 it has slept [n] times five seconds and made
    [n + 1] requests, and it hands back [response.json()] of the first
    other answer whatever its status, or raises what the request or the
    decoding raises. *)
Theorem solscan_request_waits_out_rate_limit :
  forall (w : solscan) (endpoint : string) (n fuel : nat) (st : sig_state)
         (final : outcome response),
    let url := ("https://public-api.solscan.io/" ++ endpoint)%string in
    (forall i, i < n ->
       exists r, requests_get w (sent st + i) url = Ok r /\
                 status r = 429%Z) ->
    requests_get w (sent st + n) url = final ->
    (forall r, final = Ok r -> status r <> 429%Z) ->
    n <= fuel ->
    make_solscan_request w fuel endpoint st =
      Some (match final with
            | Ok r => resp_json r
            | Raise e => Raise e
            end,
            mkSig (token_list st) (transaction_data st) (sent st + n + 1)
              (sig_trace st ++ busy_events url n ++ [Plain (HttpGet url)])).
Proof.
  intros w endpoint n fuel st final url Hbusy Hfin Hst Hfuel.
  now apply make_solscan_request_run.
Qed.

Lemma solscan_request_waits_out_rate_limit_witness :
  make_solscan_request busy_twice_solscan 2 "transaction/s1" sig_start =
    Some (Ok (transaction_reply (PStr "mintA")),
          mkSig [] PNone 3
            (busy_events (transaction_url "s1") 2
               ++ [Plain (HttpGet (transaction_url "s1"))])).
Proof.
  apply (solscan_request_waits_out_rate_limit busy_twice_solscan
           "transaction/s1" 2 2 sig_start
           (ok_response (transaction_reply (PStr "mintA")))).
  - intros i Hi. destruct i as [|[|i]]; [| |lia];
      (eexists; split; reflexivity).
  - reflexivity.
  - intros r H. inversion H. simpl. lia.
  - lia.
Defined.

Lemma while_429_forever (w : solscan) url :
  forall fuel resp st,
    status resp = 429%Z ->
    (forall i, sent st <= i -> busy (requests_get w i url) = true) ->
    while_429 w fuel url resp st = None.
Proof.
  induction fuel as [|fuel IH]; intros resp st Hs Hb.
  - simpl. now rewrite Hs.
  - rewrite while_429_again by exact Hs. cbv zeta.
    pose proof (Hb (sent st) (Nat.le_refl _)) as H0.
    destruct (requests_get w (sent st) url) as [r|e]; [|discriminate].
    simpl in H0. apply Z.eqb_eq in H0.
    apply IH; [exact H0|]. simpl. intros i Hi. apply Hb. lia.
Qed.

Lemma make_solscan_request_forever (w : solscan) fuel endpoint st :
  (forall i, sent st <= i ->
     busy (requests_get w i ("https://public-api.solscan.io/" ++ endpoint))
       = true) ->
  make_solscan_request w fuel endpoint st = None.
Proof.
  intros Hb. rewrite make_solscan_request_eq. cbv zeta.
  pose proof (Hb (sent st) (Nat.le_refl _)) as H0.
  destruct (requests_get w (sent st) _) as [r|e]; [|discriminate].
  simpl in H0. rewrite H0. apply Z.eqb_eq in H0.
  rewrite while_429_forever; auto.
  simpl. intros i Hi. apply Hb. lia.
Qed.

(** X19.  [make_solscan_request] never gives up: as long as the service
    answers 429 the loop goes on, however many iterations it is given,
    and the lookup that asks for the first signature of its file never
    returns either; the [try] around the request does not end it. *)
Theorem solscan_request_never_gives_up :
  forall (w : solscan) (signature : string) (st : sig_state),
    (forall i, sent st <= i ->
       busy (requests_get w i (transaction_url signature)) = true) ->
    (forall fuel,
       make_solscan_request w fuel ("transaction/" ++ signature) st = None) /\
    (forall fuel file rest,
       dict_get (sig_files w) file = Some (signature :: rest) ->
       get_token_list_from_signatures w fuel file st = None).
Proof.
  intros w signature st Hb. split.
  - intros fuel. now apply make_solscan_request_forever.
  - intros fuel file rest Hf.
    rewrite (get_token_list_from_signatures_run w fuel file _ st Hf).
    simpl lfor_each. unfold lbind. rewrite signature_step_eq.
    rewrite make_solscan_request_forever; [reflexivity|].
    simpl. exact Hb.
Qed.

Lemma solscan_request_never_gives_up_witness :
  get_token_list_from_signatures always_busy_solscan 1000 "sigs.txt"
    sig_start = None.
Proof.
  destruct (solscan_request_never_gives_up always_busy_solscan "s1"
              sig_start) as (_ & H).
  - intros i Hi. reflexivity.
  - apply (H 1000 "sigs.txt" []). reflexivity.
Defined.

(** X20.  A lookup whose service sends only objects (or falsy bodies) and
    is rate limited at most [patience] times in a row returns whenever
    the file can be read: failed requests, undecodable bodies and
    transactions without a token are skipped.  The list it returns has no
    two equal elements and at most one per signature.  A missing file
    raises before any request. *)
Theorem signature_lookup_survives_failed_signatures :
  forall (w : solscan) (patience fuel : nat) (file : string)
         (st : sig_state),
    bodies_are_objects w ->
    settles_within w patience ->
    patience <= fuel ->
    match dict_get (sig_files w) file with
    | None =>
        get_token_list_from_signatures w fuel file st
          = Some (Raise OSError, st)
    | Some lines =>
        exists l st',
          get_token_list_from_signatures w fuel file st = Some (Ok l, st') /\
          token_list st' = l /\
          pairwise_distinct l = true /\
          List.length l <= List.length lines
    end.
Proof.
  intros w patience fuel file st Hb Hs Hf.
  destruct (dict_get (sig_files w) file) as [lines|] eqn:Hfile.
  - rewrite (get_token_list_from_signatures_run w fuel file lines st Hfile).
    destruct (signature_loop_finishes w patience fuel Hs Hf lines
                (mkSig [] PNone (sent st) (sig_trace st)))
      as (o & st' & Hloop).
    rewrite Hloop.
    apply signature_loop_safe in Hloop; auto.
    destruct Hloop as (-> & Hd & Hlen).
    exists (token_list st'), st'. repeat split; auto.
  - now apply get_token_list_from_signatures_no_file.
Qed.

Lemma signature_lookup_survives_failed_signatures_witness :
  exists l st',
    get_token_list_from_signatures busy_twice_solscan 2 "sigs.txt" sig_start
      = Some (Ok l, st') /\
    token_list st' = l /\
    pairwise_distinct l = true /\
    List.length l <= 4.
Proof.
  assert (Hb : bodies_are_objects busy_twice_solscan).
  { intros i url r v Hr Hv.
    destruct i as [|[|[|[|[|i]]]]]; simpl in Hr; inversion Hr; subst;
      simpl in Hv; inversion Hv; reflexivity. }
  assert (Hs : settles_within busy_twice_solscan 2).
  { intros i url. destruct i as [|[|i]].
    - exists 2. split; [lia | reflexivity].
    - exists 1. split; [lia | reflexivity].
    - exists 0. split; [lia|]. rewrite Nat.add_0_r.
      destruct i as [|[|[|i]]]; reflexivity. }
  exact (signature_lookup_survives_failed_signatures busy_twice_solscan
           2 2 "sigs.txt" sig_start Hb Hs (Nat.le_refl 2)).
Defined.

Lemma make_solscan_request_steady (w : solscan) fuel endpoint st :
  let url := ("https://public-api.solscan.io/" ++ endpoint)%string in
  busy (requests_get w (sent st) url) = false ->
  make_solscan_request w fuel endpoint st =
    Some (match requests_get w (sent st) url with
          | Ok r => resp_json r
          | Raise e => Raise e
          end,
          mkSig (token_list st) (transaction_data st) (S (sent st))
            (sig_trace st ++ [Plain (HttpGet url)])).
Proof.
  intros url Hb. rewrite make_solscan_request_eq. cbv zeta. fold url.
  destruct (requests_get w (sent st) url) as [r|e]; [|reflexivity].
  simpl in Hb. now rewrite Hb.
Qed.

Lemma signature_handler_frame (e : exn) (st : sig_state) o st' :
  signature_handler e st = (o, st') ->
  token_list st' = token_list st /\
  transaction_data st' = transaction_data st /\
  sent st' = sent st.
Proof.
  rewrite signature_handler_eq. cbv zeta.
  destruct (truthy (transaction_data st)).
  - destruct (py_get (transaction_data st) "tokenBalances") as [b|e'].
    + destruct (truthy b); intros H; inversion H; subst; auto.
    + intros H; inversion H; subst; auto.
  - intros H; inversion H; subst; auto.
Qed.

Lemma signature_step_steady (w : solscan) fuel signature st o st' :
  busy (requests_get w (sent st) (transaction_url signature)) = false ->
  signature_step w fuel signature st = Some (o, st') ->
  sent st' = S (sent st) /\
  (o = Ok tt ->
   token_list st' =
     match reply_address w (sent st) signature with
     | Ok a => if py_in a (token_list st) then token_list st
               else token_list st ++ [a]
     | Raise _ => token_list st
     end).
Proof.
  intros Hb. rewrite signature_step_eq.
  rewrite make_solscan_request_steady by exact Hb.
  unfold reply_address. fold (transaction_url signature). simpl sent.
  destruct (requests_get w (sent st) (transaction_url signature))
    as [r|e].
  - destruct (resp_json r) as [data|e].
    + destruct (token_address_of data) as [a|e].
      * rewrite add_token_run. simpl. intros H. inversion H; subst.
        simpl. auto.
      * destruct (signature_handler e _) as [o1 st1] eqn:Hh.
        apply signature_handler_frame in Hh. simpl in Hh.
        destruct Hh as (H1 & _ & H3).
        intros H. inversion H; subst. auto.
    + destruct (signature_handler e _) as [o1 st1] eqn:Hh.
      apply signature_handler_frame in Hh. simpl in Hh.
      destruct Hh as (H1 & _ & H3).
      intros H. inversion H; subst. auto.
  - destruct (signature_handler e _) as [o1 st1] eqn:Hh.
    apply signature_handler_frame in Hh. simpl in Hh.
    destruct Hh as (H1 & _ & H3).
    intros H. inversion H; subst. auto.
Qed.

Lemma signature_loop_steady (w : solscan) fuel :
  (forall i url, busy (requests_get w i url) = false) ->
  forall signature_list st st',
    lfor_each signature_list (signature_step w fuel) st
      = Some (Ok tt, st') ->
    sent st' = sent st + List.length signature_list /\
    (forall y, In y (token_list st) -> In y (token_list st')) /\
    (forall a, In a (token_list st') ->
       In a (token_list st) \/
       exists i s, nth_error signature_list i = Some s /\
                   reply_address w (sent st + i) s = Ok a) /\
    (forall i s a,
       nth_error signature_list i = Some s ->
       reply_address w (sent st + i) s = Ok a ->
       exists y, In y (token_list st') /\ (y = a \/ py_eqb y a = true)).
Proof.
  intros Hnb. induction signature_list as [|s t IH]; intros st st' H.
  - simpl in H. unfold finished, ret in H. inversion H; subst.
    split; [simpl; lia|]. split; [auto|]. split; [auto|].
    intros i s a Hi. destruct i; discriminate.
  - simpl in H. unfold lbind in H.
    destruct (signature_step w fuel s st) as [[[[]|e] st1]|] eqn:Hstep;
      try discriminate.
    apply signature_step_steady in Hstep; [|apply Hnb].
    destruct Hstep as (Hsent & Htl). specialize (Htl eq_refl).
    apply IH in H. destruct H as (Hs' & Hmono & Hsound & Hcomplete).
    assert (Hmono1 : forall y, In y (token_list st) ->
                               In y (token_list st1)).
    { intros y Hy. rewrite Htl.
      destruct (reply_address w (sent st) s) as [a|]; [|exact Hy].
      destruct (py_in a (token_list st)); [exact Hy|].
      apply in_or_app. now left. }
    split; [simpl; lia|]. split; [auto|]. split.
    + intros a Ha. destruct (Hsound a Ha) as [Hin|(i & s' & Hi & Hr)].
      * rewrite Htl in Hin.
        destruct (reply_address w (sent st) s) as [a0|] eqn:Hrep;
          [|now left].
        destruct (py_in a0 (token_list st)); [now left|].
        apply in_app_or in Hin as [Hin|[<-|[]]]; [now left|].
        right. exists 0, s. split; [reflexivity|].
        now rewrite Nat.add_0_r.
      * right. exists (S i), s'. split; [exact Hi|].
        rewrite <- Hr. f_equal. lia.
    + intros i s' a Hi Hr. destruct i as [|i].
      * simpl in Hi. inversion Hi; subst s'.
        rewrite Nat.add_0_r in Hr. rewrite Hr in Htl.
        destruct (py_in a (token_list st)) eqn:Hin.
        -- unfold py_in in Hin. apply existsb_exists in Hin.
           destruct Hin as (y & Hy & Heq).
           exists y. split; [|now right]. apply Hmono. now rewrite Htl.
        -- exists a. split; [|now left]. apply Hmono. rewrite Htl.
           apply in_or_app. right. now left.
      * simpl in Hi. apply (Hcomplete i s' a Hi).
        rewrite <- Hr. f_equal. lia.
Qed.

Lemma never_busy_settles (w : solscan) :
  (forall i url, busy (requests_get w i url) = false) ->
  settles_within w 0.
Proof.
  intros Hnb i url. exists 0. split; [lia | apply Hnb].
Qed.

(** X21.  With a service that is never rate limited and sends only
    objects, the lookup makes one request per signature and its list is
    exactly what the answers name: every element is the token address of
    the first balance in the answer to one of the signatures, every
    address so named is in the list or equal to an element of it, and no
    two elements are equal.  An answer whose token has no
    ['tokenAddress'] names the address [None]; an answer in which the
    path of line 360 raises names none. *)
Theorem token_list_holds_each_named_token_once :
  forall (w : solscan) (fuel : nat) (file : string) (lines : list string)
         (st : sig_state),
    dict_get (sig_files w) file = Some lines ->
    (forall i url, busy (requests_get w i url) = false) ->
    bodies_are_objects w ->
    exists l st',
      get_token_list_from_signatures w fuel file st = Some (Ok l, st') /\
      sent st' = sent st + List.length lines /\
      pairwise_distinct l = true /\
      (forall a, In a l ->
         exists i s, nth_error lines i = Some s /\
                     reply_address w (sent st + i) s = Ok a) /\
      (forall i s a,
         nth_error lines i = Some s ->
         reply_address w (sent st + i) s = Ok a ->
         exists y, In y l /\ (y = a \/ py_eqb y a = true)).
Proof.
  intros w fuel file lines st Hfile Hnb Hb.
  rewrite (get_token_list_from_signatures_run w fuel file lines st Hfile).
  destruct (signature_loop_finishes w 0 fuel (never_busy_settles w Hnb)
              (Nat.le_0_l fuel) lines
              (mkSig [] PNone (sent st) (sig_trace st)))
    as (o & st' & Hloop).
  rewrite Hloop.
  pose proof Hloop as Hsafe.
  apply signature_loop_safe in Hsafe; auto.
  destruct Hsafe as (-> & Hd & _).
  apply (signature_loop_steady w fuel Hnb) in Hloop. simpl in Hloop.
  destruct Hloop as (Hsent & _ & Hsound & Hcomplete).
  exists (token_list st'), st'. repeat split; auto.
  intros a Ha. destruct (Hsound a Ha) as [[]|H]. exact H.
Qed.

Lemma token_list_holds_each_named_token_once_witness :
  exists l st',
    get_token_list_from_signatures steady_solscan 0 "sigs.txt" sig_start
      = Some (Ok l, st') /\
    sent st' = 3 /\
    pairwise_distinct l = true.
Proof.
  destruct (token_list_holds_each_named_token_once steady_solscan 0
              "sigs.txt" ["s1"; "s2"; "s3"] sig_start)
    as (l & st' & H1 & H2 & H3 & _).
  - reflexivity.
  - intros i url. simpl.
    destruct (url =? transaction_url "s2")%string; reflexivity.
  - intros i url r v Hr Hv. simpl in Hr.
    destruct (url =? transaction_url "s2")%string;
      inversion Hr; subst; simpl in Hv; inversion Hv; reflexivity.
  - exists l, st'. repeat split; assumption.
Defined.

Lemma lfor_each_app {S A} (body : A -> L S unit) (l1 l2 : list A) :
  forall st,
    lfor_each (l1 ++ l2) body st =
      match lfor_each l1 body st with
      | Some (Ok _, st1) => lfor_each l2 body st1
      | Some (Raise e, st1) => Some (Raise e, st1)
      | None => None
      end.
Proof.
  induction l1 as [|x t IH]; intros st.
  - reflexivity.
  - simpl. unfold lbind.
    destruct (body x st) as [[[[]|e] st1]|]; auto.
Qed.

(** X22.  An answer that is neither an object nor falsy (a JSON string,
    number or array) ends the lookup: reading it raises, the handler
    raises [AttributeError] on the same value, and the call raises after
    the signatures before it were handled; the tokens found so far are
    lost and no later signature is requested. *)
Theorem non_object_answer_aborts_lookup :
  forall (w : solscan) (fuel : nat) (file : string)
         (before after : list string) (signature : string)
         (st st_mid : sig_state) (resp : response) (data : pyval),
    dict_get (sig_files w) file = Some (before ++ signature :: after) ->
    lfor_each before (signature_step w fuel)
      (mkSig [] PNone (sent st) (sig_trace st)) = Some (Ok tt, st_mid) ->
    requests_get w (sent st_mid) (transaction_url signature) = Ok resp ->
    status resp <> 429%Z ->
    resp_json resp = Ok data ->
    object_or_falsy data = false ->
    get_token_list_from_signatures w fuel file st =
      Some (Raise AttributeError,
            mkSig (token_list st_mid) data (S (sent st_mid))
              (sig_trace st_mid ++
               [Plain (Log Debug "Signature: %s");
                Plain (HttpGet (transaction_url signature))])).
Proof.
  intros w fuel file before after signature st st_mid resp data
    Hfile Hbefore Hreq Hstatus Hjson Hobj.
  rewrite (get_token_list_from_signatures_run w fuel file _ st Hfile).
  rewrite lfor_each_app, Hbefore. simpl lfor_each. unfold lbind.
  rewrite signature_step_eq.
  rewrite make_solscan_request_steady.
  - fold (transaction_url signature). simpl sent. rewrite Hreq, Hjson.
    assert (Ha : token_address_of data = Raise AttributeError).
    { destruct data; simpl in Hobj; try discriminate; reflexivity. }
    rewrite Ha. rewrite signature_handler_unsafe by exact Hobj.
    simpl. rewrite <- app_assoc. reflexivity.
  - fold (transaction_url signature). simpl sent. rewrite Hreq. simpl.
    now apply Z.eqb_neq.
Qed.

Lemma non_object_answer_aborts_lookup_witness :
  get_token_list_from_signatures message_solscan 0 "sigs.txt" sig_start =
    Some (Raise AttributeError,
          mkSig [] (PStr "Too many requests") 1
            [Plain (Log Debug "Signature: %s");
             Plain (HttpGet (transaction_url "s1"))]).
Proof.
  apply (non_object_answer_aborts_lookup message_solscan 0 "sigs.txt"
           [] ["s2"] "s1" sig_start sig_start
           (mkResponse 200 (Ok (PStr "Too many requests")))
           (PStr "Too many requests")).
  - reflexivity.
  - reflexivity.
  - reflexivity.
  - simpl. lia.
  - reflexivity.
  - reflexivity.
Defined.

Lemma falsy_has_no_first (v : pyval) :
  truthy v = false -> exists e, py_first v = Raise e.
Proof.
  destruct v as [|b|z|s|s|l|d]; simpl; intros H; eauto.
  - destruct s; [eauto | discriminate].
  - destruct s; [eauto | discriminate].
  - destruct l; [eauto | discriminate].
Qed.

Lemma failed_request_step (w : solscan) fuel signature st e :
  object_or_falsy (transaction_data st) = true ->
  requests_get w (sent st) (transaction_url signature) = Raise e ->
  signature_step w fuel signature st =
    Some (Ok tt,
          mkSig (token_list st) (transaction_data st) (S (sent st))
            (sig_trace st ++
             [Plain (Log Debug "Signature: %s");
              Plain (HttpGet (transaction_url signature));
              if blames_transaction (transaction_data st)
              then Plain (Log Warning "No Token in Transaction: %s")
              else WarningOf e])).
Proof.
  intros Hobj Hreq. rewrite signature_step_eq.
  rewrite make_solscan_request_steady;
    fold (transaction_url signature); simpl sent; rewrite Hreq;
    [|reflexivity].
  rewrite signature_handler_eq. cbv zeta.
  cbn [token_list transaction_data sent sig_trace].
  rewrite <- !app_assoc. cbn [app].
  destruct (transaction_data st) as [|b|z|s|s|l|d] eqn:Htd;
    unfold object_or_falsy in Hobj.
  1-6: apply negb_true_iff in Hobj; rewrite Hobj; reflexivity.
  unfold blames_transaction.
  destruct (truthy (PDict d)); [|reflexivity].
  cbn [py_get andb]. destruct (truthy (get d "tokenBalances")); reflexivity.
Qed.

Lemma no_balances_step (w : solscan) fuel signature st resp d :
  requests_get w (sent st) (transaction_url signature) = Ok resp ->
  status resp <> 429%Z ->
  resp_json resp = Ok (PDict d) ->
  d <> [] ->
  truthy (get d "tokenBalances") = false ->
  signature_step w fuel signature st =
    Some (Ok tt,
          mkSig (token_list st) (PDict d) (S (sent st))
            (sig_trace st ++
             [Plain (Log Debug "Signature: %s");
              Plain (HttpGet (transaction_url signature));
              Plain (Log Warning "No Token in Transaction: %s")])).
Proof.
  intros Hreq Hstatus Hjson Hd Hfalsy. rewrite signature_step_eq.
  rewrite make_solscan_request_steady;
    fold (transaction_url signature); simpl sent; rewrite Hreq;
    [|simpl; now apply Z.eqb_neq].
  rewrite Hjson.
  destruct (falsy_has_no_first _ Hfalsy) as (e & He).
  unfold token_address_of. cbn [py_get]. rewrite He.
  rewrite signature_handler_eq. cbv zeta.
  cbn [token_list transaction_data sent sig_trace].
  assert (Ht : truthy (PDict d) = true)
    by (destruct d; [congruence | reflexivity]).
  rewrite Ht. cbn [py_get]. rewrite Hfalsy.
  rewrite <- !app_assoc. reflexivity.
Qed.

(** X23.  The handler reads [transaction_data], which a failed request
    does not assign: after an answer that is a non-empty object without
    token balances, a request that raises is reported with the warning
    'No Token in Transaction' about the previous answer, and the
    exception itself is not logged.  Neither signature adds a token. *)
Theorem failed_request_is_blamed_on_previous_answer :
  forall (w : solscan) (fuel : nat) (s1 s2 : string) (st : sig_state)
         (resp : response) (d : list (string * pyval)) (e : exn),
    requests_get w (sent st) (transaction_url s1) = Ok resp ->
    status resp <> 429%Z ->
    resp_json resp = Ok (PDict d) ->
    d <> [] ->
    truthy (get d "tokenBalances") = false ->
    requests_get w (S (sent st)) (transaction_url s2) = Raise e ->
    lfor_each [s1; s2] (signature_step w fuel) st =
      Some (Ok tt,
            mkSig (token_list st) (PDict d) (S (S (sent st)))
              (sig_trace st ++
               [Plain (Log Debug "Signature: %s");
                Plain (HttpGet (transaction_url s1));
                Plain (Log Warning "No Token in Transaction: %s");
                Plain (Log Debug "Signature: %s");
                Plain (HttpGet (transaction_url s2));
                Plain (Log Warning "No Token in Transaction: %s")])).
Proof.
  intros w fuel s1 s2 st resp d e Hreq Hstatus Hjson Hd Hfalsy Hfail.
  simpl lfor_each. unfold lbind.
  rewrite (no_balances_step w fuel s1 st resp d) by assumption.
  rewrite (failed_request_step w fuel s2 _ e); simpl sent;
    simpl transaction_data; [|reflexivity|exact Hfail].
  assert (Hb : blames_transaction (PDict d) = true).
  { unfold blames_transaction. rewrite Hfalsy.
    destruct d; [congruence | reflexivity]. }
  rewrite Hb. unfold finished, ret.
  cbn [token_list transaction_data sent sig_trace].
  rewrite <- !app_assoc. reflexivity.
Qed.

Lemma failed_request_is_blamed_on_previous_answer_witness :
  lfor_each ["s2"; "s3"] (signature_step busy_twice_solscan 0)
    (mkSig [PStr "mintA"] PNone 3 []) =
    Some (Ok tt,
          mkSig [PStr "mintA"] no_balances_reply 5
            [Plain (Log Debug "Signature: %s");
             Plain (HttpGet (transaction_url "s2"));
             Plain (Log Warning "No Token in Transaction: %s");
             Plain (Log Debug "Signature: %s");
             Plain (HttpGet (transaction_url "s3"));
             Plain (Log Warning "No Token in Transaction: %s")]).
Proof.
  apply (failed_request_is_blamed_on_previous_answer busy_twice_solscan 0
           "s2" "s3" (mkSig [PStr "mintA"] PNone 3 [])
           (mkResponse 200 (Ok no_balances_reply))
           [("tokenBalances", PList [])] ClientError).
  - reflexivity.
  - simpl. lia.
  - reflexivity.
  - discriminate.
  - reflexivity.
  - reflexivity.
Defined.

(** ** Undecoded bytes and the cache *)

Lemma unserializable_record_in_map (m : tokenmap) t r :
  dict_get m t = Some r ->
  serializable (PDict r) = false ->
  serializable (py_of_tokenmap m) = false.
Proof.
  intros Hr Hs. apply dict_get_In in Hr.
  unfold py_of_tokenmap.
  cbn [serializable].
  match goal with
  | |- ?x = false => destruct x eqn:Hall; [|reflexivity]
  end.
  rewrite forallb_forall in Hall.
  specialize (Hall (t, PDict r)). cbn [snd] in Hall.
  rewrite <- Hs. symmetry. apply Hall.
  apply in_map_iff. exists (t, r). split; [reflexivity | exact Hr].
Qed.

Lemma unserializable_field (r : record) k v :
  In (k, v) r -> serializable v = false -> serializable (PDict r) = false.
Proof.
  intros Hin Hs. cbn [serializable].
  match goal with
  | |- ?x = false => destruct x eqn:Hall; [|reflexivity]
  end.
  rewrite forallb_forall in Hall. specialize (Hall _ Hin).
  cbn [snd] in Hall. congruence.
Qed.

(** X24.  Bytes that do not decode stay in the record (lines 253-258), and
    a record with bytes cannot be written as JSON: the account phase
    still returns normally with the account stored in the map, but its
    save fails after the cache file was opened for writing, so the file
    is left truncated and the next load of the key returns the empty
    map. *)
Theorem undecodable_metadata_leaves_cache_unreadable :
  forall (w : remote) (key : string) (st : state) (t : string)
         (r : record) (token metadata_account : pyval)
         (unpacked : record) (k b : string),
    NoDup (dict_keys (tokens st)) ->
    (forall t' r', selected "account" (tokens st) t' r' ->
       task_outcome (get_account_info_from_solana_async w) r' = Ok tt) ->
    selected "account" (tokens st) t r ->
    dict_get r "token" = Some token ->
    get_metadata_account w token = Ok metadata_account ->
    unpack_metadata w metadata_account = Ok unpacked ->
    In (k, PBytes b) unpacked ->
    bytes_decode w b = None ->
    mkdir_ok (disk st) = true ->
    open_w_ok (disk st) (cache_path key) = true ->
    let out := populate_account_inner w key st in
    fst out = Ok (tokens (snd out)) /\
    dict_get (tokens (snd out)) t =
      Some (dict_set r "account"
              (PDict (map (fun kv => (fst kv, decode_value w (snd kv)))
                        unpacked))) /\
    dict_get (files (disk (snd out))) (cache_path key) = Some Garbled /\
    fst (load_request_cache key (snd out)) = Ok (PDict []).
Proof.
  intros w key st t r token metadata_account unpacked k b Hnd Hall Hsel
    Htok Hacct Hunp Hin Hdec Hmk Hop out.
  unfold populate_account_inner in out.
  destruct (enrich_success w "account"
              (get_account_info_from_solana_async w) key st Hnd Hall)
    as (Hok & Hrec & _).
  fold out in Hok, Hrec.
  destruct Hsel as [Hr Hnone].
  specialize (Hrec t r Hr). rewrite Hnone in Hrec. simpl in Hrec.
  assert (Hafter :
    after_task (get_account_info_from_solana_async w) r =
      dict_set r "account"
        (PDict (map (fun kv => (fst kv, decode_value w (snd kv)))
                  unpacked))).
  { unfold after_task. rewrite get_account_info_run.
    unfold py_item, metadata_lookup. rewrite Htok, Hacct, Hunp.
    reflexivity. }
  rewrite Hafter in Hrec.
  assert (Hser : serializable (py_of_tokenmap (tokens (snd out))) = false).
  { apply (unserializable_record_in_map _ t _ Hrec).
    apply (unserializable_field _ "account"
             (PDict (map (fun kv => (fst kv, decode_value w (snd kv)))
                       unpacked))).
    - apply dict_get_In. apply dict_get_set_same.
    - apply (unserializable_field _ k (PBytes b)); [|reflexivity].
      apply in_map_iff. exists (k, PBytes b). split; [|exact Hin].
      simpl. now rewrite Hdec. }
  assert (Hdisk : disk (snd out) =
                  set_file (disk st) (cache_path key) Garbled).
  { subst out.
    rewrite (enrich_ok_disk w "account" _ key st _ Hnd Hok).
    rewrite save_request_cache_disk_run, Hmk, Hop. cbn [andb].
    now rewrite (serializable_to_json_none _ Hser). }
  assert (Hfile : dict_get (files (disk (snd out))) (cache_path key)
                  = Some Garbled).
  { rewrite Hdisk. simpl. apply dict_get_set_same. }
  split; [exact Hok|]. split; [exact Hrec|]. split; [exact Hfile|].
  rewrite load_request_cache_run, Hfile. reflexivity.
Qed.

Lemma undecodable_metadata_leaves_cache_unreadable_witness :
  let st :=
    mkState [("tok1", [("token", PStr "tok1")])]
      (mkFs true (fun _ => true) (fun _ => true) (fun _ => true)
         [("cache/k_cache.json", Doc (JObj []))]) [] in
  let out := populate_account_inner raw_bytes_remote "k" st in
  fst out = Ok (tokens (snd out)) /\
  dict_get (files (disk (snd out))) (cache_path "k") = Some Garbled /\
  fst (load_request_cache "k" (snd out)) = Ok (PDict []).
Proof.
  intros st out.
  destruct (undecodable_metadata_leaves_cache_unreadable raw_bytes_remote
              "k" st "tok1" [("token", PStr "tok1")] (PStr "tok1")
              (PStr "tok1")
              [("update_authority", PBytes "raw");
               ("data", PDict [("name", PStr "Token #1")])]
              "update_authority" "raw")
    as (H1 & _ & H3 & H4).
  - repeat constructor; simpl; intuition discriminate.
  - intros t' r' [Hr _]. apply dict_get_In in Hr.
    destruct Hr as [Hr|[]]. inversion Hr; subst. reflexivity.
  - split; reflexivity.
  - reflexivity.
  - reflexivity.
  - reflexivity.
  - now left.
  - reflexivity.
  - reflexivity.
  - reflexivity.
  - split; [exact H1|]. split; [exact H3 | exact H4].
Defined.

(** ** A rate limit that never ends *)

Lemma async_http_request_exhausts (w : remote) url :
  (forall k, exists resp,
     session_get w url k = Ok resp /\ status resp = 429%Z) ->
  forall depth attempt ts,
    async_http_request_from w depth url attempt ts =
      (Raise RecursionError,
       mkTask (data_dict ts) (events ts ++ retry_events url depth)).
Proof.
  intros Hbusy. induction depth as [|depth IH]; intros attempt ts.
  - simpl. unfold raise. rewrite app_nil_r. now destruct ts.
  - destruct (Hbusy attempt) as (resp & Hr & Hs).
    simpl. unfold bind, note, modify, lift. simpl.
    rewrite Hr, Hs. simpl. rewrite IH. simpl.
    rewrite <- !app_assoc. reflexivity.
Qed.

(** X25.  [async_http_request] retries by calling itself, so a rate limit
    that never ends does not make it wait forever: when every answer is
    429 it has made as many requests, each followed by a sleep of three
    seconds, as the interpreter allows nested calls, and then the task
    raises [RecursionError], leaving the default metadata it stored
    before the first request. *)
Theorem endless_rate_limit_ends_in_recursion_error :
  forall (w : remote) (r : record) (url : string),
    uri_of r = Ok (PStr url) ->
    url <> "" ->
    (forall k, exists resp,
       session_get w url k = Ok resp /\ status resp = 429%Z) ->
    let out := get_arweave_metadata w (mkTask r []) in
    fst out = Raise RecursionError /\
    data_dict (snd out) = with_default_arweave r /\
    events (snd out) = retry_events url (recursion_limit w) /\
    List.length (filter is_request (events (snd out))) = recursion_limit w /\
    List.length (filter is_sleep (events (snd out))) = recursion_limit w.
Proof.
  intros w r url Hu Hne Hbusy out.
  assert (Hrun : out =
    (Raise RecursionError,
     mkTask (with_default_arweave r)
       (retry_events url (recursion_limit w)))).
  { subst out. rewrite get_arweave_metadata_run, Hu. simpl truthy.
    apply String.eqb_neq in Hne. rewrite Hne. simpl negb. cbv iota.
    unfold async_http_request.
    now rewrite (async_http_request_exhausts w url Hbusy). }
  rewrite Hrun. simpl.
  repeat split; auto using retry_events_requests, retry_events_sleeps.
Qed.

Lemma endless_rate_limit_ends_in_recursion_error_witness :
  let r := record_with_uri "tok1" (PStr "https://arweave.net/1") in
  let out := get_arweave_metadata always_busy_remote (mkTask r []) in
  fst out = Raise RecursionError /\
  List.length (filter is_sleep (events (snd out))) = 3.
Proof.
  intros r out.
  destruct (endless_rate_limit_ends_in_recursion_error always_busy_remote
              r "https://arweave.net/1") as (H1 & _ & _ & _ & H5).
  - reflexivity.
  - discriminate.
  - intros k. eexists. split; reflexivity.
  - split; [exact H1 | exact H5].
Defined.
